(** * Lindows: the shell interpretation engine

    A shallow embedding of the interpreter core of the Lindows terminal
    ([terminal_core.py], [utils/path_converter.py], [utils/color_output.py],
    [FileCommands.cd/pwd/_format_mode],
    [SystemCommands.echo/history/alias/unalias]) together with the
    properties of its specification.

    Layout:
    - [Py]       Python [str] and [dict] primitives used by the program;
    - [Shlex]    [shlex.split] (POSIX mode);
    - [NtPath]   the [os.path] functions of a Windows host ([ntpath]);
    - [Host]     the interface of the operating system and of the black-box
                 command collaborators, [HostLaws] what is assumed of it;
    - the program itself, in the order of the source files; [execute] is
      defined through [execute_fuel], which counts the nested calls;
    - [Demo]     a small concrete host on which the program is run;
    - the notions used to state the properties;
    - facts about the primitives, the bound on the nesting of [execute]
      ([execute_fuel_enough], [execute_unfold]), the routes of [execute];
    - the properties C1 to C10, and their instances on [Demo];
    - further properties of the same code, X1 to X29: what a run of
      [execute] keeps, the tokens of a line, the alias table, the path
      translations, [cd] and [pwd], [echo], [_format_mode], the prompt and
      the loop of [run], and their instances on [Demo].

    Python strings are modelled as lists of 8-bit characters (the UTF-8
    encoding of the text); only the ASCII white-space characters are
    recognised as white space. *)

From Stdlib Require Import Ascii String List Bool Arith ZArith Lia.
From Stdlib Require Import DecimalString.
Import ListNotations.
Open Scope string_scope.
Open Scope list_scope.
Open Scope nat_scope.

Abbreviation str := (list ascii).
Coercion list_ascii_of_string : string >-> list.

(* ===================================================================== *)
(** * Python primitives *)
(* ===================================================================== *)

Module Py.

Fixpoint str_eqb (a b : str) : bool :=
  match a, b with
  | [], [] => true
  | x :: a', y :: b' => Ascii.eqb x y && str_eqb a' b'
  | _, _ => false
  end.

(** the double quote character *)
Definition dquote : ascii := ascii_of_nat 34.

(** [not s] on a string: true exactly for the empty string. *)
Definition is_empty (s : str) : bool :=
  match s with [] => true | _ :: _ => false end.

(** [str.isspace] on one character (code points below 128: TAB, LF, VT, FF,
    CR, FS, GS, RS, US and the space). *)
Definition isspace (c : ascii) : bool :=
  let n := nat_of_ascii c in
  ((9 <=? n) && (n <=? 13)) || ((28 <=? n) && (n <=? 32)).

Fixpoint lstrip (s : str) : str :=
  match s with
  | c :: s' => if isspace c then lstrip s' else s
  | [] => []
  end.

(** [s.rstrip()]: what is left of [s] without its trailing white space. *)
Fixpoint rstrip (s : str) : str :=
  match s with
  | [] => []
  | c :: s' =>
      match rstrip s' with
      | [] => if isspace c then [] else [c]
      | r => c :: r
      end
  end.

(** [s.strip()] *)
Definition strip (s : str) : str := rstrip (lstrip s).

Definition in_chars (c : ascii) (chars : str) : bool :=
  existsb (Ascii.eqb c) chars.

Fixpoint lstrip_chars (chars s : str) : str :=
  match s with
  | c :: s' => if in_chars c chars then lstrip_chars chars s' else s
  | [] => []
  end.

(** [s.strip(chars)] *)
Definition strip_chars (chars s : str) : str :=
  rev (lstrip_chars chars (rev (lstrip_chars chars s))).

(** [s.startswith(p)] *)
Fixpoint startswith (p s : str) : bool :=
  match p, s with
  | [], _ => true
  | x :: p', y :: s' => Ascii.eqb x y && startswith p' s'
  | _ :: _, [] => false
  end.

(** [sub in s] *)
Fixpoint contains (sub s : str) : bool :=
  startswith sub s ||
  match s with
  | [] => false
  | _ :: s' => contains sub s'
  end.

Definition cons_head (c : ascii) (l : list str) : list str :=
  match l with
  | w :: ws => (c :: w) :: ws
  | [] => [[c]]
  end.

(** [s.split(sep)] for a non-empty separator: the leftmost occurrences,
    without overlap.  [skip] counts the characters of a separator that was
    just recognised and are still to be passed over. *)
Fixpoint split_go (sep : str) (skip : nat) (s : str) : list str :=
  match s with
  | [] => [[]]
  | c :: s' =>
      match skip with
      | S k => split_go sep k s'
      | O =>
          if startswith sep s then [] :: split_go sep (length sep - 1) s'
          else cons_head c (split_go sep 0 s')
      end
  end.

Definition split (sep s : str) : list str := split_go sep 0 s.

(** [s.split(sep, 1)] for a one-character separator. *)
Fixpoint split1 (sep : ascii) (s : str) : list str :=
  match s with
  | [] => [[]]
  | c :: s' =>
      if Ascii.eqb c sep then [[]; s']
      else match split1 sep s' with
           | w :: ws => (c :: w) :: ws
           | [] => [[c]]
           end
  end.

(** [s.split()]: the maximal runs of characters that are not white space. *)
Fixpoint split_ws (s : str) : list str :=
  match s with
  | [] => []
  | c :: s' =>
      if isspace c then split_ws s'
      else match s' with
           | [] => [[c]]
           | c' :: _ =>
               if isspace c' then [c] :: split_ws s'
               else cons_head c (split_ws s')
           end
  end.

Fixpoint take_word (s : str) : str :=
  match s with
  | c :: s' => if isspace c then [] else c :: take_word s'
  | [] => []
  end.

Fixpoint drop_word (s : str) : str :=
  match s with
  | c :: s' => if isspace c then s else drop_word s'
  | [] => []
  end.

(** [s.split(None, 1)]: the first word, then the remainder from its first
    character that is not white space to the end of the string. *)
Definition split_ws1 (s : str) : list str :=
  match lstrip s with
  | [] => []
  | s1 =>
      match lstrip (drop_word s1) with
      | [] => [take_word s1]
      | rest => [take_word s1; rest]
      end
  end.

(** [s.replace(old, new)] for one-character [old] and [new]. *)
Definition replace_char (old new : ascii) (s : str) : str :=
  map (fun c => if Ascii.eqb c old then new else c) s.

(** [s.replace(old, new, 1)] for a one-character [old]. *)
Fixpoint replace_first (old : ascii) (new : str) (s : str) : str :=
  match s with
  | [] => []
  | c :: s' => if Ascii.eqb c old then new ++ s' else c :: replace_first old new s'
  end.

(** [sep.join(l)] *)
Fixpoint join (sep : str) (l : list str) : str :=
  match l with
  | [] => []
  | [w] => w
  | w :: ws => w ++ sep ++ join sep ws
  end.

(** [s.replace(old, new)] for a non-empty [old]: the pieces between the
    occurrences of [old], joined by [new]. *)
Definition replace (old new s : str) : str := join new (split old s).

Definition is_upper (c : ascii) : bool :=
  let n := nat_of_ascii c in (65 <=? n) && (n <=? 90).

Definition is_lower (c : ascii) : bool :=
  let n := nat_of_ascii c in (97 <=? n) && (n <=? 122).

(** the character class [[a-zA-Z]] *)
Definition is_alpha (c : ascii) : bool := is_upper c || is_lower c.

(** [c.upper()] and [c.lower()] on one character; only the ASCII letters
    change. *)
Definition upper_char (c : ascii) : ascii :=
  if is_lower c then ascii_of_nat (nat_of_ascii c - 32) else c.

Definition lower_char (c : ascii) : ascii :=
  if is_upper c then ascii_of_nat (nat_of_ascii c + 32) else c.

Definition upper (s : str) : str := map upper_char s.
Definition lower (s : str) : str := map lower_char s.

(** [s.find(c, start)] for a one-character [c]; [None] stands for [-1]. *)
Fixpoint find_char (c : ascii) (start : nat) (s : str) : option nat :=
  match s with
  | [] => None
  | x :: s' =>
      match start with
      | S k => option_map S (find_char c k s')
      | O => if Ascii.eqb x c then Some 0
             else option_map S (find_char c 0 s')
      end
  end.

(** ** [int(s)] *)

Definition is_digit (c : ascii) : bool :=
  let n := nat_of_ascii c in (48 <=? n) && (n <=? 57).

Definition digit_val (c : ascii) : Z := Z.of_nat (nat_of_ascii c - 48).

(** The white space that [int] skips around a literal: TAB, LF, VT, FF, CR
    and the space. *)
Definition int_space (c : ascii) : bool :=
  let n := nat_of_ascii c in
  ((9 <=? n) && (n <=? 13)) || (n =? 32).

Fixpoint int_lstrip (s : str) : str :=
  match s with
  | c :: s' => if int_space c then int_lstrip s' else s
  | [] => []
  end.

(** The digits of a decimal literal, up to trailing white space; one
    underscore is allowed between two digits.  [prev] tells whether the
    previous character was a digit. *)
Fixpoint parse_digits (prev : bool) (acc : Z) (s : str) : option Z :=
  match s with
  | [] => if prev then Some acc else None
  | c :: s' =>
      if is_digit c then parse_digits true (10 * acc + digit_val c)%Z s'
      else if Ascii.eqb c "_"%char && prev then parse_digits false acc s'
      else if prev && forallb int_space s then Some acc
      else None
  end.

(** [int(s)]: surrounding white space, an optional sign, decimal digits.
    [None] stands for [ValueError].  (The interpreter's limit on the number
    of digits of a literal is not part of the model.) *)
Definition int (s : str) : option Z :=
  match int_lstrip s with
  | "-"%char :: d => option_map Z.opp (parse_digits false 0%Z d)
  | "+"%char :: d => parse_digits false 0%Z d
  | d => parse_digits false 0%Z d
  end.

(** [str(n)] for a natural number. *)
Definition str_of_nat (n : nat) : str :=
  list_ascii_of_string (NilZero.string_of_uint (Nat.to_uint n)).

(** [f"{n:4d}"]: the decimal digits, right-aligned in a field of width 4. *)
Definition format_4d (n : nat) : str :=
  let d := str_of_nat n in
  repeat " "%char (4 - length d) ++ d.

(** ** [dict] with string keys: the items in insertion order, keys unique. *)

Definition dict := list (str * str).

Fixpoint dict_get (k : str) (d : dict) : option str :=
  match d with
  | [] => None
  | (k', v) :: d' => if str_eqb k k' then Some v else dict_get k d'
  end.

(** [k in d] *)
Definition dict_mem (k : str) (d : dict) : bool :=
  match dict_get k d with Some _ => true | None => false end.

(** [d[k] = v]: an existing key keeps its position. *)
Fixpoint dict_set (k v : str) (d : dict) : dict :=
  match d with
  | [] => [(k, v)]
  | (k', v') :: d' =>
      if str_eqb k k' then (k, v) :: d' else (k', v') :: dict_set k v d'
  end.

(** [del d[k]] *)
Fixpoint dict_del (k : str) (d : dict) : dict :=
  match d with
  | [] => []
  | (k', v') :: d' =>
      if str_eqb k k' then d' else (k', v') :: dict_del k d'
  end.

End Py.

(* ===================================================================== *)
(** * [shlex.split] *)
(* ===================================================================== *)

(** [shlex.split(s)]: the lexer of the standard library in POSIX mode with
    [whitespace_split] set and no comment characters.  Its white space is
    the space, TAB, CR and LF, its quotes are the single and the double
    quote, its escape is the backslash, which is also honoured inside double
    quotes. *)

Module Shlex.

Definition whitespace (c : ascii) : bool :=
  Py.in_chars c [" "%char; ascii_of_nat 9; ascii_of_nat 13; ascii_of_nat 10].

Definition quotes (c : ascii) : bool := Py.in_chars c ["'"%char; Py.dquote].

Definition escape (c : ascii) : bool := Ascii.eqb c "\"%char.

Definition escapedquotes (c : ascii) : bool := Ascii.eqb c Py.dquote.

(** The lexer's [state]: [' '] between tokens, ['a'] inside a word, a quote
    character inside a quoted part, and the escape character with the state
    to return to ([escapedstate]: ['a'] when [None], else the quote). *)
Inductive state : Type :=
| Blank
| Word
| Quoted (q : ascii)
| Escaped (escapedstate : option ascii).

(** [lex st token s] reads the rest [s] of the input with the token read so
    far; the result is the list of the remaining tokens, or [None] for
    [ValueError] (no closing quotation, no escaped character). *)
Fixpoint lex (st : state) (token : str) (s : str) : option (list str) :=
  match s with
  | [] =>
      match st with
      | Blank => Some []
      | Word => Some [token]
      | Quoted _ => None
      | Escaped _ => None
      end
  | c :: s' =>
      match st with
      | Blank =>
          if whitespace c then lex Blank [] s'
          else if escape c then lex (Escaped None) [] s'
          else if quotes c then lex (Quoted c) [] s'
          else lex Word [c] s'
      | Quoted q =>
          if Ascii.eqb c q then lex Word token s'
          else if escape c && escapedquotes q then lex (Escaped (Some q)) token s'
          else lex (Quoted q) (token ++ [c]) s'
      | Escaped None =>
          lex Word (token ++ [c]) s'
      | Escaped (Some q) =>
          if negb (escape c) && negb (Ascii.eqb c q)
          then lex (Quoted q) (token ++ ["\"%char; c]) s'
          else lex (Quoted q) (token ++ [c]) s'
      | Word =>
          if whitespace c then option_map (cons token) (lex Blank [] s')
          else if quotes c then lex (Quoted c) token s'
          else if escape c then lex (Escaped None) token s'
          else lex Word (token ++ [c]) s'
      end
  end.

Definition split (s : str) : option (list str) := lex Blank [] s.

End Shlex.

(* ===================================================================== *)
(** * [os.path] on a Windows host *)
(* ===================================================================== *)

(** The functions of [ntpath] (CPython 3.11) that the program calls. *)

Module NtPath.

Definition sep : ascii := "\"%char.
Definition altsep : ascii := "/"%char.
Definition colon : ascii := ":"%char.

Definition is_sep (c : ascii) : bool := Ascii.eqb c sep || Ascii.eqb c altsep.

(** [splitdrive(p)]: the drive or UNC share, and the rest. *)
Definition splitdrive (p : str) : str * str :=
  if 2 <=? length p then
    let normp := Py.replace_char altsep sep p in
    if Py.str_eqb (firstn 2 normp) [sep; sep] then
      let start :=
        if Py.str_eqb (Py.upper (firstn 8 normp)) "\\?\UNC\" then 8 else 2 in
      match Py.find_char sep start normp with
      | None => (p, [])
      | Some index =>
          match Py.find_char sep (index + 1) normp with
          | None => (p, [])
          | Some index2 => (firstn index2 p, skipn index2 p)
          end
      end
    else if Py.str_eqb (firstn 1 (skipn 1 normp)) [colon] then
      (firstn 2 p, skipn 2 p)
    else ([], p)
  else ([], p).

(** [isabs(s)] *)
Definition isabs (s : str) : bool :=
  let s3 := Py.replace_char altsep sep (firstn 3 s) in
  Py.startswith [sep] s3 || Py.startswith [colon; sep] (skipn 1 s3).

Definition head_is_sep (s : str) : bool :=
  match s with c :: _ => is_sep c | [] => false end.

Definition last_is_sep (s : str) : bool := head_is_sep (rev s).

(** [join(path, p)] with one further component. *)
Definition join (path p : str) : str :=
  let '(result_drive, result_path) := splitdrive path in
  let '(p_drive, p_path) := splitdrive p in
  let '(result_drive, result_path) :=
    if head_is_sep p_path then
      ((if negb (Py.is_empty p_drive) || Py.is_empty result_drive
        then p_drive else result_drive), p_path)
    else if negb (Py.is_empty p_drive)
            && negb (Py.str_eqb p_drive result_drive)
            && negb (Py.str_eqb (Py.lower p_drive) (Py.lower result_drive))
    then (p_drive, p_path)
    else
      let result_drive :=
        if negb (Py.is_empty p_drive) && negb (Py.str_eqb p_drive result_drive)
        then p_drive else result_drive in
      let result_path :=
        if negb (Py.is_empty result_path) && negb (last_is_sep result_path)
        then result_path ++ [sep] else result_path in
      (result_drive, result_path ++ p_path) in
  if negb (Py.is_empty result_path) && negb (head_is_sep result_path)
     && negb (Py.is_empty result_drive)
     && negb (Py.str_eqb (firstn 1 (rev result_drive)) [colon])
  then result_drive ++ [sep] ++ result_path
  else result_drive ++ result_path.

(** The loop of [normpath] over the components.  The components already
    passed ([comps[:i]]) are kept on [done], last one first. *)
Fixpoint norm_comps (rooted : bool) (done : list str) (comps : list str)
  : list str :=
  match comps with
  | [] => rev done
  | c :: comps' =>
      if Py.is_empty c || Py.str_eqb c "." then norm_comps rooted done comps'
      else if Py.str_eqb c ".." then
        match done with
        | d :: done' =>
            if negb (Py.str_eqb d "..") then norm_comps rooted done' comps'
            else norm_comps rooted (c :: done) comps'
        | [] =>
            if rooted then norm_comps rooted done comps'
            else norm_comps rooted (c :: done) comps'
        end
      else norm_comps rooted (c :: done) comps'
  end.

(** [path.lstrip(sep)] *)
Definition lstrip_sep (s : str) : str := Py.lstrip_chars [sep] s.

(** [normpath(path)] *)
Definition normpath (path : str) : str :=
  let path := Py.replace_char altsep sep path in
  let '(prefix, path) := splitdrive path in
  let '(prefix, path) :=
    if Py.startswith [sep] path then (prefix ++ [sep], lstrip_sep path)
    else (prefix, path) in
  let comps := norm_comps (last_is_sep prefix) [] (Py.split [sep] path) in
  let comps :=
    if Py.is_empty prefix && (match comps with [] => true | _ => false end)
    then ["." : str] else comps in
  prefix ++ Py.join [sep] comps.

(** [expanduser('~')], from the process environment. *)
Definition expanduser_tilde (environ_get : str -> option str) : str :=
  match environ_get "USERPROFILE" with
  | Some userhome => userhome
  | None =>
      match environ_get "HOMEPATH" with
      | None => "~"
      | Some homepath =>
          let drive :=
            match environ_get "HOMEDRIVE" with Some d => d | None => [] end in
          join drive homepath
      end
  end.

End NtPath.

(* ===================================================================== *)
(** * Exceptions, outcomes and the host *)
(* ===================================================================== *)

(** What a call can raise.  [Exception msg] is an instance of Python's
    [Exception] with [str(e) = msg]; [BaseException msg] is one that is not
    ([KeyboardInterrupt], [SystemExit]), which [except Exception] lets
    through. *)
Inductive exn : Type :=
| Exception (msg : str)
| BaseException (msg : str).

Inductive outcome (A : Type) : Type :=
| Return (a : A)
| Raise (e : exn).

Arguments Return {A} a.
Arguments Raise {A} e.

(** The operating system and the command collaborators, over a state [W] of
    the world outside the interpreter (process environment, process working
    directory, file system, network).  Every operation is a black box. *)
Class Host (W : Type) : Type := {
  (** [os.environ.get(k)] *)
  environ_get : str -> W -> option str;
  (** [os.environ[k] = v] *)
  environ_set : str -> str -> W -> W;
  (** [os.getcwd()] *)
  getcwd : W -> str;
  (** [os.chdir(path)] *)
  chdir : str -> W -> outcome unit * W;
  (** [os.path.exists(path)] *)
  path_exists : str -> W -> bool;
  (** [os.path.isdir(path)] *)
  path_isdir : str -> W -> bool;
  (** [with open(path, 'a' if append else 'w', encoding='utf-8') as f:
      f.write(text)] *)
  write_text : bool -> str -> str -> W -> outcome unit * W;
  (** the text of the file at [path], if it can be read *)
  read_text : str -> W -> option str;
  (** [FileCommands.name(args, cwd)], [TextCommands.name(args, cwd)],
      [SystemCommands.name(args, cwd)], [NetworkCommands.name(args, cwd)]:
      the command implementations outside the core *)
  collaborator : str -> list str -> str -> W -> outcome str * W;
  (** [subprocess.run(command_line, shell=True, capture_output=True,
      text=True, cwd=cwd)]: the captured [stdout] and [stderr] *)
  subprocess_run : str -> str -> W -> outcome (str * str) * W
}.

(** What the properties below assume of the host: a variable that was set
    is read back, and a written file holds what was written to it. *)
Class HostLaws (W : Type) `{Host W} : Prop := {
  environ_get_set :
    forall k v w, environ_get k (environ_set k v w) = Some v;
  write_text_truncates :
    forall path text w w',
      write_text false path text w = (Return tt, w') ->
      read_text path w' = Some text;
  write_text_appends :
    forall path text w w',
      write_text true path text w = (Return tt, w') ->
      read_text path w' =
      Some (match read_text path w with Some old => old | None => [] end
            ++ text)
}.

(* ===================================================================== *)
(** * utils/color_output.py *)
(* ===================================================================== *)

Module Fore.
Definition ESC : str := [ascii_of_nat 27].
Definition RED : str := ESC ++ "[31m".
Definition GREEN : str := ESC ++ "[32m".
Definition YELLOW : str := ESC ++ "[33m".
Definition BLUE : str := ESC ++ "[34m".
Definition CYAN : str := ESC ++ "[36m".
Definition WHITE : str := ESC ++ "[37m".
End Fore.

Module Style.
Definition RESET_ALL : str := Fore.ESC ++ "[0m".
End Style.

Module ColorOutput.

(** [ColorOutput.error(message)] *)
Definition error (message : str) : str :=
  Fore.RED ++ "✗ " ++ message ++ Style.RESET_ALL.

(** [ColorOutput.info(message)] *)
Definition info (message : str) : str :=
  Fore.CYAN ++ "ℹ " ++ message ++ Style.RESET_ALL.

End ColorOutput.

(* ===================================================================== *)
(** * utils/path_converter.py *)
(* ===================================================================== *)

Module Re.

Definition LF : ascii := ascii_of_nat 10.

Definition not_newline (c : ascii) : bool := negb (Ascii.eqb c LF).

(** The tail [( .* )$] of a pattern: [.] is any character but the newline and
    [$] is the end of the string or the position before a newline that ends
    it.  The result is the group. *)
Definition dotstar_end (s : str) : option str :=
  if forallb not_newline s then Some s
  else
    match rev s with
    | c :: r => if Ascii.eqb c LF && forallb not_newline r
                then Some (rev r) else None
    | [] => None
    end.

(** The tail [(/ .* )?$] of a pattern; the result is [group or ''] *)
Definition opt_rest_end (s : str) : option str :=
  match s with
  | [] => Some []
  | c :: r =>
      if Ascii.eqb c "/"%char then
        match dotstar_end r with
        | Some g => Some (c :: g)
        | None => None
        end
      else if Ascii.eqb c LF && Py.is_empty r then Some []
      else None
  end.

(** [re.match] of [^/([a-zA-Z])(/ .* )?$] (written here with spaces around
    the star): the groups 1 and [2 or ''] *)
Definition match_slash_drive (s : str) : option (ascii * str) :=
  match s with
  | c0 :: d :: tail =>
      if Ascii.eqb c0 "/"%char && Py.is_alpha d then
        match opt_rest_end tail with
        | Some rest => Some (d, rest)
        | None => None
        end
      else None
  | _ => None
  end.

(** [re.match] of [^/mnt/([a-zA-Z])(/ .* )?$] *)
Definition match_mnt_drive (s : str) : option (ascii * str) :=
  if Py.startswith "/mnt/" s then
    match skipn 5 s with
    | d :: tail =>
        if Py.is_alpha d then
          match opt_rest_end tail with
          | Some rest => Some (d, rest)
          | None => None
          end
        else None
    | [] => None
    end
  else None.

(** [re.match] of [^([a-zA-Z]):\\( .* )$]: the groups 1 and 2 *)
Definition match_drive_colon (s : str) : option (ascii * str) :=
  match s with
  | d :: c1 :: c2 :: tail =>
      if Py.is_alpha d && Ascii.eqb c1 ":"%char && Ascii.eqb c2 "\"%char then
        match dotstar_end tail with
        | Some rest => Some (d, rest)
        | None => None
        end
      else None
  | _ => None
  end.

End Re.

Section PathConverter.

Context {W : Type} `{Host W}.

(** [os.path.expanduser('~')] *)
Definition home (w : W) : str :=
  NtPath.expanduser_tilde (fun k => environ_get k w).

(** [PathConverter.to_windows(linux_path)] *)
Definition to_windows (w : W) (linux_path : str) : str :=
  if Py.is_empty linux_path then getcwd w
  else
    let linux_path :=
      if Py.startswith "~" linux_path
      then Py.replace_first "~"%char (home w) linux_path
      else linux_path in
    let linux_path :=
      match Re.match_slash_drive linux_path with
      | Some (d, rest) => Py.upper_char d :: ":"%char :: rest
      | None => linux_path
      end in
    let linux_path :=
      match Re.match_mnt_drive linux_path with
      | Some (d, rest) => Py.upper_char d :: ":"%char :: rest
      | None => linux_path
      end in
    let windows_path := Py.replace_char "/"%char "\"%char linux_path in
    let windows_path :=
      if negb (NtPath.isabs windows_path)
      then NtPath.join (getcwd w) windows_path
      else windows_path in
    NtPath.normpath windows_path.

(** [PathConverter.to_linux(windows_path)] *)
Definition to_linux (w : W) (windows_path : str) : str :=
  if Py.is_empty windows_path
  then Py.replace_char "\"%char "/"%char (getcwd w)
  else
    let windows_path :=
      match Re.match_drive_colon windows_path with
      | Some (d, rest) => "/"%char :: Py.lower_char d :: "/"%char :: rest
      | None => windows_path
      end in
    Py.replace_char "\"%char "/"%char windows_path.

End PathConverter.

(** the newline, as a string *)
Definition nl : str := [Re.LF].

(* ===================================================================== *)
(** * commands/file_commands.py, commands/system_commands.py *)
(* ===================================================================== *)

Module FileCommands.

(** [stat.S_IRUSR] down to [stat.S_IXOTH], with the letters of [perms]. *)
Definition perms : list (Z * ascii) :=
  [ (256%Z, "r"%char); (128%Z, "w"%char); (64%Z, "x"%char);
    (32%Z, "r"%char); (16%Z, "w"%char); (8%Z, "x"%char);
    (4%Z, "r"%char); (2%Z, "w"%char); (1%Z, "x"%char) ].

(** [FileCommands._format_mode(mode, is_dir)] *)
Definition _format_mode (mode : Z) (is_dir : bool) : str :=
  (if is_dir then "d"%char else "-"%char)
  :: map (fun p : Z * ascii =>
            if Z.eqb (Z.land mode (fst p)) 0 then "-"%char else snd p)
         perms.

Section FileCommands.

Context {W : Type} `{Host W}.

(** The path that [cd] resolves ([new_path] after [os.path.normpath]). *)
Definition cd_target (args : list str) (cwd : str) (w : W) : str :=
  let new_path :=
    match args with
    | [] => home w
    | a0 :: _ =>
        if Py.str_eqb a0 "-" then
          match environ_get "OLDPWD" w with
          | Some oldpwd => oldpwd
          | None => cwd
          end
        else
          let new_path := to_windows w a0 in
          if negb (NtPath.isabs new_path) then NtPath.join cwd new_path
          else new_path
    end in
  NtPath.normpath new_path.

(** [FileCommands.cd(args, cwd)]: returns [(new_cwd, output_message)].
    [args[0]] on an empty list raises [IndexError]. *)
Definition cd (args : list str) (cwd : str) (w : W)
  : outcome (str * str) * W :=
  let new_path := cd_target args cwd w in
  if negb (path_exists new_path w) then
    (Return (cwd,
             ColorOutput.error
               ("cd: " ++ match args with a0 :: _ => a0 | [] => "~" end
                ++ ": No such file or directory")), w)
  else if negb (path_isdir new_path w) then
    match args with
    | a0 :: _ =>
        (Return (cwd, ColorOutput.error ("cd: " ++ a0 ++ ": Not a directory")),
         w)
    | [] => (Raise (Exception "list index out of range"), w)
    end
  else (Return (new_path, []), environ_set "OLDPWD" cwd w).

(** [FileCommands.pwd(args, cwd)] *)
Definition pwd (args : list str) (cwd : str) (w : W) : str := to_linux w cwd.

End FileCommands.
End FileCommands.

Module SystemCommands.

(** The loop of [echo] over [os.environ.items()]. *)
Definition expand_variables (environ : Py.dict) (text : str) : str :=
  fold_left
    (fun text item =>
       let text := Py.replace ("$" ++ fst item) (snd item) text in
       Py.replace ("${" ++ fst item ++ "}") (snd item) text)
    environ text.

(** [SystemCommands.echo(args, cwd)], with the items of [os.environ]. *)
Definition echo (environ : Py.dict) (args : list str) (cwd : str) : str :=
  let no_newline := existsb (Py.str_eqb "-n") args in
  let args := filter (fun a => negb (Py.str_eqb a "-n")) args in
  let text := Py.join " " args in
  let text := Py.replace "\n" nl text in
  let text := Py.replace "\t" [ascii_of_nat 9] text in
  let text := Py.replace "\\" "\" text in
  let text := expand_variables environ text in
  if no_newline then text else text.

(** [enumerate(l, start)] *)
Definition enumerate {A : Type} (l : list A) (start : nat) : list (nat * A) :=
  combine (seq start (length l)) l.

(** one line of the listing *)
Definition history_line (entry : nat * str) : str :=
  " " ++ Py.format_4d (fst entry) ++ "  " ++ snd entry.

(** the [count] that [history] reads from its arguments *)
Definition history_count (args : list str) : Z :=
  match args with
  | a0 :: _ => match Py.int a0 with Some c => c | None => 10%Z end
  | [] => 10%Z
  end.

(** [SystemCommands.history(args, cwd, command_history)] *)
Definition history (args : list str) (cwd : str) (command_history : list str)
  : str :=
  let count := history_count args in
  let start :=
    Z.to_nat (Z.max 0 (Z.of_nat (length command_history) - count)) in
  Py.join nl
    (map history_line (enumerate (skipn start command_history) (start + 1))).

Definition alias_line (item : str * str) : str :=
  "alias " ++ fst item ++ "='" ++ snd item ++ "'".

(** the loop of [alias] over its arguments; [inl] is an early [return] *)
Fixpoint alias_loop (args : list str) (aliases : Py.dict)
  : (str + unit) * Py.dict :=
  match args with
  | [] => (inr tt, aliases)
  | arg :: args' =>
      if Py.contains "=" arg then
        match Py.split1 "="%char arg with
        | [name; value] =>
            let value := Py.strip_chars ["'"%char; Py.dquote] value in
            alias_loop args' (Py.dict_set name value aliases)
        | _ => alias_loop args' aliases
        end
      else
        match Py.dict_get arg aliases with
        | Some v => (inl (alias_line (arg, v)), aliases)
        | None => alias_loop args' aliases
        end
  end.

(** [SystemCommands.alias(args, cwd, aliases)]: the text returned and the
    alias table, which the call updates in place. *)
Definition alias (args : list str) (cwd : str) (aliases : Py.dict)
  : str * Py.dict :=
  match args with
  | [] => (Py.join nl (map alias_line aliases), aliases)
  | _ =>
      match alias_loop args aliases with
      | (inl text, aliases') => (text, aliases')
      | (inr _, aliases') => ([], aliases')
      end
  end.

(** [SystemCommands.unalias(args, cwd, aliases)] *)
Definition unalias (args : list str) (cwd : str) (aliases : Py.dict)
  : str * Py.dict :=
  ([], fold_left (fun d arg => if Py.dict_mem arg d then Py.dict_del arg d else d)
                 args aliases).

End SystemCommands.

(* ===================================================================== *)
(** * terminal_core.py *)
(* ===================================================================== *)

Section LinuxTerminal.

Context {W : Type} `{Host W}.

(** The fields of a [LinuxTerminal] that are read after [__init__], and the
    world it runs in. *)
Record Terminal : Type := {
  cwd : str;
  history : list str;
  aliases : Py.dict;
  running : bool;
  world : W
}.

Definition set_cwd (v : str) (t : Terminal) : Terminal :=
  {| cwd := v; history := history t; aliases := aliases t;
     running := running t; world := world t |}.

Definition set_history (v : list str) (t : Terminal) : Terminal :=
  {| cwd := cwd t; history := v; aliases := aliases t;
     running := running t; world := world t |}.

Definition set_aliases (v : Py.dict) (t : Terminal) : Terminal :=
  {| cwd := cwd t; history := history t; aliases := v;
     running := running t; world := world t |}.

Definition set_running (v : bool) (t : Terminal) : Terminal :=
  {| cwd := cwd t; history := history t; aliases := aliases t;
     running := v; world := world t |}.

Definition set_world (v : W) (t : Terminal) : Terminal :=
  {| cwd := cwd t; history := history t; aliases := aliases t;
     running := running t; world := v |}.

Definition default_aliases : Py.dict :=
  [ ("ll" : str, "ls -la" : str);
    ("la" : str, "ls -a" : str);
    ("l" : str, "ls -CF" : str);
    (".." : str, "cd .." : str);
    ("..." : str, "cd ../.." : str);
    ("cls" : str, "clear" : str);
    ("md" : str, "mkdir" : str);
    ("rd" : str, "rmdir" : str);
    ("del" : str, "rm" : str);
    ("copy" : str, "cp" : str);
    ("move" : str, "mv" : str);
    ("type" : str, "cat" : str);
    ("dir" : str, "ls -la" : str) ].

(** [LinuxTerminal.__init__] *)
Definition init (w : W) : Terminal :=
  {| cwd := getcwd w; history := []; aliases := default_aliases;
     running := true; world := w |}.

(** A registered command: [self.commands[cmd](args)], acting on the
    terminal. *)
Definition handler : Type := list str -> Terminal -> outcome str * Terminal.

(** [lambda args: Module.name(args, self.cwd)] *)
Definition call (name : str) : handler :=
  fun args t =>
    let '(r, w) := collaborator name args (cwd t) (world t) in
    (r, set_world w t).

(** [LinuxTerminal._cd] *)
Definition _cd : handler :=
  fun args t =>
    match FileCommands.cd args (cwd t) (world t) with
    | (Return (new_cwd, output), w1) =>
        let t1 := set_cwd new_cwd (set_world w1 t) in
        match chdir new_cwd w1 with
        | (Return _, w2) => (Return output, set_world w2 t1)
        | (Raise e, w2) => (Raise e, set_world w2 t1)
        end
    | (Raise e, w1) => (Raise e, set_world w1 t)
    end.

(** [LinuxTerminal._exit] *)
Definition _exit : handler :=
  fun args t => (Return (ColorOutput.info "Goodbye!"), set_running false t).

Definition help_text : Py.dict :=
  [ ("ls" : str,
     ("ls [OPTIONS] [FILE]... - List directory contents" ++ nl
      ++ "  -l  long format" ++ nl ++ "  -a  show hidden" ++ nl
      ++ "  -h  human readable sizes") : str);
    ("cd" : str,
     ("cd [DIR] - Change directory" ++ nl ++ "  cd ~  home directory" ++ nl
      ++ "  cd -  previous directory") : str);
    ("grep" : str,
     ("grep [OPTIONS] PATTERN [FILE]... - Search for patterns" ++ nl
      ++ "  -i  ignore case" ++ nl ++ "  -r  recursive" ++ nl
      ++ "  -n  line numbers") : str);
    ("find" : str,
     ("find [PATH] [OPTIONS] - Search for files" ++ nl
      ++ "  -name PATTERN  filename pattern" ++ nl
      ++ "  -type f|d  file or directory") : str) ].

Definition help_banner : list str :=
  [ (Fore.CYAN ++ "╔══════════════════════════════════════════════════════════════╗" : str);
    ("║           " ++ Fore.YELLOW ++ "Linux Terminal for Windows - Help" ++ Fore.CYAN ++ "                 ║" : str);
    ("╠══════════════════════════════════════════════════════════════╣" : str);
    ("║ " ++ Fore.GREEN ++ "File Commands:" ++ Fore.CYAN ++ "                                                ║" : str);
    ("║   ls, cd, pwd, mkdir, rmdir, rm, cp, mv, touch, find, ln    ║" : str);
    ("║                                                              ║" : str);
    ("║ " ++ Fore.GREEN ++ "Text Commands:" ++ Fore.CYAN ++ "                                                ║" : str);
    ("║   cat, head, tail, grep, wc, sort, uniq, cut, sed, awk,diff ║" : str);
    ("║                                                              ║" : str);
    ("║ " ++ Fore.GREEN ++ "System Commands:" ++ Fore.CYAN ++ "                                              ║" : str);
    ("║   clear, echo, date, whoami, hostname, uname, uptime        ║" : str);
    ("║   ps, top, kill, df, du, free, env, export, which, history  ║" : str);
    ("║                                                              ║" : str);
    ("║ " ++ Fore.GREEN ++ "Network Commands:" ++ Fore.CYAN ++ "                                             ║" : str);
    ("║   ping, curl, wget, ifconfig, ip, netstat, ssh, scp         ║" : str);
    ("║                                                              ║" : str);
    ("║ " ++ Fore.YELLOW ++ "Type 'help <command>' for detailed help" ++ Fore.CYAN ++ "                      ║" : str);
    ("║ " ++ Fore.YELLOW ++ "Use 'exit' or 'quit' to close the terminal" ++ Fore.CYAN ++ "                   ║" : str);
    ("╚══════════════════════════════════════════════════════════════╝" ++ Style.RESET_ALL : str) ].

(** [LinuxTerminal._help] *)
Definition _help : handler :=
  fun args t =>
    match args with
    | cmd :: _ =>
        (Return match Py.dict_get cmd help_text with
                | Some text => text
                | None => "No help available for '" ++ cmd ++ "'"
                end, t)
    | [] => (Return (Py.join nl help_banner), t)
    end.

(** [LinuxTerminal.get_prompt] *)
Definition get_prompt (t : Terminal) : str :=
  let user :=
    match environ_get "USERNAME" (world t) with
    | Some u => u
    | None =>
        match environ_get "USER" (world t) with
        | Some u => u
        | None => "user"
        end
    end in
  let host :=
    match environ_get "COMPUTERNAME" (world t) with
    | Some h => h
    | None => "localhost"
    end in
  let path := to_linux (world t) (cwd t) in
  let home := to_linux (world t) (home (world t)) in
  let path :=
    if Py.startswith home path then "~" ++ skipn (length home) path
    else path in
  Fore.GREEN ++ user ++ "@" ++ host ++ Style.RESET_ALL ++ ":"
  ++ Fore.BLUE ++ path ++ Style.RESET_ALL ++ "$ ".

(** The commands of the registry that are plain calls of a collaborator with
    [(args, self.cwd)], under the name they are registered with. *)
Definition collaborators : list str :=
  [ "ls" : str; "pwd" : str; "mkdir" : str; "rmdir" : str; "rm" : str;
    "cp" : str; "mv" : str; "touch" : str; "chmod" : str; "ln" : str;
    "find" : str;
    "cat" : str; "head" : str; "tail" : str; "grep" : str; "wc" : str;
    "sort" : str; "uniq" : str; "cut" : str; "tr" : str; "sed" : str;
    "awk" : str; "diff" : str;
    "clear" : str; "echo" : str; "date" : str; "whoami" : str;
    "hostname" : str; "uname" : str; "uptime" : str; "ps" : str; "top" : str;
    "kill" : str; "df" : str; "du" : str; "free" : str; "env" : str;
    "export" : str; "unset" : str; "which" : str;
    "ping" : str; "curl" : str; "wget" : str; "ifconfig" : str; "ip" : str;
    "netstat" : str; "ssh" : str; "scp" : str; "nslookup" : str;
    "host" : str ].

(** [self.commands.get(cmd)]: the command registry. *)
Definition commands (cmd : str) : option handler :=
  if existsb (Py.str_eqb cmd) collaborators then Some (call cmd)
  else if Py.str_eqb cmd "dir" then
    Some (fun args t => call "ls" (("-la" : str) :: args) t)
  else if Py.str_eqb cmd "cd" then Some _cd
  else if Py.str_eqb cmd "history" then
    Some (fun args t =>
            (Return (SystemCommands.history args (cwd t) (history t)), t))
  else if Py.str_eqb cmd "alias" then
    Some (fun args t =>
            let '(text, d) := SystemCommands.alias args (cwd t) (aliases t) in
            (Return text, set_aliases d t))
  else if Py.str_eqb cmd "unalias" then
    Some (fun args t =>
            let '(text, d) := SystemCommands.unalias args (cwd t) (aliases t) in
            (Return text, set_aliases d t))
  else if Py.str_eqb cmd "exit" || Py.str_eqb cmd "quit" then Some _exit
  else if Py.str_eqb cmd "help" || Py.str_eqb cmd "man" then Some _help
  else None.

(** The alias pass of [parse_command] (the lines under [# Handle aliases]):
    the command line that is tokenised. *)
Definition expand_alias (aliases : Py.dict) (command_line : str) : str :=
  match Py.split_ws1 (Py.strip command_line) with
  | part0 :: rest =>
      match Py.dict_get part0 aliases with
      | Some alias_expanded =>
          match rest with
          | part1 :: _ => alias_expanded ++ " " ++ part1
          | [] => alias_expanded
          end
      | None => command_line
      end
  | [] => command_line
  end.

(** The tokenisation of [parse_command]: [shlex.split], or on [ValueError]
    the plain [split()], then the first token and the others. *)
Definition tokenize (command_line : str) : str * list str :=
  let tokens :=
    match Shlex.split command_line with
    | Some tokens => tokens
    | None => Py.split_ws command_line
    end in
  match tokens with
  | [] => ([], [])
  | cmd :: args => (cmd, args)
  end.

(** [LinuxTerminal.parse_command] *)
Definition parse_command (aliases : Py.dict) (command_line : str)
  : str * list str :=
  if Py.is_empty (Py.strip command_line) then ([], [])
  else tokenize (expand_alias aliases command_line).

(** [LinuxTerminal._execute_external] *)
Definition _execute_external (command_line : str) (t : Terminal)
  : outcome str * Terminal :=
  match subprocess_run command_line (cwd t) (world t) with
  | (Return (stdout, stderr), w) =>
      (Return (Py.rstrip (stdout ++ stderr)), set_world w t)
  | (Raise (Exception e), w) =>
      (Return (ColorOutput.error ("Command failed: " ++ e)), set_world w t)
  | (Raise e, w) => (Raise e, set_world w t)
  end.

(** [execute] calls [_handle_pipe] and [_handle_redirect], which call
    [execute] again.  The calls are counted: [None] is a call that was not
    reached within the count, and [exec] below is [execute] with one call
    less. *)
Definition result : Type := option (outcome str * Terminal).

(** The loop of [_handle_pipe]. *)
Fixpoint pipe_loop (exec : str -> Terminal -> result)
    (commands : list str) (output : str) (t : Terminal) : result :=
  match commands with
  | [] => Some (Return output, t)
  | cmd :: commands' =>
      let cmd := Py.strip cmd in
      let r :=
        if negb (Py.is_empty output) then
          let '(cmd_name, args) := parse_command (aliases t) cmd in
          exec cmd t
        else exec cmd t in
      match r with
      | Some (Return output', t') => pipe_loop exec commands' output' t'
      | Some (Raise e, t') => Some (Raise e, t')
      | None => None
      end
  end.

(** [LinuxTerminal._handle_pipe] *)
Definition _handle_pipe (exec : str -> Terminal -> result)
    (command_line : str) (t : Terminal) : result :=
  pipe_loop exec (Py.split "|" command_line) [] t.

(** The path that [_handle_redirect] opens. *)
Definition redirect_path (filepath : str) (t : Terminal) : str :=
  let full_path := to_windows (world t) filepath in
  if negb (NtPath.isabs full_path) then NtPath.join (cwd t) full_path
  else full_path.

(** [LinuxTerminal._handle_redirect] *)
Definition _handle_redirect (exec : str -> Terminal -> result)
    (command_line : str) (t : Terminal) : result :=
  let append_mode := Py.contains ">>" command_line in
  let parts :=
    if append_mode then Py.split ">>" command_line
    else Py.split ">" command_line in
  match parts with
  | [part0; part1] =>
      let cmd := Py.strip part0 in
      let filepath := Py.strip part1 in
      match exec cmd t with
      | Some (Return output, t') =>
          match write_text append_mode (redirect_path filepath t')
                  (output ++ nl) (world t') with
          | (Return _, w) => Some (Return [], set_world w t')
          | (Raise (Exception e), w) =>
              Some (Return (ColorOutput.error ("Redirect failed: " ++ e)),
                    set_world w t')
          | (Raise e, w) => Some (Raise e, set_world w t')
          end
      | Some (Raise e, t') => Some (Raise e, t')
      | None => None
      end
  | _ => Some (Return (ColorOutput.error "Invalid redirection syntax"), t)
  end.

(** The last part of [execute]: parse, look up in the registry, invoke. *)
Definition dispatch (command_line : str) (t : Terminal)
  : outcome str * Terminal :=
  let '(cmd, args) := parse_command (aliases t) command_line in
  match commands cmd with
  | Some h =>
      match h args t with
      | (Raise (Exception e), t') =>
          (Return (ColorOutput.error (cmd ++ ": " ++ e)), t')
      | r => r
      end
  | None => _execute_external command_line t
  end.

(** [self.history.append(command_line)] *)
Definition history_append (command_line : str) (t : Terminal) : Terminal :=
  set_history (history t ++ [command_line]) t.

(** [LinuxTerminal.execute]; [exec] stands for the calls of [execute] made
    by [_handle_pipe] and [_handle_redirect]. *)
Definition execute_body (exec : str -> Terminal -> result)
    (command_line : str) (t : Terminal) : result :=
  let command_line := Py.strip command_line in
  if Py.is_empty command_line || Py.startswith "#" command_line
  then Some (Return [], t)
  else
    let t := history_append command_line t in
    if Py.contains "|" command_line
    then _handle_pipe exec command_line t
    else if Py.contains ">" command_line || Py.contains ">>" command_line
    then _handle_redirect exec command_line t
    else Some (dispatch command_line t).

(** [execute] with at most [fuel] nested calls. *)
Fixpoint execute_fuel (fuel : nat) : str -> Terminal -> result :=
  match fuel with
  | O => fun _ _ => None
  | S fuel' => execute_body (execute_fuel fuel')
  end.

(** Four nested calls are the most a line can ask for (a pipe, an appending
    redirection, a truncating redirection, a plain command; see
    [execute_fuel_enough] and [execute_unfold]). *)
Definition execute (command_line : str) (t : Terminal)
  : outcome str * Terminal :=
  match execute_fuel 4 command_line t with
  | Some r => r
  | None => (Return [], t)
  end.

(** The console that [run] talks to.  [print(text)] writes to it and can
    fail (a console that cannot encode a character of the text raises
    [UnicodeEncodeError]).  [is_interrupt] and [is_eof] tell of what was
    raised whether it is a [KeyboardInterrupt], an [EOFError]. *)
Record console : Type := {
  print : str -> W -> outcome unit * W;
  is_interrupt : str -> bool;
  is_eof : str -> bool
}.

(** One call [input(prompt)], a black box: the line that is typed, or what
    the call raises.  The calls to come are a list; the call after the last
    one finds the end of the input and raises [EOFError]. *)
Definition key : Type := str -> W -> outcome str * W.

(** The four lines and the empty line printed when [run] starts. *)
Definition banner : list str :=
  [
    (Fore.CYAN ++ "╔══════════════════════════════════════════════════════════════╗" : str);
    ("║      " ++ Fore.YELLOW ++ "Linux Terminal for Windows v1.0" ++ Fore.CYAN ++ "                        ║" : str);
    ("║      " ++ Fore.WHITE ++ "Type 'help' for available commands" ++ Fore.CYAN ++ "                     ║" : str);
    ("╚══════════════════════════════════════════════════════════════╝" ++ Style.RESET_ALL : str);
    ([] : str) ].

(** [print(text)] in [run], on the world of the session *)
Definition say (c : console) (text : str) (t : Terminal)
  : outcome unit * Terminal :=
  let '(r, w) := print c text (world t) in (r, set_world w t).

(** [except KeyboardInterrupt: print("\n^C")] *)
Definition except_KeyboardInterrupt (c : console) (t : Terminal)
  : outcome unit * Terminal :=
  say c (nl ++ "^C") t.

(** [except EOFError: print(); self._exit([])] *)
Definition except_EOFError (c : console) (t : Terminal)
  : outcome unit * Terminal :=
  match say c [] t with
  | (Return _, t') => (Return tt, snd (_exit [] t'))
  | (Raise e, t') => (Raise e, t')
  end.

(** [except Exception as e: print(ColorOutput.error(f"Error: {e}"))] *)
Definition except_Exception (c : console) (e : str) (t : Terminal)
  : outcome unit * Terminal :=
  say c (ColorOutput.error ("Error: " ++ e)) t.

(** The [except] clauses of the loop, in their order, for what the body of
    the [try] raised.  What no clause catches leaves [run], and so does
    what a clause raises itself. *)
Definition rescue (c : console) (e : exn) (t : Terminal)
  : outcome unit * Terminal :=
  match e with
  | BaseException m =>
      if is_interrupt c m then except_KeyboardInterrupt c t
      else (Raise e, t)
  | Exception m =>
      if is_eof c m then except_EOFError c t else except_Exception c m t
  end.

(** The body of the [try]: [input(self.get_prompt())], [self.execute],
    and [print(output)] when there is output. *)
Definition try_body (c : console) (k : key) (t : Terminal)
  : outcome unit * Terminal :=
  match k (get_prompt t) (world t) with
  | (Return command, w) =>
      match execute command (set_world w t) with
      | (Return output, t') =>
          if Py.is_empty output then (Return tt, t') else say c output t'
      | (Raise e, t') => (Raise e, t')
      end
  | (Raise e, w) => (Raise e, set_world w t)
  end.

(** One round of the loop: the [try] statement. *)
Definition turn (c : console) (k : key) (t : Terminal)
  : outcome unit * Terminal :=
  match try_body c k t with
  | (Return _, t') => (Return tt, t')
  | (Raise e, t') => rescue c e t'
  end.

(** The [while self.running] loop of [run] over the calls of [input] to
    come.  At the end of the input [input] raises [EOFError], whose clause
    stops the session when its [print()] succeeds.  The result is how the
    loop ends, normally or by what was raised, and the session then. *)
Fixpoint run_loop (c : console) (keys : list key) (t : Terminal)
  : outcome unit * Terminal :=
  if negb (running t) then (Return tt, t)
  else
    match keys with
    | [] => except_EOFError c t
    | k :: keys' =>
        match turn c k t with
        | (Return _, t') => run_loop c keys' t'
        | (Raise e, t') => (Raise e, t')
        end
    end.

(** The calls of [print] before the loop, which no [try] guards. *)
Fixpoint say_all (c : console) (lines : list str) (t : Terminal)
  : outcome unit * Terminal :=
  match lines with
  | [] => (Return tt, t)
  | line :: lines' =>
      match say c line t with
      | (Return _, t') => say_all c lines' t'
      | (Raise e, t') => (Raise e, t')
      end
  end.

(** [LinuxTerminal.run].  (The import of [readline] between the banner and
    the loop changes nothing that is modelled.) *)
Definition run (c : console) (keys : list key) (t : Terminal)
  : outcome unit * Terminal :=
  match say_all c banner t with
  | (Return _, t') => run_loop c keys t'
  | (Raise e, t') => (Raise e, t')
  end.

End LinuxTerminal.

Arguments Terminal W : clear implicits.
Arguments handler W : clear implicits.
Arguments result W : clear implicits.
Arguments console W : clear implicits.
Arguments key W : clear implicits.

(* ===================================================================== *)
(** * A concrete host *)
(* ===================================================================== *)

(** A small world on which the program can be run: an environment, a
    process working directory, a set of directories and a table of text
    files.  Of the collaborators, [echo] returns its arguments joined by
    spaces, [pwd] returns the directory it is given, [kill] raises and the
    others return nothing. *)

Module Demo.

Record machine : Type := {
  env : Py.dict;
  pwd : str;
  dirs : list str;
  files : Py.dict
}.

Definition is_dir (path : str) (w : machine) : bool :=
  existsb (Py.str_eqb path) (dirs w).

Definition with_env (v : Py.dict) (w : machine) : machine :=
  {| env := v; pwd := pwd w; dirs := dirs w; files := files w |}.

Definition with_pwd (v : str) (w : machine) : machine :=
  {| env := env w; pwd := v; dirs := dirs w; files := files w |}.

Definition with_files (v : Py.dict) (w : machine) : machine :=
  {| env := env w; pwd := pwd w; dirs := dirs w; files := v |}.

Definition demo_chdir (path : str) (w : machine) : outcome unit * machine :=
  if is_dir path w then (Return tt, with_pwd path w)
  else (Raise (Exception "[WinError 2] The system cannot find the file specified"), w).

Definition demo_write (append : bool) (path text : str) (w : machine)
  : outcome unit * machine :=
  if is_dir path w then (Raise (Exception "[Errno 13] Permission denied"), w)
  else
    let old :=
      if append
      then match Py.dict_get path (files w) with Some o => o | None => [] end
      else [] in
    (Return tt, with_files (Py.dict_set path (old ++ text) (files w)) w).

Definition demo_collaborator (name : str) (args : list str) (cwd : str)
    (w : machine) : outcome str * machine :=
  if Py.str_eqb name "echo" then (Return (Py.join " " args), w)
  else if Py.str_eqb name "pwd" then (Return cwd, w)
  else if Py.str_eqb name "kill" then (Raise (Exception "no such process"), w)
  else (Return [], w).

#[export] Instance demo_host : Host machine := {
  environ_get k w := Py.dict_get k (env w);
  environ_set k v w := with_env (Py.dict_set k v (env w)) w;
  getcwd w := pwd w;
  chdir := demo_chdir;
  path_exists path w := is_dir path w || Py.dict_mem path (files w);
  path_isdir := is_dir;
  write_text := demo_write;
  read_text path w := Py.dict_get path (files w);
  collaborator := demo_collaborator;
  subprocess_run command_line cwd w := (Return ([], []), w)
}.

(** A machine with a user directory and one text file in it. *)
Definition pc : machine :=
  {| env := [("USERPROFILE" : str, "C:\Users\me" : str)];
     pwd := "C:\Users\me";
     dirs := ["C:\" : str; "C:\Users" : str; "C:\Users\me" : str;
              "C:\Users\me\work" : str];
     files := [("C:\Users\me\notes.txt" : str, "hello" ++ nl : str)] |}.

(** The same machine with the user profile variable naming the text file. *)
Definition pc_home_is_file : machine :=
  with_env [("USERPROFILE" : str, "C:\Users\me\notes.txt" : str)] pc.

(** A console that shows every text, and one that cannot encode the
    characters outside ASCII. *)
Definition utf8_console : console machine :=
  {| print := fun _ w => (Return tt, w);
     is_interrupt := Py.str_eqb "KeyboardInterrupt";
     is_eof := Py.str_eqb "EOFError" |}.

Definition ascii_console : console machine :=
  {| print := fun text w =>
       if forallb (fun ch => nat_of_ascii ch <? 128) text
       then (Return tt, w)
       else (Raise (Exception "'charmap' codec can't encode characters"), w);
     is_interrupt := Py.str_eqb "KeyboardInterrupt";
     is_eof := Py.str_eqb "EOFError" |}.

(** A call of [input] at which a line is typed, and one at which the user
    interrupts. *)
Definition typed (text : str) : key machine := fun _ w => (Return text, w).

Definition ctrl_c : key machine :=
  fun _ w => (Raise (BaseException "KeyboardInterrupt"), w).

(** A session with the alias [save] for a redirection. *)
Definition with_save : Terminal machine :=
  set_aliases [("save" : str, "echo hi > out.txt" : str)] (init pc).

(** An alias table in which a replacement starts with another alias. *)
Definition chained : Py.dict :=
  [("a" : str, "b x" : str); ("b" : str, "c" : str)].

End Demo.

(* ===================================================================== *)
(** * Notions used to state the properties *)
(* ===================================================================== *)

(** [x] occurs in [s] as a block of consecutive characters. *)
Definition segment (x s : str) : Prop := exists a b, s = a ++ x ++ b.

(** How many further calls of [execute] a stripped line can cause. *)
Definition depth (command_line : str) : nat :=
  if Py.contains "|" command_line then 3
  else if Py.contains ">>" command_line then 2
  else if Py.contains ">" command_line then 1
  else 0.

(** A line that [execute] records and runs: not blank, not a comment. *)
Definition runs (command_line : str) : Prop :=
  Py.is_empty (Py.strip command_line)
  || Py.startswith "#" (Py.strip command_line) = false.

(** A component of a path that normalisation leaves alone. *)
Definition normal_component (c : str) : Prop :=
  c <> [] /\ c <> "." /\ c <> ".."
  /\ forallb (fun x => negb (NtPath.is_sep x)) c = true.

(** The components of the rest of a path below a drive root, as [normpath]
    leaves them. *)
Definition root_components (rest : str) : list str :=
  NtPath.norm_comps true []
    (Py.split [NtPath.sep]
       (NtPath.lstrip_sep (Py.replace_char "/"%char "\"%char rest))).

(** A word: not empty, no white space in it. *)
Definition word (s : str) : Prop :=
  s <> [] /\ forallb (fun c => negb (Py.isspace c)) s = true.

Section Notions.

Context {W : Type} `{Host W}.

(** From [k] calls on, the count of calls no longer matters. *)
Definition settled (k : nat) (line : str) : Prop :=
  forall t : Terminal W, exists r,
    forall k', k <= k' -> execute_fuel k' line t = Some r.

(** [execute] as the callee of [_handle_pipe] and [_handle_redirect]. *)
Definition execute_call : str -> Terminal W -> result W :=
  fun line t => Some (execute line t).

(** The parts that [_handle_redirect] splits a line into. *)
Definition redirect_parts (command_line : str) : list str :=
  if Py.contains ">>" command_line then Py.split ">>" command_line
  else Py.split ">" command_line.


(** Run the segments one after the other in the same session, each on its
    own text only, and keep what the last one gives; a segment that raises
    ends the run. *)
Fixpoint run_last (exec : str -> Terminal W -> outcome str * Terminal W)
    (segments : list str) (t : Terminal W) : outcome str * Terminal W :=
  match segments with
  | [] => (Return [], t)
  | s :: rest =>
      match rest with
      | [] => exec s t
      | _ :: _ =>
          match exec s t with
          | (Return _, t') => run_last exec rest t'
          | (Raise e, t') => (Raise e, t')
          end
      end
  end.

End Notions.

(** The last [k] entries of a list. *)
Definition last_entries {A : Type} (k : nat) (l : list A) : list A :=
  skipn (length l - k) l.

(** The listing of the entries [l], numbered from [first] upwards. *)
Definition numbered_from (first : nat) (l : list str) : str :=
  Py.join nl
    (map SystemCommands.history_line (combine (seq first (length l)) l)).

(** A character of a line that needs no quoting rules: no quote, no
    backslash, and white space for [split()] exactly when it is white space
    for [shlex]. *)
Definition unquoted (c : ascii) : bool :=
  negb (Shlex.quotes c) && negb (Shlex.escape c)
  && Bool.eqb (Py.isspace c) (Shlex.whitespace c).

(** A character that [shlex] reads as itself inside a word. *)
Definition bare (c : ascii) : bool :=
  negb (Shlex.whitespace c) && negb (Shlex.quotes c) && negb (Shlex.escape c).

(** The words of [tok ++ s], where [tok] is the beginning of a word that
    was already read. *)
Definition glue (tok : str) (s : str) : list str :=
  match s with
  | [] => [tok]
  | c :: s' =>
      if Py.isspace c then tok :: Py.split_ws s'
      else match Py.split_ws s with
           | w :: ws => (tok ++ w) :: ws
           | [] => [tok]
           end
  end.

(** The quote characters that [alias] strips from a value. *)
Definition alias_quotes : str := ["'"%char; Py.dquote].

(** A character of an alias name that can be typed in [alias name='value']:
    read as itself by [shlex], and none of [=], [|] and [>]. *)
Definition name_char (c : ascii) : bool :=
  bare c && negb (Py.in_chars c "=|>").

(** A character of an alias value that can be typed between single quotes
    on a line that [execute] does not route: none of ['], [|] and [>]. *)
Definition value_char (c : ascii) : bool := negb (Py.in_chars c "'|>").

(** A character other than the forward slash. *)
Definition no_slash (c : ascii) : bool := negb (Ascii.eqb c "/").


(* ===================================================================== *)
(** * Facts about the primitives *)
(* ===================================================================== *)

Module PyFacts.
Import Py.

Lemma str_eqb_eq (a b : str) : str_eqb a b = true <-> a = b.
Proof.
  revert b; induction a as [|x a IH]; intros [|y b]; simpl;
    try (split; [discriminate | congruence]); try tauto.
  rewrite andb_true_iff, Ascii.eqb_eq, IH.
  split; [intros [-> ->]; reflexivity | intros E; inversion E; auto].
Qed.

Lemma str_eqb_refl (a : str) : str_eqb a a = true.
Proof. apply str_eqb_eq; reflexivity. Qed.

Lemma str_eqb_neq (a b : str) : str_eqb a b = false <-> a <> b.
Proof.
  rewrite <- str_eqb_eq. destruct (str_eqb a b); split; congruence.
Qed.

Lemma dict_get_set_eq (k v : str) (d : dict) :
  dict_get k (dict_set k v d) = Some v.
Proof.
  induction d as [|[k' v'] d IH]; simpl.
  - now rewrite str_eqb_refl.
  - destruct (str_eqb k k') eqn:E; simpl; rewrite ?str_eqb_refl, ?E; auto.
Qed.

(** ** Prefixes and substrings *)

Lemma startswith_iff (p s : str) :
  startswith p s = true <-> exists b, s = p ++ b.
Proof.
  revert s; induction p as [|x p IH]; intros s; simpl.
  - split; eauto.
  - destruct s as [|y s].
    + split; [discriminate | intros [b E]; discriminate].
    + rewrite andb_true_iff, Ascii.eqb_eq, IH. split.
      * intros [-> [b ->]]; eauto.
      * intros [b E]; inversion E; eauto.
Qed.

Lemma contains_iff (sub s : str) :
  contains sub s = true <-> exists a b, s = a ++ sub ++ b.
Proof.
  induction s as [|c s IH]; simpl.
  - rewrite orb_false_r, startswith_iff. split.
    + intros [b E]; exists [], b; exact E.
    + intros [a [b E]]. destruct a; simpl in E; [eauto | discriminate].
  - rewrite orb_true_iff, startswith_iff, IH. split.
    + intros [[b E] | [a [b E]]].
      * exists [], b; exact E.
      * exists (c :: a), b; simpl; congruence.
    + intros [[|x a] [b E]]; simpl in E.
      * left; eauto.
      * right; inversion E; eauto.
Qed.

Lemma segment_refl (s : str) : segment s s.
Proof. exists [], []; simpl; now rewrite app_nil_r. Qed.

Lemma segment_trans (x y z : str) : segment x y -> segment y z -> segment x z.
Proof.
  intros [a [b ->]] [a' [b' ->]]. exists (a' ++ a), (b ++ b').
  now rewrite !app_assoc.
Qed.

Lemma segment_prefix (x b : str) : segment x (x ++ b).
Proof. exists [], b; reflexivity. Qed.

Lemma segment_suffix (a x : str) : segment x (a ++ x).
Proof. exists a, []; now rewrite app_nil_r. Qed.

Lemma contains_segment (sub x s : str) :
  segment x s -> contains sub x = true -> contains sub s = true.
Proof.
  rewrite !contains_iff. intros Hx Hs. exact (segment_trans _ _ _ Hs Hx).
Qed.

Lemma not_contains_segment (sub x s : str) :
  segment x s -> contains sub s = false -> contains sub x = false.
Proof.
  intros Hx Hs. destruct (contains sub x) eqn:E; auto.
  rewrite (contains_segment _ _ _ Hx E) in Hs; discriminate.
Qed.

Lemma contains_app_l (a b s : str) :
  contains (a ++ b) s = true -> contains a s = true.
Proof.
  rewrite !contains_iff. intros [u [v ->]]. exists u, (b ++ v).
  now rewrite <- app_assoc.
Qed.

(** ** Stripping *)

Lemma lstrip_suffix (s : str) : exists a, s = a ++ lstrip s.
Proof.
  induction s as [|c s [a IH]]; simpl.
  - exists []; reflexivity.
  - destruct (isspace c).
    + exists (c :: a); simpl; congruence.
    + exists []; reflexivity.
Qed.

Lemma rstrip_prefix (s : str) : exists b, s = rstrip s ++ b.
Proof.
  induction s as [|c s [b IH]]; simpl.
  - exists []; reflexivity.
  - destruct (rstrip s) as [|x r] eqn:E.
    + destruct (isspace c).
      * exists (c :: s); reflexivity.
      * exists s; reflexivity.
    + exists b; simpl in *; congruence.
Qed.

Lemma strip_segment (s : str) : segment (strip s) s.
Proof.
  unfold strip. destruct (lstrip_suffix s) as [a Ha].
  destruct (rstrip_prefix (lstrip s)) as [b Hb].
  exists a, b. now rewrite <- Hb.
Qed.

Lemma rstrip_nil_iff (s : str) : rstrip s = [] <-> forallb isspace s = true.
Proof.
  induction s as [|c s IH]; simpl; [tauto|].
  destruct (rstrip s) as [|x r]; destruct (isspace c); simpl.
  - split; intros _; [apply IH|]; reflexivity.
  - split; discriminate.
  - split; [discriminate|]. intros E; apply IH in E; discriminate.
  - split; discriminate.
Qed.

Lemma lstrip_nil_iff (s : str) : lstrip s = [] <-> forallb isspace s = true.
Proof.
  induction s as [|c s IH]; simpl; [tauto|].
  destruct (isspace c); simpl; [exact IH | split; discriminate].
Qed.

Lemma lstrip_rstrip (s : str) : lstrip (rstrip s) = rstrip (lstrip s).
Proof.
  induction s as [|c s IH]; simpl; [reflexivity|].
  destruct (isspace c) eqn:Ec.
  - destruct (rstrip s) as [|x r] eqn:E; simpl; rewrite ?Ec, <- IH; reflexivity.
  - destruct (rstrip s) as [|x r] eqn:E; simpl; rewrite Ec, ?E; reflexivity.
Qed.

Lemma strip_idem (s : str) : strip (strip s) = strip s.
Proof.
  assert (R : forall x, rstrip (rstrip x) = rstrip x).
  { induction x as [|c x IH]; simpl; [reflexivity|].
    destruct (rstrip x) as [|y r] eqn:E.
    - destruct (isspace c) eqn:Ec; simpl; rewrite ?Ec; reflexivity.
    - simpl in *. rewrite IH. reflexivity. }
  assert (L : forall x, lstrip (lstrip x) = lstrip x).
  { induction x as [|c x IH]; simpl; [reflexivity|].
    destruct (isspace c) eqn:Ec; simpl; rewrite ?Ec; auto. }
  unfold strip. rewrite <- (lstrip_rstrip (rstrip (lstrip s))).
  rewrite R, lstrip_rstrip, L. reflexivity.
Qed.

End PyFacts.

Module SplitFacts.
Import Py PyFacts.

Lemma split_go_not_nil (sep : str) (skip : nat) (s : str) :
  split_go sep skip s <> [].
Proof.
  revert skip; induction s as [|c s IH]; intros skip; simpl; [discriminate|].
  destruct skip; [|apply IH].
  destruct (startswith sep (c :: s)); [discriminate|].
  specialize (IH 0). destruct (split_go sep 0 s); [congruence | discriminate].
Qed.

(** The first piece is a prefix of the string. *)
Lemma split_head_prefix (sep s h : str) (rest : list str) :
  split sep s = h :: rest -> exists u, s = h ++ u.
Proof.
  unfold split. revert h rest; induction s as [|c s IH]; intros h rest; simpl.
  - intros E; inversion E; exists []; reflexivity.
  - destruct (startswith sep (c :: s)).
    + intros E; inversion E; exists (c :: s); reflexivity.
    + destruct (split_go sep 0 s) as [|h' rest'] eqn:E'.
      * now destruct (split_go_not_nil sep 0 s).
      * simpl. intros E; inversion E; subst.
        destruct (IH _ _ eq_refl) as [u ->]. exists u; reflexivity.
Qed.

(** No piece contains the separator. *)
Lemma split_go_no_sep (sep : str) (skip : nat) (s : str) :
  sep <> [] ->
  Forall (fun piece => contains sep piece = false) (split_go sep skip s).
Proof.
  intros Hsep.
  assert (Hnil : contains sep [] = false).
  { destruct sep; [congruence | reflexivity]. }
  revert skip; induction s as [|c s IH]; intros skip; simpl.
  - constructor; [exact Hnil | constructor].
  - destruct skip; [|apply IH].
    destruct (startswith sep (c :: s)) eqn:Es.
    + constructor; [exact Hnil | apply IH].
    + specialize (IH 0).
      destruct (split_go sep 0 s) as [|h' rest'] eqn:E'.
      * now destruct (split_go_not_nil sep 0 s).
      * simpl. inversion IH as [|? ? Hh Hrest]; subst.
        constructor; [|exact Hrest].
        simpl. rewrite Hh, orb_false_r.
        destruct (startswith sep (c :: h')) eqn:Eh; [|reflexivity].
        apply startswith_iff in Eh. destruct Eh as [b Eb].
        destruct (split_head_prefix sep s h' rest' E') as [u Hu].
        assert (startswith sep (c :: s) = true) as Hc.
        { apply startswith_iff. exists (b ++ u).
          rewrite app_assoc, <- Eb, Hu. reflexivity. }
        congruence.
Qed.

Lemma split_no_sep (sep s piece : str) :
  sep <> [] -> In piece (split sep s) -> contains sep piece = false.
Proof.
  intros Hsep Hin.
  exact (proj1 (Forall_forall _ _) (split_go_no_sep sep 0 s Hsep) _ Hin).
Qed.

(** Every piece is a segment of the string. *)
Lemma split_go_segment (sep : str) (skip : nat) (s piece : str) :
  In piece (split_go sep skip s) -> segment piece s.
Proof.
  assert (lift : forall c x y, segment x y -> segment x (c :: y)).
  { intros c x y [a [b ->]]. exists (c :: a), b; reflexivity. }
  revert skip; induction s as [|c s IH]; intros skip; simpl.
  - intros [E|E]; [subst piece; apply segment_refl | destruct E].
  - destruct skip; [|intros Hin; apply lift, (IH _ Hin)].
    destruct (startswith sep (c :: s)).
    + intros [<-|Hin]; [exists [], (c :: s); reflexivity|].
      apply lift, (IH _ Hin).
    + destruct (split_go sep 0 s) as [|h rest] eqn:E.
      * now destruct (split_go_not_nil sep 0 s).
      * simpl. intros [<-|Hin].
        -- destruct (split_head_prefix sep s h rest E) as [u ->].
           exists [], u; reflexivity.
        -- apply lift, (IH 0). rewrite E. right; exact Hin.
Qed.

End SplitFacts.

(* ===================================================================== *)
(** * The nesting of [execute] is bounded *)
(* ===================================================================== *)

Section Nesting.

Context {W : Type} `{Host W}.
Import Py PyFacts SplitFacts.

Lemma pipe_loop_ext (exec1 exec2 : str -> Terminal W -> result W)
    (commands : list str) :
  (forall cmd t, In cmd commands -> exec1 (strip cmd) t = exec2 (strip cmd) t) ->
  forall output t,
    pipe_loop exec1 commands output t = pipe_loop exec2 commands output t.
Proof.
  induction commands as [|cmd commands IH]; intros Hx output t; simpl;
    [reflexivity|].
  destruct (parse_command (aliases t) (strip cmd)) as [cmd_name args].
  rewrite (Hx cmd t (or_introl eq_refl)).
  destruct (negb (is_empty output));
    destruct (exec2 (strip cmd) t) as [[[output'|e] t']|]; auto;
    apply IH; intros; apply Hx; right; assumption.
Qed.

Lemma pipe_loop_some (exec : str -> Terminal W -> result W)
    (commands : list str) :
  (forall cmd t, In cmd commands -> exists r, exec (strip cmd) t = Some r) ->
  forall output t, exists r, pipe_loop exec commands output t = Some r.
Proof.
  induction commands as [|cmd commands IH]; intros Hx output t; simpl;
    [eauto|].
  destruct (parse_command (aliases t) (strip cmd)) as [cmd_name args].
  destruct (Hx cmd t (or_introl eq_refl)) as [[[output'|e] t'] ->].
  - destruct (negb (is_empty output)); apply IH; intros; apply Hx; right;
      assumption.
  - destruct (negb (is_empty output)); eauto.
Qed.

Lemma handle_redirect_ext (exec1 exec2 : str -> Terminal W -> result W)
    (command_line : str) (t : Terminal W) :
  (forall part0 part1,
      (if contains ">>" command_line then split ">>" command_line
       else split ">" command_line) = [part0; part1] ->
      exec1 (strip part0) t = exec2 (strip part0) t) ->
  _handle_redirect exec1 command_line t = _handle_redirect exec2 command_line t.
Proof.
  intros Hx. unfold _handle_redirect.
  destruct (if contains ">>" command_line then split ">>" command_line
            else split ">" command_line) as [|p0 [|p1 [|p2 ps]]]; auto.
  rewrite (Hx p0 p1 eq_refl). reflexivity.
Qed.

Lemma depth_strip_le (x : str) (n : nat) :
  (contains "|" x = false) ->
  (2 <= n \/ contains ">>" x = false) ->
  (1 <= n \/ contains ">" x = false) ->
  depth (strip x) <= n.
Proof.
  intros H1 H2 H3. unfold depth.
  rewrite (not_contains_segment _ _ _ (strip_segment x) H1).
  destruct (contains ">>" (strip x)) eqn:E2.
  - destruct H2 as [?|H2]; [lia|].
    rewrite (not_contains_segment _ _ _ (strip_segment x) H2) in E2.
    discriminate.
  - destruct (contains ">" (strip x)) eqn:E1; [|lia].
    destruct H3 as [?|H3]; [lia|].
    rewrite (not_contains_segment _ _ _ (strip_segment x) H3) in E1.
    discriminate.
Qed.

(** A segment of a pipe line asks for at most two further calls. *)
Lemma pipe_piece_depth (cl cmd : str) :
  In cmd (split "|" cl) -> depth (strip (strip cmd)) <= 2.
Proof.
  intros Hin. apply depth_strip_le; auto.
  apply (not_contains_segment _ _ _ (strip_segment cmd)).
  apply split_no_sep with (s := cl); [discriminate | exact Hin].
Qed.

(** The left part of a redirection asks for fewer calls than the line. *)
Lemma redirect_left_depth (cl part0 : str) (parts : list str) :
  contains "|" cl = false ->
  contains ">" cl || contains ">>" cl = true ->
  (if contains ">>" cl then split ">>" cl else split ">" cl)
  = part0 :: parts ->
  depth (strip (strip part0)) < depth cl.
Proof.
  intros Ep Er Hparts.
  assert (Hpre : segment part0 cl).
  { destruct (contains ">>" cl);
      destruct (split_head_prefix _ _ _ _ Hparts) as [u ->];
      apply segment_prefix. }
  assert (Hp : contains "|" (strip part0) = false).
  { apply (not_contains_segment _ _ _ (strip_segment part0)).
    exact (not_contains_segment _ _ _ Hpre Ep). }
  unfold depth at 2. rewrite Ep.
  destruct (contains ">>" cl) eqn:Ea.
  - assert (depth (strip (strip part0)) <= 1); [|lia].
    apply depth_strip_le; auto. right.
    apply (not_contains_segment _ _ _ (strip_segment part0)).
    apply split_no_sep with (s := cl); [discriminate|].
    rewrite Hparts; left; reflexivity.
  - rewrite orb_false_r in Er. rewrite Er.
    assert (Hgt : contains ">" part0 = false).
    { apply split_no_sep with (s := cl); [discriminate|].
      rewrite Hparts; left; reflexivity. }
    assert (depth (strip (strip part0)) <= 0); [|lia].
    apply depth_strip_le; auto; right;
      apply (not_contains_segment _ _ _ (strip_segment part0)); auto.
    destruct (contains ">>" part0) eqn:E2; [|reflexivity].
    apply (contains_app_l ">" ">") in E2. congruence.
Qed.

(** [execute_body] only calls [exec] on lines that ask for fewer calls. *)
Lemma execute_body_ext (exec1 exec2 : str -> Terminal W -> result W)
    (line : str) (t : Terminal W) :
  (forall x t', depth (strip x) < depth (strip line) ->
                exec1 x t' = exec2 x t') ->
  execute_body exec1 line t = execute_body exec2 line t.
Proof.
  intros Hx. unfold execute_body. set (cl := strip line) in *.
  destruct (is_empty cl || startswith "#" cl); [reflexivity|].
  destruct (contains "|" cl) eqn:Ep.
  - apply pipe_loop_ext. intros cmd t' Hin. apply Hx.
    pose proof (pipe_piece_depth cl cmd Hin).
    unfold depth at 2. rewrite Ep. lia.
  - destruct (contains ">" cl || contains ">>" cl) eqn:Er; [|reflexivity].
    apply handle_redirect_ext. intros p0 p1 Hparts. apply Hx.
    exact (redirect_left_depth cl p0 [p1] Ep Er Hparts).
Qed.

Lemma execute_body_some (exec : str -> Terminal W -> result W)
    (line : str) (t : Terminal W) :
  (forall x t', depth (strip x) < depth (strip line) ->
                exists r, exec x t' = Some r) ->
  exists r, execute_body exec line t = Some r.
Proof.
  intros Hx. unfold execute_body. set (cl := strip line) in *.
  destruct (is_empty cl || startswith "#" cl); [eauto|].
  destruct (contains "|" cl) eqn:Ep.
  - apply pipe_loop_some. intros cmd t' Hin. apply Hx.
    pose proof (pipe_piece_depth cl cmd Hin).
    unfold depth at 2. rewrite Ep. lia.
  - destruct (contains ">" cl || contains ">>" cl) eqn:Er; [|eauto].
    unfold _handle_redirect.
    destruct (if contains ">>" cl then split ">>" cl else split ">" cl)
      as [|p0 [|p1 [|p2 ps]]] eqn:Hparts; eauto.
    destruct (Hx (strip p0) (history_append cl t)
                 (redirect_left_depth cl p0 [p1] Ep Er Hparts))
      as [[[output|e] t'] ->]; eauto.
    destruct (write_text _ _ _ _) as [[u|[e|e]] w]; eauto.
Qed.

Lemma execute_settles (k : nat) :
  forall line, depth (strip line) < k -> settled k line.
Proof.
  induction k as [|k IH]; intros line Hd t; [lia|].
  destruct (execute_body_some (execute_fuel k) line t) as [r Hr].
  { intros x t' Hdx. destruct (IH x ltac:(lia) t') as [r Hr].
    exists r. apply Hr. lia. }
  exists r. intros [|k'] Hk'; [lia|]. rewrite <- Hr. simpl.
  apply execute_body_ext. intros x t' Hdx.
  destruct (IH x ltac:(lia) t') as [r' Hr'].
  rewrite (Hr' k'), (Hr' k); auto; lia.
Qed.

Lemma depth_le_3 (cl : str) : depth cl <= 3.
Proof.
  unfold depth. destruct (contains "|" cl), (contains ">>" cl),
    (contains ">" cl); lia.
Qed.

(** With enough calls allowed, [execute_fuel] is [execute]. *)
Lemma execute_fuel_depth (k : nat) (line : str) (t : Terminal W) :
  depth (strip line) < k -> execute_fuel k line t = Some (execute line t).
Proof.
  intros Hd. unfold execute.
  destruct (execute_settles k line Hd t) as [r Hr].
  destruct (execute_settles 4 line ltac:(pose proof (depth_le_3 (strip line)); lia) t)
    as [r4 Hr4].
  rewrite (Hr4 4 (le_n _)), (Hr k (le_n _)).
  pose proof (Hr (max k 4) ltac:(lia)) as E1.
  pose proof (Hr4 (max k 4) ltac:(lia)) as E2. congruence.
Qed.

(** [execute] returns: four nested calls, or more, always give its result. *)
Theorem execute_fuel_enough (n : nat) (line : str) (t : Terminal W) :
  execute_fuel (4 + n) line t = Some (execute line t).
Proof.
  apply execute_fuel_depth. pose proof (depth_le_3 (strip line)). lia.
Qed.

(** [execute] satisfies the recursive definition of the source. *)
Theorem execute_unfold (line : str) (t : Terminal W) :
  execute_body (fun x t' => Some (execute x t')) line t
  = Some (execute line t).
Proof.
  rewrite <- (execute_fuel_enough 0 line t).
  change (execute_fuel (4 + 0) line t)
    with (execute_body (execute_fuel 3) line t).
  apply execute_body_ext. intros x t' Hd. symmetry.
  apply execute_fuel_depth. pose proof (depth_le_3 (strip line)). lia.
Qed.

End Nesting.

(* ===================================================================== *)
(** * The three routes of [execute] *)
(* ===================================================================== *)

Section Routes.

Context {W : Type} `{Host W}.
Import Py PyFacts SplitFacts.

Lemma execute_skips (line : str) (t : Terminal W) :
  is_empty (strip line) || startswith "#" (strip line) = true ->
  execute line t = (Return [], t).
Proof.
  intros Hb. pose proof (execute_unfold line t) as E.
  unfold execute_body in E. rewrite Hb in E. congruence.
Qed.

Lemma execute_plain (line : str) (t : Terminal W) :
  runs line ->
  contains "|" (strip line) = false ->
  contains ">" (strip line) = false ->
  execute line t = dispatch (strip line) (history_append (strip line) t).
Proof.
  intros Hr Hp Hg. pose proof (execute_unfold line t) as E.
  unfold execute_body in E. rewrite Hr, Hp, Hg, orb_false_l in E.
  destruct (contains ">>" (strip line)) eqn:E2.
  - apply (contains_app_l ">" ">") in E2. congruence.
  - congruence.
Qed.

Lemma execute_pipe (line : str) (t : Terminal W) :
  runs line ->
  contains "|" (strip line) = true ->
  pipe_loop execute_call (split "|" (strip line)) []
    (history_append (strip line) t)
  = Some (execute line t).
Proof.
  intros Hr Hp. pose proof (execute_unfold line t) as E.
  unfold execute_body in E. rewrite Hr, Hp in E. exact E.
Qed.

Lemma execute_redirect (line : str) (t : Terminal W) :
  runs line ->
  contains "|" (strip line) = false ->
  contains ">" (strip line) = true ->
  _handle_redirect execute_call (strip line) (history_append (strip line) t)
  = Some (execute line t).
Proof.
  intros Hr Hp Hg. pose proof (execute_unfold line t) as E.
  unfold execute_body in E. rewrite Hr, Hp, Hg, orb_true_l in E. exact E.
Qed.

(** ** What the handlers of the registry leave alone *)

Ltac registry_cases Hc :=
  unfold commands in Hc;
  repeat match type of Hc with
         | context [if ?b then _ else _] => destruct b
         end;
  inversion Hc; subst; clear Hc.

Lemma handler_history (cmd : str) (h : handler W) (args : list str)
    (t : Terminal W) :
  commands cmd = Some h -> history (snd (h args t)) = history t.
Proof.
  intros Hc. registry_cases Hc; simpl; try reflexivity.
  - unfold call. destruct (collaborator _ _ _ _); reflexivity.
  - unfold call. destruct (collaborator _ _ _ _); reflexivity.
  - unfold _cd. destruct (FileCommands.cd _ _ _) as [[[c o]|e] w1]; simpl;
      [destruct (chdir _ _) as [[u|e] w2]|]; reflexivity.
  - destruct (SystemCommands.alias _ _ _); reflexivity.
  - destruct args; reflexivity.
Qed.


Lemma execute_external_history (cl : str) (t : Terminal W) :
  history (snd (_execute_external cl t)) = history t.
Proof.
  unfold _execute_external.
  destruct (subprocess_run _ _ _) as [[[o e]|[e|e]] w]; reflexivity.
Qed.

Lemma dispatch_history (cl : str) (t : Terminal W) :
  history (snd (dispatch cl t)) = history t.
Proof.
  unfold dispatch. destruct (parse_command (aliases t) cl) as [cmd args].
  destruct (commands cmd) as [h|] eqn:Hc; [|apply execute_external_history].
  pose proof (handler_history cmd h args t Hc) as Hh.
  destruct (h args t) as [[r|[e|e]] t']; exact Hh.
Qed.




End Routes.

Section RoutingProperties.

Context {W : Type} `{Host W}.
Import Py PyFacts SplitFacts.

Lemma pipe_loop_run_last (cmds : list str) :
  cmds <> [] ->
  forall (output : str) (t : Terminal W),
    pipe_loop execute_call cmds output t
    = Some (run_last execute (map strip cmds) t).
Proof.
  induction cmds as [|cmd cmds IH]; [congruence|]. intros _ output t.
  simpl pipe_loop. destruct (parse_command (aliases t) (strip cmd)).
  assert (forall x : result W, (if negb (is_empty output) then x else x) = x)
    as -> by (intros; destruct (negb _); reflexivity).
  unfold execute_call at 1. simpl map.
  destruct cmds as [|cmd' cmds].
  - simpl. destruct (execute (strip cmd) t) as [[o|e] t']; reflexivity.
  - change (run_last execute (strip cmd :: map strip (cmd' :: cmds)) t)
      with (match execute (strip cmd) t with
            | (Return _, t') => run_last execute (map strip (cmd' :: cmds)) t'
            | (Raise e, t') => (Raise e, t')
            end).
    destruct (execute (strip cmd) t) as [[o|e] t']; [|reflexivity].
    apply IH. discriminate.
Qed.

Lemma runs_strip (x : str) : runs x -> runs (strip x).
Proof. unfold runs. now rewrite strip_idem. Qed.

Lemma pipe_loop_history (cmds : list str) :
  Forall (fun seg => runs seg /\ contains "|" (strip seg) = false
                     /\ contains ">" (strip seg) = false) cmds ->
  forall (output r : str) (t tf : Terminal W),
    pipe_loop execute_call cmds output t = Some (Return r, tf) ->
    history tf = history t ++ map strip cmds.
Proof.
  induction 1 as [|cmd cmds [Hr [Hp Hg]] _ IH]; intros output r t tf; simpl.
  - intros E; inversion E; subst. now rewrite app_nil_r.
  - destruct (parse_command (aliases t) (strip cmd)).
    assert (forall x : result W, (if negb (is_empty output) then x else x) = x)
      as -> by (intros; destruct (negb _); reflexivity).
    unfold execute_call at 1.
    pose proof (execute_plain (strip cmd) t (runs_strip _ Hr)) as Ex.
    rewrite strip_idem in Ex. rewrite (Ex Hp Hg).
    pose proof (dispatch_history (strip cmd) (history_append (strip cmd) t))
      as Hh.
    destruct (dispatch (strip cmd) (history_append (strip cmd) t))
      as [[o|e] t1]; [|discriminate].
    intros E. rewrite (IH _ _ _ _ E). simpl in Hh. rewrite Hh. simpl.
    now rewrite <- app_assoc.
Qed.

(** C5 (as amended).  The checks for a pipe or a redirection are made on
    the stripped line as it was typed, before any alias is looked up: a
    line without [|] and [>] is always handed to the ordinary dispatch,
    whatever the alias table holds, and the alias replacement only reaches
    the tokeniser. *)
Theorem routing_precedes_alias_expansion (t : Terminal W) (line : str) :
  runs line ->
  contains "|" (strip line) = false ->
  contains ">" (strip line) = false ->
  execute line t = dispatch (strip line) (history_append (strip line) t)
  /\ parse_command (aliases t) (strip line)
     = tokenize (expand_alias (aliases t) (strip line)).
Proof.
  intros Hr Hp Hg. split; [exact (execute_plain line t Hr Hp Hg)|].
  unfold parse_command. unfold runs in Hr. rewrite strip_idem.
  destruct (is_empty (strip line)); [discriminate | reflexivity].
Qed.

(** C6.  A line with a [|] is split at every [|]; the segments are run one
    after the other by [execute], each on its own stripped text in the
    session the previous ones left, none receiving the output of another,
    and the result is the result of the last segment. *)
Theorem pipe_returns_last_segment (t : Terminal W) (line : str) :
  runs line ->
  contains "|" (strip line) = true ->
  execute line t
  = run_last execute (map strip (split "|" (strip line)))
      (history_append (strip line) t).
Proof.
  intros Hr Hp. pose proof (execute_pipe line t Hr Hp) as E.
  rewrite pipe_loop_run_last in E; [congruence|].
  apply split_go_not_nil.
Qed.

(** C8 (as amended).  A line with a [>] and no [|] whose split at the
    redirection operator does not give exactly two parts (empty parts
    count) is answered with the syntax error; nothing is run and nothing is
    written: only the line itself is recorded in the history. *)
Theorem redirect_needs_two_parts (t : Terminal W) (line : str) :
  runs line ->
  contains "|" (strip line) = false ->
  contains ">" (strip line) = true ->
  length (redirect_parts (strip line)) <> 2 ->
  execute line t
  = (Return (ColorOutput.error "Invalid redirection syntax"),
     history_append (strip line) t).
Proof.
  intros Hr Hp Hg Hl. pose proof (execute_redirect line t Hr Hp Hg) as E.
  unfold _handle_redirect in E. unfold redirect_parts in Hl.
  destruct (if contains ">>" (strip line) then split ">>" (strip line)
            else split ">" (strip line)) as [|p0 [|p1 [|p2 ps]]];
    simpl in Hl; try congruence.
Qed.


(** C10 (as amended).  A redirection line whose split gives two parts and
    whose left part is itself a plain command (it runs, and holds no
    further [>]) adds two entries to the history, the line and the left
    part; a pipe line whose segments are all plain commands and that
    returns adds the line and then every segment. *)
Theorem history_entries_of_routed_line (t : Terminal W) (line : str) :
  runs line ->
  (contains "|" (strip line) = false ->
   contains ">" (strip line) = true ->
   forall left right,
     redirect_parts (strip line) = [left; right] ->
     runs left ->
     contains ">" (strip left) = false ->
     history (snd (execute line t))
     = history t ++ [strip line; strip left])
  /\
  (contains "|" (strip line) = true ->
   Forall (fun seg => runs seg /\ contains ">" (strip seg) = false)
     (split "|" (strip line)) ->
   (exists output, fst (execute line t) = Return output) ->
   history (snd (execute line t))
   = history t ++ strip line :: map strip (split "|" (strip line))).
Proof.
  intros Hr. split.
  - intros Hp Hg left right Hparts Hrl Hgl.
    pose proof (execute_redirect line t Hr Hp Hg) as E.
    unfold _handle_redirect in E. unfold redirect_parts in Hparts.
    rewrite Hparts in E. unfold execute_call at 1 in E.
    assert (Hpl : contains "|" (strip left) = false).
    { apply (not_contains_segment _ _ _ (strip_segment left)).
      refine (not_contains_segment _ _ _ _ Hp).
      destruct (contains ">>" (strip line));
        destruct (split_head_prefix _ _ _ _ Hparts) as [u ->];
        apply segment_prefix. }
    pose proof (execute_plain (strip left) (history_append (strip line) t)
                  (runs_strip _ Hrl)) as Ex.
    rewrite strip_idem in Ex. rewrite (Ex Hpl Hgl) in E.
    pose proof (dispatch_history (strip left)
                  (history_append (strip left)
                     (history_append (strip line) t))) as Hh.
    destruct (dispatch (strip left) _) as [[o|e] t1].
    + destruct (write_text _ _ _ _) as [[u|[e|e]] w];
        inversion E as [E']; simpl; simpl in Hh; rewrite Hh;
        now rewrite <- app_assoc.
    + inversion E as [E']; simpl; simpl in Hh; rewrite Hh;
        now rewrite <- app_assoc.
  - intros Hp Hall [output Hout].
    pose proof (execute_pipe line t Hr Hp) as E.
    destruct (execute line t) as [r tf]. simpl in Hout. subst r.
    assert (HF : Forall (fun seg => runs seg /\ contains "|" (strip seg) = false
                                    /\ contains ">" (strip seg) = false)
                   (split "|" (strip line))).
    { apply Forall_forall. intros seg Hin.
      destruct (proj1 (Forall_forall _ _) Hall seg Hin) as [H1 H2].
      repeat split; auto.
      apply (not_contains_segment _ _ _ (strip_segment seg)).
      apply split_no_sep with (s := strip line); [discriminate | exact Hin]. }
    simpl. rewrite (pipe_loop_history _ HF _ _ _ _ E).
    simpl. now rewrite <- app_assoc.
Qed.

End RoutingProperties.

Section HandlerProperties.

Context {W : Type} `{Host W}.
Import Py PyFacts SplitFacts.

(** ** [history] *)

Lemma history_handler_recent (args : list str) (cwd : str) (h : list str)
    (c : nat) :
  SystemCommands.history_count args = Z.of_nat c ->
  let k := min (length h) c in
  SystemCommands.history args cwd h
  = numbered_from (length h - k + 1) (last_entries k h)
  /\ length (last_entries k h) = k.
Proof.
  intros Hc k. unfold SystemCommands.history, numbered_from, last_entries,
    SystemCommands.enumerate.
  rewrite Hc.
  replace (Z.to_nat (Z.max 0 (Z.of_nat (length h) - Z.of_nat c)))
    with (length h - k) by (subst k; lia).
  split; [reflexivity|]. rewrite length_skipn. subst k; lia.
Qed.

Lemma commands_history :
  commands (W := W) "history"
  = Some (fun args t =>
            (Return (SystemCommands.history args (cwd t) (history t)), t)).
Proof. reflexivity. Qed.

(** C7 (as amended).  When a line that parses to [history] with a count
    [c] is executed, the line itself is recorded first; the listing then
    holds the last [min L c] entries of the history, [L] being its length
    with that line included, in their order and numbered up to [L]. *)
Theorem history_lists_recent_entries (t : Terminal W) (line : str)
    (args : list str) (c : nat) :
  runs line ->
  contains "|" (strip line) = false ->
  contains ">" (strip line) = false ->
  parse_command (aliases t) (strip line) = ("history" : str, args) ->
  SystemCommands.history_count args = Z.of_nat c ->
  let h := history t ++ [strip line] in
  let k := min (length h) c in
  execute line t
  = (Return (numbered_from (length h - k + 1) (last_entries k h)),
     history_append (strip line) t)
  /\ length (last_entries k h) = k
  /\ length h = S (length (history t)).
Proof.
  intros Hr Hp Hg Hparse Hc h k.
  destruct (history_handler_recent args (cwd t) h c Hc) as [E1 E2].
  split; [|split; [exact E2|]].
  - rewrite (execute_plain line t Hr Hp Hg). unfold dispatch.
    change (aliases (history_append (strip line) t)) with (aliases t).
    rewrite Hparse, commands_history. simpl. fold h. fold k in E1.
    rewrite E1. reflexivity.
  - subst h. rewrite length_app. simpl. lia.
Qed.

(** ** Redirection *)

Context `{!HostLaws W}.


(** ** [cd] *)

(** What [cd] does in every other case: a rejection returns the directory
    it was given and a message, a success returns the resolved directory,
    and the directory left is what [cd -] resolves next. *)
Lemma cd_contract (args : list str) (cwd : str) (w : W) :
  let target := FileCommands.cd_target args cwd w in
  (path_exists target w = false ->
   exists message,
     message <> [] /\ FileCommands.cd args cwd w = (Return (cwd, message), w))
  /\
  (path_exists target w = true -> path_isdir target w = false ->
   args <> [] ->
   exists message,
     message <> [] /\ FileCommands.cd args cwd w = (Return (cwd, message), w))
  /\
  (path_exists target w = true -> path_isdir target w = true ->
   FileCommands.cd args cwd w
   = (Return (target, []), environ_set "OLDPWD" cwd w)
   /\ environ_get "OLDPWD" (environ_set "OLDPWD" cwd w) = Some cwd
   /\ forall cwd',
       FileCommands.cd_target ["-" : str] cwd' (environ_set "OLDPWD" cwd w)
       = NtPath.normpath cwd).
Proof.
  intros target. unfold FileCommands.cd. fold target. split; [|split].
  - intros ->. simpl. eexists; split; [|reflexivity]. discriminate.
  - intros -> -> Ha. simpl. destruct args as [|a0 args]; [congruence|].
    eexists; split; [|reflexivity]. discriminate.
  - intros -> ->. split; [reflexivity|]. split; [apply environ_get_set|].
    intros cwd'. unfold FileCommands.cd_target. simpl.
    now rewrite environ_get_set.
Qed.

(** C1 (the defect).  With no argument and a home path that exists and is
    not a directory, [cd] does not return a pair: the message of the second
    rejection is built from [args[0]], and the call raises. *)
Theorem cd_without_argument_raises (cwd : str) (w : W) :
  path_exists (NtPath.normpath (home w)) w = true ->
  path_isdir (NtPath.normpath (home w)) w = false ->
  FileCommands.cd [] cwd w
  = (Raise (Exception "list index out of range"), w).
Proof.
  intros He Hd. unfold FileCommands.cd, FileCommands.cd_target.
  rewrite He, Hd. reflexivity.
Qed.

End HandlerProperties.

Section AliasProperties.

Import Py PyFacts SplitFacts.

Lemma word_head (name : str) :
  word name -> exists c rest, name = c :: rest /\ isspace c = false.
Proof.
  intros [Hne Hall]. destruct name as [|c rest]; [congruence|].
  simpl in Hall. apply andb_true_iff in Hall. destruct Hall as [Hc _].
  exists c, rest. split; [reflexivity|]. now destruct (isspace c).
Qed.

Lemma lstrip_word_app (name x : str) :
  word name -> lstrip (name ++ x) = name ++ x.
Proof.
  intros Hw. destruct (word_head name Hw) as [c [rest [-> Hc]]].
  simpl. now rewrite Hc.
Qed.

Lemma rstrip_word_app (a x : str) :
  forallb (fun c => negb (isspace c)) a = true ->
  rstrip (a ++ x) = a ++ rstrip x.
Proof.
  induction a as [|c a IH]; simpl; [reflexivity|].
  intros Hall. apply andb_true_iff in Hall. destruct Hall as [Hc Ha].
  rewrite (IH Ha). destruct (a ++ rstrip x); [|reflexivity].
  destruct (isspace c); [discriminate | reflexivity].
Qed.

Lemma take_word_app (a x : str) :
  forallb (fun c => negb (isspace c)) a = true ->
  take_word (a ++ x) = a ++ take_word x.
Proof.
  induction a as [|c a IH]; simpl; [reflexivity|].
  intros Hall. apply andb_true_iff in Hall. destruct Hall as [Hc Ha].
  destruct (isspace c); [discriminate|]. now rewrite (IH Ha).
Qed.

Lemma drop_word_app (a x : str) :
  forallb (fun c => negb (isspace c)) a = true ->
  drop_word (a ++ x) = drop_word x.
Proof.
  induction a as [|c a IH]; simpl; [reflexivity|].
  intros Hall. apply andb_true_iff in Hall. destruct Hall as [Hc Ha].
  destruct (isspace c); [discriminate|]. exact (IH Ha).
Qed.

Lemma split_ws1_eq (s : str) :
  lstrip s <> [] ->
  split_ws1 s
  = match lstrip (drop_word (lstrip s)) with
    | [] => [take_word (lstrip s)]
    | rest => [take_word (lstrip s); rest]
    end.
Proof.
  unfold split_ws1. destruct (lstrip s); [congruence | reflexivity].
Qed.

(** The parts of a line that starts with a word and a space. *)
Lemma split_ws1_word_line (name args : str) :
  word name ->
  strip (name ++ " " ++ args) <> []
  /\ split_ws1 (strip (name ++ " " ++ args))
     = name :: match strip args with [] => [] | rest => [rest] end.
Proof.
  intros Hw. pose proof Hw as [Hne Hall].
  assert (Hnn : forall x, name ++ x <> []).
  { intros x. destruct name; [congruence | discriminate]. }
  unfold strip at 1 2. rewrite (lstrip_word_app _ _ Hw).
  rewrite (rstrip_word_app _ _ Hall).
  split; [apply Hnn|].
  rewrite split_ws1_eq; rewrite (lstrip_word_app _ _ Hw); [|apply Hnn].
  rewrite (take_word_app _ _ Hall), (drop_word_app _ _ Hall).
  assert (Hs : lstrip (rstrip (" " ++ args)) = strip args).
  { rewrite lstrip_rstrip. reflexivity. }
  change (rstrip (" " ++ args))
    with (match rstrip args with [] => [] | r => " "%char :: r end) in *.
  destruct (rstrip args) as [|x r] eqn:Er.
  - simpl in *. rewrite <- Hs. rewrite app_nil_r. reflexivity.
  - simpl in *. rewrite app_nil_r, <- Hs.
    destruct (if isspace x then lstrip r else x :: r); reflexivity.
Qed.

Lemma expand_alias_word_line (aliases : dict) (name replacement args : str) :
  word name ->
  dict_get name aliases = Some replacement ->
  expand_alias aliases (name ++ " " ++ args)
  = match strip args with
    | [] => replacement
    | rest => replacement ++ " " ++ rest
    end.
Proof.
  intros Hw Hget. unfold expand_alias.
  rewrite (proj2 (split_ws1_word_line name args Hw)), Hget.
  destruct (strip args); reflexivity.
Qed.

(** C3 (as amended).  For an alias [name=replacement], the line
    [name args] is parsed as the tokens of [replacement args] ([args]
    trimmed), the replacement being put in once and never looked up again;
    this is what parsing [replacement args] with [name] removed from the
    table gives whenever that text is not blank and its first word is not
    an alias of the remaining table. *)
Theorem alias_expands_once (aliases : dict) (name replacement args : str) :
  word name ->
  dict_get name aliases = Some replacement ->
  let text :=
    match strip args with
    | [] => replacement
    | rest => replacement ++ " " ++ rest
    end in
  parse_command aliases (name ++ " " ++ args) = tokenize text
  /\ (strip text <> [] ->
      (forall first rest,
          split_ws1 (strip text) = first :: rest ->
          dict_get first (dict_del name aliases) = None) ->
      parse_command aliases (name ++ " " ++ args)
      = parse_command (dict_del name aliases) text).
Proof.
  intros Hw Hget text.
  assert (E : parse_command aliases (name ++ " " ++ args) = tokenize text).
  { unfold parse_command.
    destruct (split_ws1_word_line name args Hw) as [Hne _].
    destruct (strip (name ++ " " ++ args)); [congruence|]. simpl is_empty.
    cbv iota. now rewrite (expand_alias_word_line _ _ _ _ Hw Hget). }
  split; [exact E|]. intros Hne Hfirst. rewrite E.
  unfold parse_command. destruct (strip text) eqn:Es; [congruence|].
  simpl is_empty. cbv iota. unfold expand_alias. rewrite Es.
  destruct (split_ws1 (a :: l)) as [|first rest] eqn:Ep; [reflexivity|].
  now rewrite (Hfirst first rest eq_refl).
Qed.

End AliasProperties.

Section PathProperties.

Import Py PyFacts SplitFacts.

(** ** Letters *)

Lemma letter_facts (d : ascii) :
  is_alpha d = true ->
  Ascii.eqb d "/" = false /\ Ascii.eqb d "\" = false
  /\ Ascii.eqb "/" d = false /\ Ascii.eqb "\" d = false
  /\ Ascii.eqb "~" d = false
  /\ is_alpha (upper_char d) = true /\ is_alpha (lower_char d) = true
  /\ (is_upper d = true -> upper_char (lower_char d) = d)
  /\ (is_lower d = true -> lower_char (upper_char d) = d).
Proof.
  destruct d as [[] [] [] [] [] [] [] []]; vm_compute; intros E;
    try discriminate E; repeat split; intros; try reflexivity; discriminate.
Qed.

(** ** Characters, replacement and joining *)

Lemma contains_char (a : ascii) (s : str) :
  contains [a] s = existsb (Ascii.eqb a) s.
Proof.
  induction s as [|c s IH]; simpl; [reflexivity|].
  rewrite IH. destruct (Ascii.eqb a c); reflexivity.
Qed.

Lemma replace_char_absent (a b : ascii) (s : str) :
  existsb (Ascii.eqb a) s = false -> replace_char a b s = s.
Proof.
  induction s as [|c s IH]; simpl; [reflexivity|].
  intros E. apply orb_false_iff in E. destruct E as [Ec Es].
  rewrite Ascii.eqb_sym, Ec, (IH Es). reflexivity.
Qed.

Lemma replace_char_app (a b : ascii) (x y : str) :
  replace_char a b (x ++ y) = replace_char a b x ++ replace_char a b y.
Proof. apply map_app. Qed.

Lemma join_cons (sep p q : str) (l : list str) :
  join sep (p :: q :: l) = p ++ sep ++ join sep (q :: l).
Proof. reflexivity. Qed.

Lemma replace_char_join (a b : ascii) (l : list str) :
  Forall (fun p => existsb (Ascii.eqb a) p = false) l ->
  replace_char a b (join [a] l) = join [b] l.
Proof.
  induction 1 as [|p l Hp Hl IH]; [reflexivity|].
  destruct l as [|q l].
  - exact (replace_char_absent a b p Hp).
  - rewrite !join_cons, !replace_char_app, (replace_char_absent a b p Hp), IH.
    simpl. now rewrite Ascii.eqb_refl.
Qed.

Lemma replace_char_twice (a b : ascii) (s : str) :
  Ascii.eqb b a = false ->
  replace_char a b (replace_char a b s) = replace_char a b s.
Proof.
  intros Hab. unfold replace_char. rewrite map_map. apply map_ext.
  intros c. destruct (Ascii.eqb c a) eqn:E; [now rewrite Hab | now rewrite E].
Qed.

Lemma replace_char_back (s : str) :
  replace_char "/" "\" (replace_char "\" "/" s) = replace_char "/" "\" s.
Proof.
  unfold replace_char. rewrite map_map. apply map_ext. intros c.
  destruct (Ascii.eqb c "\") eqn:E1.
  - apply Ascii.eqb_eq in E1. subst c. reflexivity.
  - destruct (Ascii.eqb c "/"); reflexivity.
Qed.

Lemma forallb_replace_char (P : ascii -> bool) (a b : ascii) (s : str) :
  P b = true -> forallb P s = true -> forallb P (replace_char a b s) = true.
Proof.
  intros Hb. induction s as [|c s IH]; simpl; [reflexivity|].
  intros E. apply andb_true_iff in E. destruct E as [Hc Hs].
  rewrite (IH Hs). destruct (Ascii.eqb c a); now rewrite ?Hb, ?Hc.
Qed.

Lemma forallb_segment (P : ascii -> bool) (x s : str) :
  segment x s -> forallb P s = true -> forallb P x = true.
Proof.
  intros [a [b ->]]. rewrite !forallb_app, !andb_true_iff. tauto.
Qed.

Lemma forallb_join (P : ascii -> bool) (sep : str) (l : list str) :
  forallb P sep = true -> Forall (fun p => forallb P p = true) l ->
  forallb P (join sep l) = true.
Proof.
  intros Hsep. induction 1 as [|p l Hp Hl IH]; [reflexivity|].
  destruct l as [|q l]; [exact Hp|].
  rewrite join_cons, !forallb_app, Hp, Hsep. exact IH.
Qed.

(** ** Components *)

Lemma norm_comps_incl (rooted : bool) (comps done : list str) (x : str) :
  In x (NtPath.norm_comps rooted done comps) -> In x done \/ In x comps.
Proof.
  revert done. induction comps as [|c comps IH]; intros done; simpl.
  - rewrite <- in_rev. tauto.
  - repeat match goal with
           | |- In _ (if ?b then _ else _) -> _ => destruct b
           | |- In _ (match ?d with [] => _ | _ :: _ => _ end) -> _ =>
               destruct d
           end;
      intros Hin; destruct (IH _ Hin) as [Hd|Hd]; simpl in Hd; simpl; tauto.
Qed.

Lemma norm_comps_normal (segs done : list str) :
  Forall normal_component segs ->
  NtPath.norm_comps true done segs = rev done ++ segs.
Proof.
  intros Hall. revert done.
  induction Hall as [|c segs [H1 [H2 [H3 _]]] _ IH]; intros done.
  - simpl. now rewrite app_nil_r.
  - apply str_eqb_neq in H2, H3.
    change (NtPath.norm_comps true done (c :: segs))
      with (if is_empty c || str_eqb c "."
            then NtPath.norm_comps true done segs
            else if str_eqb c ".."
                 then match done with
                      | d :: done' =>
                          if negb (str_eqb d "..")
                          then NtPath.norm_comps true done' segs
                          else NtPath.norm_comps true (c :: done) segs
                      | [] => NtPath.norm_comps true done segs
                      end
                 else NtPath.norm_comps true (c :: done) segs).
    rewrite H2, H3. destruct c; [congruence|]. cbn [is_empty orb].
    rewrite IH. simpl rev. rewrite <- app_assoc. reflexivity.
Qed.

Lemma split_char_piece (c : ascii) (p : str) :
  existsb (Ascii.eqb c) p = false ->
  (forall s, split [c] (p ++ c :: s) = p :: split [c] s)
  /\ split [c] p = [p].
Proof.
  unfold split. induction p as [|x p IH]; simpl.
  - intros _. split; [|reflexivity]. intros s.
    now rewrite Ascii.eqb_refl.
  - intros E. apply orb_false_iff in E. destruct E as [Ex Ep].
    destruct (IH Ep) as [IH1 IH2]. rewrite Ex. simpl.
    split; [intros s; rewrite IH1 | rewrite IH2]; reflexivity.
Qed.

Lemma split_join (c : ascii) (l : list str) :
  l <> [] ->
  Forall (fun p => existsb (Ascii.eqb c) p = false) l ->
  split [c] (join [c] l) = l.
Proof.
  intros Hne Hall. induction Hall as [|p l Hp Hl IH]; [congruence|].
  destruct l as [|q l].
  - exact (proj2 (split_char_piece c p Hp)).
  - rewrite join_cons. simpl app. rewrite (proj1 (split_char_piece c p Hp)).
    f_equal. apply IH. discriminate.
Qed.

Lemma root_components_clean (rest : str) (x : str) :
  forallb Re.not_newline rest = true ->
  In x (root_components rest) ->
  existsb (Ascii.eqb "\") x = false /\ forallb Re.not_newline x = true.
Proof.
  intros Hnl Hin. unfold root_components in Hin.
  apply norm_comps_incl in Hin. destruct Hin as [[]|Hin].
  split.
  - rewrite <- contains_char.
    apply split_no_sep with (s := NtPath.lstrip_sep (replace_char "/" "\" rest));
      [discriminate | exact Hin].
  - apply split_go_segment in Hin.
    refine (forallb_segment _ _ _ Hin _).
    assert (Hs : forall s, segment (NtPath.lstrip_sep s) s).
    { unfold NtPath.lstrip_sep. induction s as [|c s [a [b IH]]].
      - apply segment_refl.
      - change (lstrip_chars [NtPath.sep] (c :: s))
          with (if in_chars c [NtPath.sep]
                then lstrip_chars [NtPath.sep] s else c :: s).
        destruct (in_chars c [NtPath.sep]); [|apply segment_refl].
        exists (c :: a), b. simpl. congruence. }
    refine (forallb_segment _ _ _ (Hs _) _).
    apply forallb_replace_char; [reflexivity | exact Hnl].
Qed.

(** ** The two translations on drive paths *)

Lemma dotstar_end_line (s : str) :
  forallb Re.not_newline s = true -> Re.dotstar_end s = Some s.
Proof. intros E. unfold Re.dotstar_end. now rewrite E. Qed.

Lemma replace_slash_drive (d : ascii) (rest : str) :
  Ascii.eqb d "/" = false ->
  replace_char NtPath.altsep NtPath.sep (d :: ":"%char :: rest)
  = d :: ":"%char :: replace_char "/" "\" rest.
Proof.
  intros E. unfold replace_char. cbn [map]. unfold NtPath.altsep.
  rewrite E. reflexivity.
Qed.

Lemma splitdrive_letter (d : ascii) (rest : str) :
  is_alpha d = true ->
  NtPath.splitdrive (d :: ":"%char :: rest) = ([d; ":"%char], rest).
Proof.
  intros Hd. destruct (letter_facts d Hd) as [E1 [E2 _]].
  unfold NtPath.splitdrive.
  replace (2 <=? length (d :: ":"%char :: rest)) with true by reflexivity.
  rewrite (replace_slash_drive d rest E1).
  cbn [firstn skipn str_eqb]. unfold NtPath.sep at 1. rewrite E2.
  cbn [andb]. reflexivity.
Qed.

Lemma normpath_drive_root (d : ascii) (rest : str) :
  is_alpha d = true ->
  NtPath.normpath (d :: ":"%char :: "\"%char :: rest)
  = d :: ":"%char :: "\"%char :: join [NtPath.sep] (root_components rest).
Proof.
  intros Hd. destruct (letter_facts d Hd) as [E1 [E2 _]].
  unfold NtPath.normpath.
  rewrite (replace_slash_drive d _ E1).
  rewrite (splitdrive_letter d _ Hd).
  change (replace_char "/" "\" ("\"%char :: rest))
    with ("\"%char :: replace_char "/" "\" rest).
  change (startswith [NtPath.sep] ("\"%char :: replace_char "/" "\" rest))
    with true.
  cbv iota beta.
  change (NtPath.lstrip_sep ("\"%char :: replace_char "/" "\" rest))
    with (NtPath.lstrip_sep (replace_char "/" "\" rest)).
  reflexivity.
Qed.

Lemma isabs_drive_root (d : ascii) (rest : str) :
  is_alpha d = true ->
  NtPath.isabs (d :: ":"%char :: "\"%char :: rest) = true.
Proof.
  intros Hd. destruct (letter_facts d Hd) as [E1 [E2 [E3 [E4 _]]]].
  unfold NtPath.isabs. cbn [firstn].
  rewrite (replace_slash_drive d _ E1).
  cbn [startswith skipn]. unfold NtPath.sep at 1. rewrite E4. reflexivity.
Qed.

Section Translations.

Context {W : Type} `{Host W}.

Lemma to_windows_virtual_drive (w : W) (d : ascii) (rest : str) :
  is_alpha d = true ->
  forallb Re.not_newline rest = true ->
  to_windows w ("/"%char :: d :: "/"%char :: rest)
  = upper_char d :: ":"%char :: "\"%char
    :: join [NtPath.sep] (root_components rest).
Proof.
  intros Hd Hnl.
  destruct (letter_facts d Hd) as [_ [_ [_ [_ [_ [Hu _]]]]]].
  destruct (letter_facts _ Hu) as [E1 [E2 [E3 [E4 _]]]].
  unfold to_windows. cbn [is_empty].
  change (startswith "~" ("/"%char :: d :: "/"%char :: rest)) with false.
  cbv iota.
  assert (M1 : Re.match_slash_drive ("/"%char :: d :: "/"%char :: rest)
               = Some (d, "/"%char :: rest)).
  { unfold Re.match_slash_drive. rewrite Ascii.eqb_refl, Hd. cbn [andb].
    unfold Re.opt_rest_end. rewrite Ascii.eqb_refl.
    now rewrite (dotstar_end_line rest Hnl). }
  rewrite M1.
  assert (M2 : Re.match_mnt_drive (upper_char d :: ":"%char :: "/"%char :: rest)
               = None).
  { unfold Re.match_mnt_drive.
    change (startswith "/mnt/" (upper_char d :: ":"%char :: "/"%char :: rest))
      with (Ascii.eqb "/" (upper_char d)
            && startswith "mnt/" (":"%char :: "/"%char :: rest)).
    now rewrite E3. }
  rewrite M2.
  assert (R : replace_char "/" "\" (upper_char d :: ":"%char :: "/"%char :: rest)
              = upper_char d :: ":"%char :: "\"%char :: replace_char "/" "\" rest).
  { rewrite (replace_slash_drive _ _ E1). reflexivity. }
  rewrite R, (isabs_drive_root _ _ Hu). cbn [negb].
  rewrite (normpath_drive_root _ _ Hu). unfold root_components.
  rewrite replace_char_twice; reflexivity.
Qed.

Lemma to_linux_native_drive (w : W) (d : ascii) (rest : str) :
  is_alpha d = true ->
  forallb Re.not_newline rest = true ->
  to_linux w (d :: ":"%char :: "\"%char :: rest)
  = "/"%char :: lower_char d :: "/"%char :: replace_char "\" "/" rest.
Proof.
  intros Hd Hnl.
  destruct (letter_facts d Hd) as [_ [_ [_ [_ [_ [_ [Hl _]]]]]]].
  destruct (letter_facts _ Hl) as [E1 [E2 _]].
  unfold to_linux. cbn [is_empty].
  assert (M : Re.match_drive_colon (d :: ":"%char :: "\"%char :: rest)
              = Some (d, rest)).
  { unfold Re.match_drive_colon. rewrite Hd, !Ascii.eqb_refl. cbn [andb].
    now rewrite (dotstar_end_line rest Hnl). }
  rewrite M. unfold replace_char. cbn [map]. rewrite E2. reflexivity.
Qed.

(** C2 (as amended).  For a native path [X:\rest] with an upper-case drive
    letter and no newline, translating to the virtual form and back gives
    [normpath] of the path.  For a virtual path [/x/rest] with a lower-case
    drive letter and no newline, translating to the native form and back
    gives [/x/] followed by the components of [rest] as [normpath] leaves
    them below a drive root, joined by [/]; that is the path itself when
    its components are already normal. *)
Theorem drive_path_roundtrip (w : W) (d : ascii) (rest : str) :
  forallb Re.not_newline rest = true ->
  (is_upper d = true ->
   to_windows w (to_linux w (d :: ":"%char :: "\"%char :: rest))
   = NtPath.normpath (d :: ":"%char :: "\"%char :: rest))
  /\
  (is_lower d = true ->
   to_linux w (to_windows w ("/"%char :: d :: "/"%char :: rest))
   = "/"%char :: d :: "/"%char :: join "/" (root_components rest))
  /\
  (is_lower d = true ->
   forall segs,
     Forall normal_component segs ->
     rest = join "/" segs ->
     to_linux w (to_windows w ("/"%char :: d :: "/"%char :: rest))
     = "/"%char :: d :: "/"%char :: rest).
Proof.
  intros Hnl.
  assert (Hback : is_lower d = true ->
            to_linux w (to_windows w ("/"%char :: d :: "/"%char :: rest))
            = "/"%char :: d :: "/"%char :: join "/" (root_components rest)).
  { intros Hl.
    assert (Hd : is_alpha d = true) by (unfold is_alpha; now rewrite Hl, orb_true_r).
    destruct (letter_facts d Hd) as [_ [_ [_ [_ [_ [Hu [_ [_ Hlu]]]]]]]].
    rewrite (to_windows_virtual_drive w d rest Hd Hnl).
    rewrite (to_linux_native_drive w _ _ Hu).
    - rewrite (Hlu Hl). do 3 f_equal.
      apply (replace_char_join "\" "/").
      apply Forall_forall. intros x Hx.
      exact (proj1 (root_components_clean rest x Hnl Hx)).
    - apply forallb_join; [reflexivity|].
      apply Forall_forall. intros x Hx.
      exact (proj2 (root_components_clean rest x Hnl Hx)). }
  split; [|split; [exact Hback|]].
  - intros Hu.
    assert (Hd : is_alpha d = true) by (unfold is_alpha; now rewrite Hu).
    destruct (letter_facts d Hd) as [_ [_ [_ [_ [_ [_ [Hl [Hul _]]]]]]]].
    rewrite (to_linux_native_drive w d rest Hd Hnl).
    rewrite (to_windows_virtual_drive w _ _ Hl).
    + rewrite (Hul Hu), (normpath_drive_root d rest Hd).
      unfold root_components. now rewrite replace_char_back.
    + apply forallb_replace_char; [reflexivity | exact Hnl].
  - intros Hl segs Hsegs ->. rewrite (Hback Hl). do 3 f_equal.
    assert (Hno : forall c, NtPath.is_sep c = true ->
              Forall (fun p => existsb (Ascii.eqb c) p = false) segs).
    { intros c Hc. apply Forall_forall. intros p Hp.
      destruct (proj1 (Forall_forall _ _) Hsegs p Hp) as [_ [_ [_ Hp4]]].
      clear - Hp4 Hc. induction p as [|x p IH]; [reflexivity|].
      simpl in *. apply andb_true_iff in Hp4. destruct Hp4 as [Hx Hp4].
      rewrite (IH Hp4), orb_false_r.
      destruct (Ascii.eqb c x) eqn:E; [|reflexivity].
      apply Ascii.eqb_eq in E. subst x. now rewrite Hc in Hx. }
    unfold root_components.
    change (list_ascii_of_string "/") with ["/"%char].
    rewrite (replace_char_join "/" "\" segs (Hno "/"%char eq_refl)).
    destruct segs as [|s0 segs]; [reflexivity|].
    assert (Hls : NtPath.lstrip_sep (join ["\"%char] (s0 :: segs))
                  = join ["\"%char] (s0 :: segs)).
    { inversion Hsegs as [|? ? [Hne [_ [_ Hs0]]] _]; subst.
      destruct s0 as [|x s0]; [congruence|].
      simpl in Hs0. apply andb_true_iff in Hs0. destruct Hs0 as [Hx _].
      unfold NtPath.is_sep in Hx. apply negb_true_iff, orb_false_iff in Hx.
      destruct Hx as [Hx _].
      assert (J : exists y, join ["\"%char] ((x :: s0) :: segs) = x :: y).
      { destruct segs; [exists s0 | eexists]; reflexivity. }
      destruct J as [y ->]. unfold NtPath.lstrip_sep. cbn [lstrip_chars in_chars existsb].
      now rewrite Hx. }
    change [NtPath.sep] with ["\"%char]. rewrite Hls.
    rewrite (split_join "\"%char (s0 :: segs) ltac:(discriminate)
               (Hno "\"%char eq_refl)).
    rewrite (norm_comps_normal _ [] Hsegs). reflexivity.
Qed.

End Translations.

End PathProperties.

(* ===================================================================== *)
(** * The alias table as a dictionary *)
(* ===================================================================== *)

Module DictFacts.
Import Py PyFacts.

Lemma dict_get_none_iff (k : str) (d : dict) :
  dict_get k d = None <-> ~ In k (map fst d).
Proof.
  induction d as [|[k' v] d IH]; simpl; [tauto|].
  destruct (str_eqb k k') eqn:E.
  - apply str_eqb_eq in E. subst. split; [discriminate | tauto].
  - apply str_eqb_neq in E. rewrite IH. split.
    + intros Hn [Hk|Hk]; [congruence | tauto].
    + tauto.
Qed.

Lemma dict_get_set_other (k k' v : str) (d : dict) :
  k' <> k -> dict_get k' (dict_set k v d) = dict_get k' d.
Proof.
  intros Hne. induction d as [|[k0 v0] d IH]; simpl.
  - apply str_eqb_neq in Hne. now rewrite Hne.
  - destruct (str_eqb k k0) eqn:E; simpl.
    + apply str_eqb_eq in E. subst k0. apply str_eqb_neq in Hne.
      now rewrite Hne.
    + now rewrite IH.
Qed.

Lemma dict_set_keys (k v : str) (d : dict) :
  map fst (dict_set k v d)
  = if dict_mem k d then map fst d else map fst d ++ [k].
Proof.
  unfold dict_mem. induction d as [|[k0 v0] d IH]; simpl; [reflexivity|].
  destruct (str_eqb k k0) eqn:E; simpl.
  - apply str_eqb_eq in E. now subst.
  - rewrite IH. destruct (dict_get k d); reflexivity.
Qed.

Lemma dict_set_unique (k v : str) (d : dict) :
  NoDup (map fst d) -> NoDup (map fst (dict_set k v d)).
Proof.
  intros Hd. rewrite dict_set_keys. unfold dict_mem.
  destruct (dict_get k d) eqn:E; [exact Hd|].
  apply dict_get_none_iff in E.
  apply NoDup_rev in Hd. rewrite <- (rev_involutive (map fst d ++ [k])).
  apply NoDup_rev. rewrite rev_app_distr. simpl. constructor; [|exact Hd].
  now rewrite <- in_rev.
Qed.

Lemma dict_del_keys_incl (k x : str) (d : dict) :
  In x (map fst (dict_del k d)) -> In x (map fst d).
Proof.
  induction d as [|[k0 v0] d IH]; simpl; [tauto|].
  destruct (str_eqb k k0); simpl; tauto.
Qed.

Lemma dict_del_unique (k : str) (d : dict) :
  NoDup (map fst d) -> NoDup (map fst (dict_del k d)).
Proof.
  induction d as [|[k0 v0] d IH]; simpl; [auto|].
  intros Hd. inversion Hd as [|? ? Hin Hd']; subst.
  destruct (str_eqb k k0); simpl; [exact Hd'|].
  constructor; [|auto]. intros Hx. apply Hin.
  exact (dict_del_keys_incl _ _ _ Hx).
Qed.

Lemma dict_get_del_eq (k : str) (d : dict) :
  NoDup (map fst d) -> dict_get k (dict_del k d) = None.
Proof.
  induction d as [|[k0 v0] d IH]; simpl; [reflexivity|].
  intros Hd. inversion Hd as [|? ? Hin Hd']; subst.
  destruct (str_eqb k k0) eqn:E; simpl.
  - apply str_eqb_eq in E. subst. now apply dict_get_none_iff.
  - rewrite E. auto.
Qed.

Lemma dict_get_del_other (k k' : str) (d : dict) :
  k' <> k -> dict_get k' (dict_del k d) = dict_get k' d.
Proof.
  intros Hne. induction d as [|[k0 v0] d IH]; simpl; [reflexivity|].
  destruct (str_eqb k k0) eqn:E; simpl.
  - apply str_eqb_eq in E. subst k0. apply str_eqb_neq in Hne.
    now rewrite Hne.
  - now rewrite IH.
Qed.

End DictFacts.

(* ===================================================================== *)
(** * What a run of [execute] keeps *)
(* ===================================================================== *)

Section Keeps.

Context {W : Type} `{Host W}.
Import Py PyFacts SplitFacts DictFacts.

Ltac registry_eqns Hc :=
  unfold commands in Hc;
  repeat match type of Hc with
         | context [if ?b then _ else _] => destruct b eqn:?
         end;
  inversion Hc; subst; clear Hc.

Variable P : Terminal W -> Prop.

Hypothesis keeps_history : forall cl t, P t -> P (history_append cl t).
Hypothesis keeps_world : forall w t, P t -> P (set_world w t).
Hypothesis keeps_handlers :
  forall cmd h args t, commands cmd = Some h -> P t -> P (snd (h args t)).

Lemma dispatch_keeps (cl : str) (t : Terminal W) :
  P t -> P (snd (dispatch cl t)).
Proof.
  intros Ht. unfold dispatch.
  destruct (parse_command (aliases t) cl) as [cmd args].
  destruct (commands cmd) as [h|] eqn:Hc.
  - pose proof (keeps_handlers cmd h args t Hc Ht) as Hh.
    destruct (h args t) as [[r|[e|e]] t']; exact Hh.
  - unfold _execute_external.
    destruct (subprocess_run _ _ _) as [[[o e]|[e|e]] w]; simpl;
      apply keeps_world; exact Ht.
Qed.

Lemma pipe_loop_keeps (exec : str -> Terminal W -> result W) :
  (forall x t r t', P t -> exec x t = Some (r, t') -> P t') ->
  forall cmds output t r t',
    P t -> pipe_loop exec cmds output t = Some (r, t') -> P t'.
Proof.
  intros Hx cmds. induction cmds as [|cmd cmds IH]; intros output t r t' Ht;
    simpl.
  - intros E; inversion E; subst; exact Ht.
  - destruct (parse_command (aliases t) (strip cmd)).
    assert (forall x : result W, (if negb (is_empty output) then x else x) = x)
      as -> by (intros; destruct (negb _); reflexivity).
    destruct (exec (strip cmd) t) as [[[o|e] t1]|] eqn:Ex; [| |discriminate].
    + apply IH. exact (Hx _ _ _ _ Ht Ex).
    + intros E; inversion E; subst. exact (Hx _ _ _ _ Ht Ex).
Qed.

Lemma handle_redirect_keeps (exec : str -> Terminal W -> result W) :
  (forall x t r t', P t -> exec x t = Some (r, t') -> P t') ->
  forall cl t r t',
    P t -> _handle_redirect exec cl t = Some (r, t') -> P t'.
Proof.
  intros Hx cl t r t' Ht. unfold _handle_redirect.
  destruct (if contains ">>" cl then split ">>" cl else split ">" cl)
    as [|p0 [|p1 [|p2 ps]]];
    try (intros E; inversion E; subst; exact Ht).
  destruct (exec (strip p0) t) as [[[o|e] t1]|] eqn:Ex; [| |discriminate].
  - pose proof (Hx _ _ _ _ Ht Ex) as H1.
    destruct (write_text _ _ _ _) as [[u|[e|e]] w];
      intros E; inversion E; subst; apply keeps_world; exact H1.
  - intros E; inversion E; subst. exact (Hx _ _ _ _ Ht Ex).
Qed.

Lemma execute_body_keeps (exec : str -> Terminal W -> result W) :
  (forall x t r t', P t -> exec x t = Some (r, t') -> P t') ->
  forall line t r t',
    P t -> execute_body exec line t = Some (r, t') -> P t'.
Proof.
  intros Hx line t r t' Ht. unfold execute_body.
  destruct (is_empty (strip line) || startswith "#" (strip line)).
  { intros E; inversion E; subst; exact Ht. }
  pose proof (keeps_history (strip line) t Ht) as H0.
  destruct (contains "|" (strip line)).
  { apply (pipe_loop_keeps exec Hx); exact H0. }
  destruct (contains ">" (strip line) || contains ">>" (strip line)).
  { apply (handle_redirect_keeps exec Hx); exact H0. }
  intros E; inversion E as [E']. 
  pose proof (dispatch_keeps (strip line) _ H0) as Hd.
  rewrite E' in Hd. exact Hd.
Qed.

Lemma execute_fuel_keeps (k : nat) :
  forall line t r t', P t -> execute_fuel k line t = Some (r, t') -> P t'.
Proof.
  induction k as [|k IH]; intros line t r t' Ht; simpl; [discriminate|].
  apply (execute_body_keeps _ IH); exact Ht.
Qed.

Lemma execute_keeps (line : str) (t : Terminal W) :
  P t -> P (snd (execute line t)).
Proof.
  intros Ht. pose proof (execute_fuel_enough 0 line t) as E.
  destruct (execute line t) as [r t'].
  exact (execute_fuel_keeps _ _ _ _ _ Ht E).
Qed.

Lemma execute_call_keeps (x : str) (t : Terminal W) (r : outcome str)
    (t' : Terminal W) :
  P t -> execute_call x t = Some (r, t') -> P t'.
Proof.
  intros Ht E. unfold execute_call in E. inversion E as [E'].
  pose proof (execute_keeps x t Ht) as Hk. rewrite E' in Hk. exact Hk.
Qed.

End Keeps.

(* ===================================================================== *)
(** * Sessions: what [execute] records, keeps and reports *)
(* ===================================================================== *)

Section SessionProperties.

Context {W : Type} `{Host W}.
Import Py PyFacts SplitFacts DictFacts.

Ltac registry_eqns Hc :=
  unfold commands in Hc;
  repeat match type of Hc with
         | context [if ?b then _ else _] => destruct b eqn:?
         end;
  inversion Hc; subst; clear Hc.

Lemma handler_running (cmd : str) (h : handler W) (args : list str)
    (t : Terminal W) :
  commands cmd = Some h ->
  running (snd (h args t)) = running t \/ running (snd (h args t)) = false.
Proof.
  intros Hc. registry_eqns Hc; simpl; auto.
  - left. unfold call. destruct (collaborator _ _ _ _); reflexivity.
  - left. unfold call. destruct (collaborator _ _ _ _); reflexivity.
  - left. unfold _cd. destruct (FileCommands.cd _ _ _) as [[[c o]|e] w1];
      simpl; [destruct (chdir _ _) as [[u|e] w2]|]; reflexivity.
  - left. destruct (SystemCommands.alias _ _ _); reflexivity.
  - left. destruct args; reflexivity.
Qed.

Lemma alias_loop_unique (args : list str) :
  forall d, NoDup (map fst d) ->
            NoDup (map fst (snd (SystemCommands.alias_loop args d))).
Proof.
  induction args as [|arg args IH]; intros d Hd; simpl; [exact Hd|].
  destruct (contains _ arg).
  - destruct (split1 _ arg) as [|name [|value [|x xs]]]; auto.
    apply IH. now apply dict_set_unique.
  - destruct (dict_get arg d); simpl; auto.
Qed.

Lemma alias_unique (args : list str) (cwd : str) (d : dict) :
  NoDup (map fst d) ->
  NoDup (map fst (snd (SystemCommands.alias args cwd d))).
Proof.
  intros Hd. unfold SystemCommands.alias. destruct args as [|a args];
    [exact Hd|].
  pose proof (alias_loop_unique (a :: args) d Hd) as Hl.
  destruct (SystemCommands.alias_loop (a :: args) d) as [[text|u] d'];
    exact Hl.
Qed.

Lemma unalias_unique (args : list str) (cwd : str) (d : dict) :
  NoDup (map fst d) ->
  NoDup (map fst (snd (SystemCommands.unalias args cwd d))).
Proof.
  unfold SystemCommands.unalias. simpl. revert d.
  induction args as [|a args IH]; intros d Hd; simpl; [exact Hd|].
  apply IH. destruct (dict_mem a d); [now apply dict_del_unique | exact Hd].
Qed.

Lemma handler_alias_keys (cmd : str) (h : handler W) (args : list str)
    (t : Terminal W) :
  commands cmd = Some h ->
  NoDup (map fst (aliases t)) ->
  NoDup (map fst (aliases (snd (h args t)))).
Proof.
  intros Hc Hd. registry_eqns Hc; simpl; auto.
  - unfold call. destruct (collaborator _ _ _ _); exact Hd.
  - unfold call. destruct (collaborator _ _ _ _); exact Hd.
  - unfold _cd. destruct (FileCommands.cd _ _ _) as [[[c o]|e] w1];
      simpl; [destruct (chdir _ _) as [[u|e] w2]|]; exact Hd.
  - pose proof (alias_unique args (cwd t) (aliases t) Hd) as Ha.
    destruct (SystemCommands.alias _ _ _); exact Ha.
  - exact (unalias_unique args (cwd t) (aliases t) Hd).
  - destruct args; exact Hd.
Qed.

(** The names of the alias table stay distinct, whatever is executed. *)
Lemma alias_keys_stay_unique (line : str) (t : Terminal W) :
  NoDup (map fst (aliases t)) ->
  NoDup (map fst (aliases (snd (execute line t)))).
Proof.
  apply (execute_keeps (fun t => NoDup (map fst (aliases t)))); auto.
  intros cmd h args t0. apply handler_alias_keys.
Qed.

(** X1.  [execute] returns for every line, and the calls of [execute]
    inside one another are bounded by what the line holds: one call for a
    line without [|] and [>], at most two with a [>], three with a [>>],
    four with a [|]. *)
Theorem execute_nesting_is_bounded (line : str) (t : Terminal W) (n : nat) :
  depth (strip line) <= 3
  /\ (depth (strip line) < n ->
      execute_fuel n line t = Some (execute line t)).
Proof.
  split; [apply depth_le_3 | apply execute_fuel_depth].
Qed.

(** X2.  The history only grows, and only at its end: the history after
    [execute] is the history before followed by new entries; for a line
    that runs the first new entry is the stripped line; and the history is
    unchanged exactly for the blank lines and the comment lines. *)
Theorem history_is_append_only (line : str) (t : Terminal W) :
  (exists added, history (snd (execute line t)) = history t ++ added)
  /\ (runs line ->
      exists more,
        history (snd (execute line t)) = history t ++ strip line :: more)
  /\ (history (snd (execute line t)) = history t <-> ~ runs line).
Proof.
  assert (Hruns : runs line ->
            exists more,
              history (snd (execute line t))
              = history t ++ strip line :: more).
  { intros Hr.
    set (P := fun t' : Terminal W =>
                exists more, history t' = history t ++ strip line :: more).
    assert (K1 : forall cl t', P t' -> P (history_append cl t')).
    { intros cl t' [more E]. exists (more ++ [cl]). simpl. rewrite E.
      now rewrite <- app_assoc. }
    assert (K2 : forall w t', P t' -> P (set_world w t'))
      by (intros; assumption).
    assert (K3 : forall cmd h args t',
               commands cmd = Some h -> P t' -> P (snd (h args t'))).
    { intros cmd h args t' Hc [more E]. exists more.
      now rewrite (handler_history cmd h args t' Hc). }
    assert (P0 : P (history_append (strip line) t))
      by (exists []; reflexivity).
    pose proof (execute_unfold line t) as E. unfold execute_body in E.
    rewrite Hr in E. destruct (execute line t) as [r t']. simpl.
    destruct (contains "|" (strip line)).
    { exact (pipe_loop_keeps P execute_call
               (fun x t0 r0 t1 => execute_call_keeps P K1 K2 K3 x t0 r0 t1)
               _ _ _ _ _ P0 E). }
    destruct (contains ">" (strip line) || contains ">>" (strip line)).
    { exact (handle_redirect_keeps P K2 execute_call
               (fun x t0 r0 t1 => execute_call_keeps P K1 K2 K3 x t0 r0 t1)
               _ _ _ _ P0 E). }
    inversion E as [E'].
    pose proof (dispatch_keeps P K2 K3 (strip line) _ P0) as D.
    rewrite E' in D. exact D. }
  assert (Hskip : ~ runs line -> execute line t = (Return [], t)).
  { intros Hn. apply execute_skips. unfold runs in Hn.
    destruct (is_empty (strip line) || startswith "#" (strip line));
      [reflexivity | now elim Hn]. }
  split; [|split; [exact Hruns|split]].
  - destruct (is_empty (strip line) || startswith "#" (strip line)) eqn:Hb.
    + rewrite (execute_skips line t Hb). exists []. now rewrite app_nil_r.
    + destruct (Hruns Hb) as [more E]. eauto.
  - intros E Hr. destruct (Hruns Hr) as [more E']. rewrite E' in E.
    apply (f_equal (@length str)) in E. rewrite length_app in E. simpl in E.
    lia.
  - intros Hn. now rewrite (Hskip Hn).
Qed.

Lemma dispatch_state (cl : str) (t : Terminal W) :
  snd (dispatch cl t)
  = match commands (fst (parse_command (aliases t) cl)) with
    | Some h => snd (h (snd (parse_command (aliases t) cl)) t)
    | None => snd (_execute_external cl t)
    end.
Proof.
  unfold dispatch. destruct (parse_command (aliases t) cl) as [cmd args].
  simpl. destruct (commands cmd) as [h|]; [|reflexivity].
  destruct (h args t) as [[o|[e|e]] t']; reflexivity.
Qed.

Lemma execute_external_state (cl : str) (t : Terminal W) :
  exists w, snd (_execute_external cl t) = set_world w t.
Proof.
  unfold _execute_external.
  destruct (subprocess_run cl (cwd t) (world t)) as [[[o e]|[e|e]] w];
    exists w; reflexivity.
Qed.

Lemma handler_footprint (cmd : str) (h : handler W) (args : list str)
    (t : Terminal W) :
  commands cmd = Some h ->
  let t' := snd (h args t) in
  (cmd <> "cd" -> cwd t' = cwd t)
  /\ (cmd <> "alias" -> cmd <> "unalias" -> aliases t' = aliases t)
  /\ (cmd <> "exit" -> cmd <> "quit" -> running t' = running t).
Proof.
  intros Hc. registry_eqns Hc; simpl;
    repeat match goal with
           | E : str_eqb _ _ = true |- _ => apply str_eqb_eq in E; subst
           | E : _ || _ = true |- _ => apply orb_true_iff in E; destruct E
           end;
    repeat split; intros;
    try (exfalso;
         match goal with Hn : _ <> _ |- _ => apply Hn; reflexivity end);
    try (unfold call; destruct (collaborator _ _ _ _); reflexivity);
    try (unfold _cd; destruct (FileCommands.cd _ _ _) as [[[c o]|e] w1];
         simpl; [destruct (chdir _ _) as [[u|e] w2]|]; reflexivity);
    try (destruct (SystemCommands.alias _ _ _); reflexivity);
    try (destruct args; reflexivity).
Qed.

(** X3.  What a line without [|] and [>] can change.  It adds one entry to
    the history; the directory of the session changes only under [cd], the
    alias table only under [alias] and [unalias], and the session is
    stopped only by [exit] and [quit], where the command is the one the
    line is parsed to. *)
Theorem plain_command_footprint (line cmd : str) (args : list str)
    (t : Terminal W) :
  runs line ->
  contains "|" (strip line) = false ->
  contains ">" (strip line) = false ->
  parse_command (aliases t) (strip line) = (cmd, args) ->
  let t' := snd (execute line t) in
  history t' = history t ++ [strip line]
  /\ (cmd <> "cd" -> cwd t' = cwd t)
  /\ (cmd <> "alias" -> cmd <> "unalias" -> aliases t' = aliases t)
  /\ (cmd <> "exit" -> cmd <> "quit" -> running t' = running t).
Proof.
  intros Hr Hp Hg Hparse. simpl.
  rewrite (execute_plain line t Hr Hp Hg).
  split; [now rewrite dispatch_history|].
  rewrite dispatch_state.
  change (aliases (history_append (strip line) t)) with (aliases t).
  rewrite Hparse. simpl.
  destruct (commands cmd) as [h|] eqn:Hc.
  - exact (handler_footprint cmd h args _ Hc).
  - destruct (execute_external_state (strip line)
                (history_append (strip line) t)) as [w ->].
    repeat split; reflexivity.
Qed.

(** X4.  A command that is not in the registry is handed to the system
    shell as the line that was typed, stripped: the alias expansion that
    chose the command name is not applied to it.  The result is the
    captured output without its trailing white space, and an [Exception]
    of the call becomes a message. *)
Theorem unregistered_command_runs_typed_line (line cmd : str)
    (args : list str) (t : Terminal W) :
  runs line ->
  contains "|" (strip line) = false ->
  contains ">" (strip line) = false ->
  parse_command (aliases t) (strip line) = (cmd, args) ->
  commands (W := W) cmd = None ->
  (forall stdout stderr w,
      subprocess_run (strip line) (cwd t) (world t)
      = (Return (stdout, stderr), w) ->
      execute line t
      = (Return (rstrip (stdout ++ stderr)),
         set_world w (history_append (strip line) t)))
  /\ (forall msg w,
      subprocess_run (strip line) (cwd t) (world t)
      = (Raise (Exception msg), w) ->
      execute line t
      = (Return (ColorOutput.error ("Command failed: " ++ msg)),
         set_world w (history_append (strip line) t))).
Proof.
  intros Hr Hp Hg Hparse Hc.
  rewrite (execute_plain line t Hr Hp Hg). unfold dispatch.
  change (aliases (history_append (strip line) t)) with (aliases t).
  rewrite Hparse, Hc. unfold _execute_external.
  change (cwd (history_append (strip line) t)) with (cwd t).
  change (world (history_append (strip line) t)) with (world t).
  split; intros; rewrite H0; reflexivity.
Qed.

(** X5.  [execute] never restarts a session: once [running] is false it
    stays false, whatever line is executed. *)
Theorem stopped_session_stays_stopped (line : str) (t : Terminal W) :
  running t = false -> running (snd (execute line t)) = false.
Proof.
  apply (execute_keeps (fun t => running t = false)); auto.
  intros cmd h args t0 Hc E.
  destruct (handler_running cmd h args t0 Hc) as [R|R]; congruence.
Qed.

End SessionProperties.

(* ===================================================================== *)
(** * The tokens of a command line *)
(* ===================================================================== *)

Section TokenProperties.

Import Py PyFacts.

Lemma split_ws_blank (c : ascii) (s : str) :
  isspace c = true -> split_ws (c :: s) = split_ws s.
Proof. intros E. simpl. now rewrite E. Qed.

(** the words of [c :: s] when [c] is not white space *)
Lemma split_ws_letter (c : ascii) (s : str) :
  isspace c = false -> split_ws (c :: s) = glue [c] s.
Proof.
  intros E. simpl. rewrite E. destruct s as [|c' s']; [reflexivity|].
  unfold glue. destruct (isspace c') eqn:E'.
  - now rewrite (split_ws_blank c' s' E').
  - destruct (split_ws (c' :: s')); reflexivity.
Qed.

Lemma glue_step (tok : str) (c : ascii) (s : str) :
  isspace c = false -> glue (tok ++ [c]) s = glue tok (c :: s).
Proof.
  intros E. unfold glue at 2. rewrite E, (split_ws_letter c s E).
  destruct s as [|c' s']; [reflexivity|]. unfold glue.
  destruct (isspace c'); [reflexivity|].
  destruct (split_ws (c' :: s')); [reflexivity|].
  now rewrite <- app_assoc.
Qed.

Lemma lex_unquoted (s : str) :
  forallb unquoted s = true ->
  Shlex.lex Shlex.Blank [] s = Some (split_ws s)
  /\ forall tok, Shlex.lex Shlex.Word tok s = Some (glue tok s).
Proof.
  induction s as [|c s IH]; intros Hs; [split; reflexivity|].
  simpl in Hs. apply andb_true_iff in Hs. destruct Hs as [Hc Hs].
  destruct (IH Hs) as [IHb IHw]. unfold unquoted in Hc.
  apply andb_true_iff in Hc. destruct Hc as [Hc Hw].
  apply andb_true_iff in Hc. destruct Hc as [Hq He].
  apply negb_true_iff in Hq, He. apply eqb_prop in Hw.
  split; [|intros tok]; simpl Shlex.lex; rewrite <- Hw, ?Hq, ?He;
    destruct (isspace c) eqn:Ec.
  - now rewrite (split_ws_blank c s Ec).
  - now rewrite IHw, (split_ws_letter c s Ec).
  - rewrite IHb. unfold glue. now rewrite Ec.
  - now rewrite IHw, (glue_step tok c s Ec).
Qed.

(** X6.  A line without quotes and backslashes, whose white space is the
    space, TAB, CR and LF, is cut into its words: [shlex.split] accepts it
    and gives what [split()] gives, so the command is the first word and
    the arguments are the others. *)
Theorem unquoted_line_splits_into_words (s : str) :
  forallb unquoted s = true ->
  Shlex.split s = Some (split_ws s)
  /\ tokenize s = (hd [] (split_ws s), tl (split_ws s)).
Proof.
  intros Hs. destruct (lex_unquoted s Hs) as [E _].
  split; [exact E|]. unfold tokenize, Shlex.split. rewrite E.
  destruct (split_ws s); reflexivity.
Qed.

Lemma lex_never_closed (q : ascii) (b : str) :
  existsb (Ascii.eqb q) b = false ->
  forall tok,
    Shlex.lex (Shlex.Quoted q) tok b = None
    /\ Shlex.lex (Shlex.Escaped (Some q)) tok b = None.
Proof.
  induction b as [|c b IH]; intros Hb tok; [split; reflexivity|].
  simpl in Hb. apply orb_false_iff in Hb. destruct Hb as [Hc Hb].
  rewrite Ascii.eqb_sym in Hc. simpl. rewrite Hc.
  split.
  - destruct (Shlex.escape c && Shlex.escapedquotes q); now apply IH.
  - destruct (negb (Shlex.escape c) && negb false); now apply IH.
Qed.

Lemma lex_open_quote (a : str) (q : ascii) (b : str) :
  forallb (fun c => negb (Shlex.quotes c) && negb (Shlex.escape c)) a = true ->
  Shlex.quotes q = true ->
  existsb (Ascii.eqb q) b = false ->
  Shlex.lex Shlex.Blank [] (a ++ q :: b) = None
  /\ forall tok, Shlex.lex Shlex.Word tok (a ++ q :: b) = None.
Proof.
  intros Ha Hq Hb.
  assert (Hqw : Shlex.whitespace q = false /\ Shlex.escape q = false).
  { unfold Shlex.quotes, in_chars in Hq. simpl in Hq.
    rewrite orb_false_r in Hq. apply orb_true_iff in Hq.
    destruct Hq as [E|E]; apply Ascii.eqb_eq in E; subst q;
      split; reflexivity. }
  destruct Hqw as [Hw He].
  induction a as [|c a IH].
  - simpl. rewrite Hw, He, Hq.
    split; [|intros tok]; now apply lex_never_closed.
  - simpl in Ha. apply andb_true_iff in Ha. destruct Ha as [Hc Ha].
    apply andb_true_iff in Hc. destruct Hc as [Hcq Hce].
    apply negb_true_iff in Hcq, Hce. destruct (IH Ha) as [IHb IHw].
    split; [|intros tok]; simpl; rewrite Hcq, Hce;
      destruct (Shlex.whitespace c); rewrite ?IHb, ?IHw; reflexivity.
Qed.

(** X7.  A line whose first quote is never closed (an apostrophe, say) is
    refused by [shlex.split], and the line is then cut at white space, the
    quote staying in its word. *)
Theorem unclosed_quote_falls_back_to_words (a b : str) (q : ascii) :
  forallb (fun c => negb (Shlex.quotes c) && negb (Shlex.escape c)) a = true ->
  Shlex.quotes q = true ->
  existsb (Ascii.eqb q) b = false ->
  Shlex.split (a ++ q :: b) = None
  /\ tokenize (a ++ q :: b)
     = (hd [] (split_ws (a ++ q :: b)), tl (split_ws (a ++ q :: b))).
Proof.
  intros Ha Hq Hb. destruct (lex_open_quote a q b Ha Hq Hb) as [E _].
  split; [exact E|]. unfold tokenize, Shlex.split. rewrite E.
  destruct (split_ws (a ++ q :: b)); reflexivity.
Qed.

Lemma lex_bare_word (a : str) :
  forallb bare a = true ->
  forall tok s, Shlex.lex Shlex.Word tok (a ++ s)
                = Shlex.lex Shlex.Word (tok ++ a) s.
Proof.
  induction a as [|c a IH]; intros Ha tok s.
  - now rewrite app_nil_r.
  - simpl in Ha. apply andb_true_iff in Ha. destruct Ha as [Hc Ha].
    unfold bare in Hc. apply andb_true_iff in Hc. destruct Hc as [Hc He].
    apply andb_true_iff in Hc. destruct Hc as [Hw Hq].
    apply negb_true_iff in Hw, Hq, He. simpl. rewrite Hw, Hq, He.
    rewrite (IH Ha). now rewrite <- app_assoc.
Qed.

Lemma lex_bare_start (c : ascii) (a s : str) :
  forallb bare (c :: a) = true ->
  Shlex.lex Shlex.Blank [] ((c :: a) ++ s) = Shlex.lex Shlex.Word (c :: a) s.
Proof.
  intros Ha. simpl in Ha. apply andb_true_iff in Ha. destruct Ha as [Hc Ha].
  unfold bare in Hc. apply andb_true_iff in Hc. destruct Hc as [Hc He].
  apply andb_true_iff in Hc. destruct Hc as [Hw Hq].
  apply negb_true_iff in Hw, Hq, He. simpl. rewrite Hw, Hq, He.
  exact (lex_bare_word a Ha [c] s).
Qed.

Lemma quote_is_no_blank (q : ascii) :
  Shlex.quotes q = true ->
  Shlex.whitespace q = false /\ Shlex.escape q = false.
Proof.
  intros Hq. unfold Shlex.quotes, in_chars in Hq. cbn [existsb] in Hq.
  rewrite orb_false_r in Hq. apply orb_true_iff in Hq.
  destruct Hq as [E|E]; apply Ascii.eqb_eq in E; subst q; split; reflexivity.
Qed.

Lemma lex_quoted (q : ascii) (v : str) :
  existsb (Ascii.eqb q) v = false ->
  (Shlex.escapedquotes q = true -> existsb Shlex.escape v = false) ->
  forall tok s,
    Shlex.lex (Shlex.Quoted q) tok (v ++ q :: s)
    = Shlex.lex Shlex.Word (tok ++ v) s.
Proof.
  induction v as [|c v IH]; intros Hv He tok s.
  - cbn [app Shlex.lex]. now rewrite Ascii.eqb_refl, app_nil_r.
  - cbn [existsb] in Hv. apply orb_false_iff in Hv. destruct Hv as [Hc Hv].
    rewrite Ascii.eqb_sym in Hc.
    change ((c :: v) ++ q :: s) with (c :: (v ++ q :: s)).
    cbn [Shlex.lex]. rewrite Hc.
    assert (Hx : Shlex.escape c && Shlex.escapedquotes q = false).
    { destruct (Shlex.escapedquotes q) eqn:Eq; [|apply andb_false_r].
      specialize (He eq_refl). cbn [existsb] in He.
      apply orb_false_iff in He. now rewrite (proj1 He). }
    rewrite Hx. rewrite IH.
    + now rewrite <- app_assoc.
    + exact Hv.
    + intros Eq. specialize (He Eq). cbn [existsb] in He.
      apply orb_false_iff in He. exact (proj2 He).
Qed.

Lemma tokenize_quoted_word (cmd pre text : str) (q : ascii) :
  cmd <> [] ->
  forallb bare cmd = true ->
  forallb bare pre = true ->
  Shlex.quotes q = true ->
  existsb (Ascii.eqb q) text = false ->
  (Shlex.escapedquotes q = true -> existsb Shlex.escape text = false) ->
  tokenize (cmd ++ " "%char :: pre ++ q :: text ++ [q]) = (cmd, [pre ++ text]).
Proof.
  intros Hne Hcmd Hpre Hq Htext Hesc. unfold tokenize, Shlex.split.
  destruct (quote_is_no_blank q Hq) as [Hw He].
  destruct cmd as [|c cmd]; [now elim Hne|].
  rewrite (lex_bare_start c cmd _ Hcmd).
  assert (E : Shlex.lex Shlex.Blank [] (pre ++ q :: text ++ [q])
              = Some [pre ++ text]).
  { destruct pre as [|p pre].
    - cbn [app Shlex.lex]. rewrite Hw, He, Hq.
      now rewrite (lex_quoted q text Htext Hesc [] []).
    - rewrite (lex_bare_start p pre _ Hpre).
      cbn [Shlex.lex]. rewrite Hw, Hq.
      now rewrite (lex_quoted q text Htext Hesc (p :: pre) []). }
  cbn [Shlex.lex].
  change (Shlex.whitespace " ") with true. cbv iota.
  now rewrite E.
Qed.

Lemma tokenize_single_quoted (cmd pre text : str) :
  cmd <> [] ->
  forallb bare cmd = true ->
  forallb bare pre = true ->
  existsb (Ascii.eqb "'"%char) text = false ->
  tokenize (cmd ++ " " ++ pre ++ "'" ++ text ++ "'")
  = (cmd, [pre ++ text]).
Proof.
  intros Hne Hcmd Hpre Htext.
  apply (tokenize_quoted_word cmd pre text "'"%char); auto. discriminate.
Qed.

(** X8.  Between quotes of one kind every character is kept as it is,
    white space and the other quote included (and backslashes too between
    single quotes), and the quoted text joins the word it is written in:
    [cmd pre'text'] is the command [cmd] with the one argument
    [pre ++ text]. *)
Theorem quotes_keep_text (cmd pre text : str) (q : ascii) :
  cmd <> [] ->
  forallb bare cmd = true ->
  forallb bare pre = true ->
  Shlex.quotes q = true ->
  existsb (Ascii.eqb q) text = false ->
  (q = dquote -> existsb Shlex.escape text = false) ->
  tokenize (cmd ++ " "%char :: pre ++ q :: text ++ [q]) = (cmd, [pre ++ text]).
Proof.
  intros Hne Hcmd Hpre Hq Htext Hesc.
  apply tokenize_quoted_word; auto.
  intros Eq. apply Hesc. unfold Shlex.escapedquotes in Eq.
  now apply Ascii.eqb_eq in Eq.
Qed.

End TokenProperties.

(* ===================================================================== *)
(** * [alias], [unalias] and [history] *)
(* ===================================================================== *)

Section AliasTable.

Import Py PyFacts DictFacts.

Lemma split1_first (sep : ascii) (name value : str) :
  existsb (Ascii.eqb sep) name = false ->
  split1 sep (name ++ sep :: value) = [name; value].
Proof.
  induction name as [|c name IH]; intros Hn.
  - simpl. now rewrite Ascii.eqb_refl.
  - cbn [existsb] in Hn. apply orb_false_iff in Hn. destruct Hn as [Hc Hn].
    rewrite Ascii.eqb_sym in Hc.
    change ((c :: name) ++ sep :: value) with (c :: (name ++ sep :: value)).
    cbn [split1]. rewrite Hc, (IH Hn). reflexivity.
Qed.

Lemma alias_loop_define (name value : str) (rest : list str) (d : dict) :
  existsb (Ascii.eqb "="%char) name = false ->
  SystemCommands.alias_loop ((name ++ "=" ++ value) :: rest) d
  = SystemCommands.alias_loop rest
      (dict_set name (strip_chars alias_quotes value) d).
Proof.
  intros Hn. cbn [SystemCommands.alias_loop].
  assert (C : contains "=" (name ++ "=" ++ value) = true).
  { apply contains_iff. exists name, value. reflexivity. }
  rewrite C.
  change (name ++ list_ascii_of_string "=" ++ value)
    with (name ++ "="%char :: value).
  now rewrite (split1_first "="%char name value Hn).
Qed.

Lemma alias_loop_query (pre : list str) (name v : str) (rest : list str)
    (d : dict) :
  Forall (fun p => contains "=" p = false /\ dict_get p d = None) pre ->
  contains "=" name = false ->
  dict_get name d = Some v ->
  SystemCommands.alias_loop (pre ++ name :: rest) d
  = (inl (SystemCommands.alias_line (name, v)), d).
Proof.
  intros Hpre Hn Hv. induction Hpre as [|p pre [Hp Hd] _ IH].
  - cbn [app SystemCommands.alias_loop]. now rewrite Hn, Hv.
  - cbn [app SystemCommands.alias_loop]. now rewrite Hp, Hd.
Qed.

Lemma alias_loop_unknown (args : list str) (d : dict) :
  Forall (fun p => contains "=" p = false /\ dict_get p d = None) args ->
  SystemCommands.alias_loop args d = (inr tt, d).
Proof.
  intros Ha. induction Ha as [|p args [Hp Hd] _ IH]; [reflexivity|].
  cbn [SystemCommands.alias_loop]. now rewrite Hp, Hd.
Qed.

(** X9.  [alias name=value] stores the value, without the quote characters
    around it, under the name and returns nothing; the other names keep
    what they had.  The name is what stands before the first [=]. *)
Theorem alias_definition_is_stored (name value cwd : str) (d : dict) :
  existsb (Ascii.eqb "="%char) name = false ->
  let r := SystemCommands.alias [name ++ "=" ++ value] cwd d in
  fst r = []
  /\ dict_get name (snd r) = Some (strip_chars alias_quotes value)
  /\ (forall k, k <> name -> dict_get k (snd r) = dict_get k d).
Proof.
  intros Hn. unfold SystemCommands.alias.
  rewrite (alias_loop_define name value [] d Hn). simpl.
  split; [reflexivity|]. split.
  - apply dict_get_set_eq.
  - intros k Hk. now apply dict_get_set_other.
Qed.

(** X10.  [alias] with names to show stops at the first one that is
    defined: it returns that definition and ignores every argument after
    it, definitions included.  Names that are not defined are passed over
    without a message, and a call with only such names returns nothing.
    The table is unchanged in both cases. *)
Theorem alias_query_stops_at_first_known (pre : list str) (cwd : str)
    (d : dict) :
  Forall (fun p => contains "=" p = false /\ dict_get p d = None) pre ->
  (forall name v rest,
      contains "=" name = false ->
      dict_get name d = Some v ->
      SystemCommands.alias (pre ++ name :: rest) cwd d
      = ("alias " ++ name ++ "='" ++ v ++ "'", d))
  /\ (pre <> [] -> SystemCommands.alias pre cwd d = ([], d)).
Proof.
  intros Hpre. split.
  - intros name v rest Hn Hv. unfold SystemCommands.alias.
    rewrite (alias_loop_query pre name v rest d Hpre Hn Hv).
    destruct pre; reflexivity.
  - intros Hne. unfold SystemCommands.alias.
    rewrite (alias_loop_unknown pre d Hpre). destruct pre; [now elim Hne|].
    reflexivity.
Qed.

Lemma unalias_lookup (args : list str) (k : str) :
  forall d,
    NoDup (map fst d) ->
    dict_get k
      (fold_left (fun d arg => if dict_mem arg d then dict_del arg d else d)
                 args d)
    = if existsb (str_eqb k) args then None else dict_get k d.
Proof.
  set (f := fun (d : dict) (arg : str) =>
              if dict_mem arg d then dict_del arg d else d).
  induction args as [|a args IH]; intros d Hd; [reflexivity|].
  change (fold_left f (a :: args) d) with (fold_left f args (f d a)).
  change (existsb (str_eqb k) (a :: args))
    with (str_eqb k a || existsb (str_eqb k) args).
  assert (Hd' : NoDup (map fst (f d a))).
  { unfold f. destruct (dict_mem a d);
      [now apply dict_del_unique | exact Hd]. }
  rewrite (IH _ Hd').
  destruct (str_eqb k a) eqn:E.
  - apply str_eqb_eq in E. subst a. cbn [orb].
    destruct (existsb (str_eqb k) args); [reflexivity|].
    unfold f, dict_mem. destruct (dict_get k d) eqn:G.
    + now apply dict_get_del_eq.
    + exact G.
  - cbn [orb]. destruct (existsb (str_eqb k) args); [reflexivity|].
    apply str_eqb_neq in E. unfold f.
    destruct (dict_mem a d); [now apply dict_get_del_other | reflexivity].
Qed.

(** X11.  After [unalias], the names given are not defined any more and
    every other name has the value it had; a name that was not defined is
    passed over, and nothing is returned. *)
Theorem unalias_removes_the_names (args : list str) (cwd : str) (d : dict) :
  NoDup (map fst d) ->
  fst (SystemCommands.unalias args cwd d) = []
  /\ forall k,
       dict_get k (snd (SystemCommands.unalias args cwd d))
       = if existsb (str_eqb k) args then None else dict_get k d.
Proof.
  intros Hd. split; [reflexivity|]. intros k.
  exact (unalias_lookup args k d Hd).
Qed.

(** X12.  The argument of [history] at its edges: an argument that is not
    a number is the same as no argument; a count of zero or less lists
    nothing; a count that is not below the length lists the whole history,
    numbered from 1. *)
Theorem history_count_edges (a : str) (rest : list str) (cwd : str)
    (h : list str) :
  (int a = None ->
   SystemCommands.history (a :: rest) cwd h = SystemCommands.history [] cwd h)
  /\ (forall c, int a = Some c -> (c <= 0)%Z ->
                SystemCommands.history (a :: rest) cwd h = [])
  /\ (forall c, int a = Some c -> (Z.of_nat (length h) <= c)%Z ->
                SystemCommands.history (a :: rest) cwd h = numbered_from 1 h).
Proof.
  unfold SystemCommands.history, SystemCommands.history_count.
  split; [|split].
  - intros ->. reflexivity.
  - intros c -> Hc.
    replace (Z.to_nat (Z.max 0 (Z.of_nat (length h) - c)))
      with (length h + Z.to_nat (- c)) by lia.
    rewrite skipn_all2 by lia. reflexivity.
  - intros c -> Hc.
    replace (Z.to_nat (Z.max 0 (Z.of_nat (length h) - c))) with 0 by lia.
    reflexivity.
Qed.

End AliasTable.

Section AliasLine.

Context {W : Type} `{Host W}.
Import Py PyFacts DictFacts.

Lemma rstrip_last (x : str) (c : ascii) :
  isspace c = false -> rstrip (x ++ [c]) = x ++ [c].
Proof.
  intros Hc. induction x as [|y x IH]; simpl.
  - now rewrite Hc.
  - rewrite IH. destruct (x ++ [c]) eqn:E; [|reflexivity].
    now destruct x.
Qed.

Lemma existsb_eqb_forallb (a : ascii) (P : ascii -> bool) (s : str) :
  P a = false -> forallb P s = true -> existsb (Ascii.eqb a) s = false.
Proof.
  intros Ha Hs. induction s as [|c s IH]; [reflexivity|].
  simpl in Hs. apply andb_true_iff in Hs. destruct Hs as [Hc Hs].
  cbn [existsb]. rewrite (IH Hs), orb_false_r.
  destruct (Ascii.eqb a c) eqn:E; [|reflexivity].
  apply Ascii.eqb_eq in E. congruence.
Qed.

Lemma forallb_weaken (P Q : ascii -> bool) (s : str) :
  (forall c, P c = true -> Q c = true) ->
  forallb P s = true -> forallb Q s = true.
Proof.
  intros HPQ Hs. apply forallb_forall. intros c Hc.
  apply HPQ. revert c Hc. now apply forallb_forall.
Qed.

Lemma commands_alias :
  commands (W := W) "alias"
  = Some (fun args t =>
            let '(text, d) := SystemCommands.alias args (cwd t) (aliases t) in
            (Return text, set_aliases d t)).
Proof. reflexivity. Qed.

(** X13.  Typing [alias name='value'] defines the alias: [execute] returns
    nothing, records the line, and the table then holds, under the name,
    the value without the quote characters at its two ends; nothing else
    of the session changes. *)
Theorem alias_line_defines_alias (name value : str) (t : Terminal W) :
  forallb name_char name = true ->
  forallb value_char value = true ->
  dict_get "alias" (aliases t) = None ->
  let line := "alias " ++ name ++ "='" ++ value ++ "'" in
  execute line t
  = (Return [],
     set_aliases (dict_set name (strip_chars alias_quotes value) (aliases t))
       (history_append line t)).
Proof.
  intros Hname Hvalue Hfree line.
  assert (Hbare : forallb bare (name ++ "=") = true).
  { rewrite forallb_app. apply andb_true_iff. split; [|reflexivity].
    apply (forallb_weaken name_char); [|exact Hname].
    intros c Hc. unfold name_char in Hc. now apply andb_true_iff in Hc. }
  assert (Hchar : forall a,
             name_char a = false -> value_char a = false ->
             Ascii.eqb a "a" = false -> Ascii.eqb a "l" = false ->
             Ascii.eqb a "i" = false -> Ascii.eqb a "s" = false ->
             Ascii.eqb a " " = false -> Ascii.eqb a "=" = false ->
             Ascii.eqb a "'" = false ->
             contains [a] line = false).
  { intros a Hn Hv Ha Hl Hi Hs Hsp He Hq. rewrite contains_char.
    unfold line.
    change (list_ascii_of_string "alias ") with ["a"; "l"; "i"; "a"; "s"; " "]%char.
    change (list_ascii_of_string "='") with ["="; "'"]%char.
    change (list_ascii_of_string "'") with ["'"%char].
    rewrite !existsb_app.
    rewrite (existsb_eqb_forallb a name_char name Hn Hname).
    rewrite (existsb_eqb_forallb a value_char value Hv Hvalue).
    cbn [existsb]. now rewrite Ha, Hl, Hi, Hs, Hsp, He, Hq. }
  assert (Hstrip : strip line = line).
  { unfold strip, line.
    change (list_ascii_of_string "alias " ++ name ++ list_ascii_of_string "='"
            ++ value ++ list_ascii_of_string "'")
      with ("a"%char :: (list_ascii_of_string "lias " ++ name
                         ++ list_ascii_of_string "='" ++ value ++ ["'"%char])).
    cbn [lstrip]. change (isspace "a") with false. cbv iota.
    rewrite !app_comm_cons, !app_assoc. now apply rstrip_last. }
  assert (Hruns : runs line).
  { unfold runs. rewrite Hstrip. reflexivity. }
  assert (Hpipe : contains "|" (strip line) = false).
  { rewrite Hstrip. now apply Hchar. }
  assert (Hgt : contains ">" (strip line) = false).
  { rewrite Hstrip. now apply Hchar. }
  rewrite (execute_plain line t Hruns Hpipe Hgt), Hstrip.
  unfold dispatch.
  change (aliases (history_append line t)) with (aliases t).
  assert (Hparse : parse_command (aliases t) line
                   = ("alias" : str, [name ++ "=" ++ value])).
  { unfold parse_command. rewrite Hstrip.
    change (is_empty line) with false. cbv iota.
    assert (Hword : word "alias") by (split; [discriminate | reflexivity]).
    assert (Hx : expand_alias (aliases t) line = line).
    { unfold expand_alias.
      destruct (split_ws1_word_line "alias"
                  (name ++ "='" ++ value ++ "'") Hword) as [_ Ew].
      change (list_ascii_of_string "alias" ++ list_ascii_of_string " "
              ++ name ++ list_ascii_of_string "='" ++ value
              ++ list_ascii_of_string "'") with line in Ew.
      rewrite Ew, Hfree. reflexivity. }
    rewrite Hx. unfold line.
    change (list_ascii_of_string "alias " ++ name ++ list_ascii_of_string "='"
            ++ value ++ list_ascii_of_string "'")
      with (list_ascii_of_string "alias" ++ list_ascii_of_string " "
            ++ name ++ list_ascii_of_string "="
            ++ list_ascii_of_string "'" ++ value ++ list_ascii_of_string "'").
    rewrite (app_assoc name "=").
    rewrite (tokenize_single_quoted "alias" (name ++ "=") value);
      [ now rewrite <- app_assoc | discriminate | reflexivity | exact Hbare
      | now apply (existsb_eqb_forallb _ value_char) ]. }
  rewrite Hparse, commands_alias.
  change (aliases (history_append line t)) with (aliases t).
  unfold SystemCommands.alias.
  rewrite (alias_loop_define name value [] (aliases t));
    [reflexivity | now apply (existsb_eqb_forallb _ name_char)].
Qed.

End AliasLine.

(* ===================================================================== *)
(** * Path translation and [cd] *)
(* ===================================================================== *)

Section TranslationProperties.

Context {W : Type} `{Host W}.
Import Py PyFacts SplitFacts.

Lemma replace_char_clears (a b : ascii) (s : str) :
  Ascii.eqb a b = false -> existsb (Ascii.eqb a) (replace_char a b s) = false.
Proof.
  intros Hab. induction s as [|c s IH]; [reflexivity|].
  unfold replace_char in *. cbn [map existsb]. rewrite IH, orb_false_r.
  destruct (Ascii.eqb c a) eqn:E; [exact Hab|].
  now rewrite Ascii.eqb_sym.
Qed.

Lemma match_drive_colon_backslash (s : str) :
  existsb (Ascii.eqb "\"%char) s = false -> Re.match_drive_colon s = None.
Proof.
  intros Hs. destruct s as [|d [|c1 [|c2 tail]]]; try reflexivity.
  cbn [existsb] in Hs. apply orb_false_iff in Hs. destruct Hs as [_ Hs].
  apply orb_false_iff in Hs. destruct Hs as [_ Hs].
  apply orb_false_iff in Hs. destruct Hs as [Hs _].
  unfold Re.match_drive_colon. rewrite (Ascii.eqb_sym c2), Hs.
  now rewrite andb_false_r.
Qed.

(** X14.  [to_linux] gives a path without backslashes, whatever it is
    given, and leaves such a path as it is: translating twice is
    translating once. *)
Theorem to_linux_is_stable (w : W) (p : str) :
  existsb (Ascii.eqb "\"%char) (to_linux w p) = false
  /\ to_linux w (to_linux w p) = to_linux w p.
Proof.
  assert (Hno : existsb (Ascii.eqb "\"%char) (to_linux w p) = false).
  { unfold to_linux. destruct (is_empty p);
      now apply replace_char_clears. }
  split; [exact Hno|].
  destruct (to_linux w p) as [|c q] eqn:E.
  - unfold to_linux in E. destruct p as [|x p].
    + exact E.
    + cbn [is_empty] in E. apply (f_equal (@length ascii)) in E.
      unfold replace_char in E. rewrite length_map in E.
      destruct (Re.match_drive_colon (x :: p)) as [[d rest]|]; discriminate.
  - unfold to_linux at 1. cbn [is_empty].
    rewrite (match_drive_colon_backslash _ Hno).
    now apply replace_char_absent.
Qed.

Lemma opt_rest_end_rest (rest : str) :
  rest = [] \/ (exists r, rest = "/"%char :: r
                          /\ forallb Re.not_newline r = true) ->
  Re.opt_rest_end rest = Some rest.
Proof.
  intros [->|[r [-> Hr]]]; [reflexivity|].
  unfold Re.opt_rest_end. rewrite Ascii.eqb_refl.
  now rewrite (dotstar_end_line r Hr).
Qed.

(** X15.  The prefix [/mnt] of a virtual drive path is optional:
    [/mnt/x/rest] and [/x/rest] name the same native path. *)
Theorem mnt_prefix_is_optional (w : W) (d : ascii) (rest : str) :
  is_alpha d = true ->
  rest = [] \/ (exists r, rest = "/"%char :: r
                          /\ forallb Re.not_newline r = true) ->
  to_windows w ("/mnt/" ++ d :: rest) = to_windows w ("/"%char :: d :: rest).
Proof.
  intros Hd Hrest.
  destruct (letter_facts d Hd) as [_ [_ [_ [_ [_ [Hu _]]]]]].
  destruct (letter_facts _ Hu) as [_ [_ [E3 _]]].
  pose proof (opt_rest_end_rest rest Hrest) as Ho.
  change (list_ascii_of_string "/mnt/" ++ d :: rest)
    with ("/"%char :: "m"%char :: "n"%char :: "t"%char :: "/"%char :: d :: rest).
  unfold to_windows. cbn [is_empty].
  change (startswith "~" ("/"%char :: d :: rest)) with false.
  change (startswith "~" ("/"%char :: "m"%char :: "n"%char :: "t"%char
                          :: "/"%char :: d :: rest)) with false.
  cbv iota.
  assert (M1 : Re.match_slash_drive
                 ("/"%char :: "m"%char :: "n"%char :: "t"%char :: "/"%char
                  :: d :: rest) = None) by reflexivity.
  assert (M2 : Re.match_mnt_drive
                 ("/"%char :: "m"%char :: "n"%char :: "t"%char :: "/"%char
                  :: d :: rest) = Some (d, rest)).
  { unfold Re.match_mnt_drive.
    change (startswith "/mnt/" ("/"%char :: "m"%char :: "n"%char :: "t"%char
                                :: "/"%char :: d :: rest)) with true.
    cbn [skipn]. now rewrite Hd, Ho. }
  assert (M3 : Re.match_slash_drive ("/"%char :: d :: rest) = Some (d, rest)).
  { unfold Re.match_slash_drive. rewrite Ascii.eqb_refl, Hd. cbn [andb].
    now rewrite Ho. }
  assert (M4 : Re.match_mnt_drive (upper_char d :: ":"%char :: rest) = None).
  { unfold Re.match_mnt_drive.
    change (startswith "/mnt/" (upper_char d :: ":"%char :: rest))
      with (Ascii.eqb "/" (upper_char d) && startswith "mnt/" (":"%char :: rest)).
    now rewrite E3. }
  rewrite M1, M2, M3, M4. reflexivity.
Qed.

Lemma normpath_replace (p : str) :
  NtPath.normpath (replace_char "/" "\" p) = NtPath.normpath p.
Proof.
  unfold NtPath.normpath.
  change (replace_char NtPath.altsep NtPath.sep (replace_char "/" "\" p))
    with (replace_char "/" "\" (replace_char "/" "\" p)).
  now rewrite replace_char_twice.
Qed.

(** X16.  A native path with a drive letter and a root, [X:\rest] or
    [X:/rest], is accepted as it is: [to_windows] gives its normal form,
    whatever the working directory and the home directory are. *)
Theorem native_path_passes_through (w : W) (d s : ascii) (rest : str) :
  is_alpha d = true ->
  NtPath.is_sep s = true ->
  to_windows w (d :: ":"%char :: s :: rest)
  = NtPath.normpath (d :: ":"%char :: s :: rest).
Proof.
  intros Hd Hs.
  destruct (letter_facts d Hd) as [E1 [E2 [E3 [E4 [E5 _]]]]].
  unfold to_windows. cbn [is_empty].
  change (startswith "~" (d :: ":"%char :: s :: rest))
    with (Ascii.eqb "~" d && true).
  rewrite E5. cbn [andb].
  assert (M1 : Re.match_slash_drive (d :: ":"%char :: s :: rest) = None).
  { unfold Re.match_slash_drive. now rewrite E1. }
  assert (M2 : Re.match_mnt_drive (d :: ":"%char :: s :: rest) = None).
  { unfold Re.match_mnt_drive.
    change (startswith "/mnt/" (d :: ":"%char :: s :: rest))
      with (Ascii.eqb "/" d && startswith "mnt/" (":"%char :: s :: rest)).
    now rewrite E3. }
  rewrite M1, M2.
  assert (R : replace_char "/" "\" (d :: ":"%char :: s :: rest)
              = d :: ":"%char :: "\"%char :: replace_char "/" "\" rest).
  { rewrite (replace_slash_drive d _ E1). do 2 f_equal.
    unfold replace_char. cbn [map]. f_equal.
    unfold NtPath.is_sep, NtPath.sep, NtPath.altsep in Hs.
    destruct (Ascii.eqb s "/") eqn:Es; [reflexivity|].
    rewrite orb_false_r in Hs. now apply Ascii.eqb_eq in Hs. }
  rewrite <- (normpath_replace (d :: ":"%char :: s :: rest)).
  rewrite R, (isabs_drive_root d _ Hd). reflexivity.
Qed.

Lemma forallb_firstn (P : ascii -> bool) (n : nat) (s : str) :
  forallb P s = true -> forallb P (firstn n s) = true.
Proof.
  revert n. induction s as [|c s IH]; intros [|n] Hs; try reflexivity.
  simpl in *. apply andb_true_iff in Hs. destruct Hs as [Hc Hs].
  now rewrite Hc, IH.
Qed.

Lemma forallb_skipn (P : ascii -> bool) (n : nat) (s : str) :
  forallb P s = true -> forallb P (skipn n s) = true.
Proof.
  revert n. induction s as [|c s IH]; intros [|n] Hs; try reflexivity.
  - exact Hs.
  - simpl in *. apply andb_true_iff in Hs. destruct Hs as [Hc Hs]. now apply IH.
Qed.

Lemma forallb_splitdrive (P : ascii -> bool) (p : str) :
  forallb P p = true ->
  forallb P (fst (NtPath.splitdrive p)) = true
  /\ forallb P (snd (NtPath.splitdrive p)) = true.
Proof.
  intros Hp. unfold NtPath.splitdrive.
  destruct (2 <=? length p); [|now split].
  destruct (str_eqb _ _).
  - destruct (find_char _ _ _) as [index|]; [|now split].
    destruct (find_char _ _ _) as [index2|]; [|now split].
    split; [now apply forallb_firstn | now apply forallb_skipn].
  - destruct (str_eqb _ _); [|now split].
    split; [now apply forallb_firstn | now apply forallb_skipn].
Qed.

Lemma forallb_lstrip_chars (P : ascii -> bool) (chars s : str) :
  forallb P s = true -> forallb P (lstrip_chars chars s) = true.
Proof.
  induction s as [|c s IH]; intros Hs; [reflexivity|].
  cbn [lstrip_chars]. destruct (in_chars c chars); [|exact Hs].
  simpl in Hs. apply andb_true_iff in Hs. now apply IH.
Qed.

Lemma normpath_no_slash (p : str) :
  forallb no_slash (NtPath.normpath p) = true.
Proof.
  unfold NtPath.normpath.
  assert (Hp : forallb no_slash (replace_char NtPath.altsep NtPath.sep p) = true).
  { clear. induction p as [|c p IH]; [reflexivity|].
    unfold replace_char in *. cbn [map forallb]. rewrite IH, andb_true_r.
    unfold no_slash, NtPath.altsep.
    destruct (Ascii.eqb c "/") eqn:E; [reflexivity | now rewrite E]. }
  destruct (forallb_splitdrive no_slash _ Hp) as [H1 H2].
  destruct (NtPath.splitdrive _) as [prefix path]. cbn [fst snd] in H1, H2.
  assert (Hcomps : forall rooted rest,
             forallb no_slash rest = true ->
             Forall (fun x => forallb no_slash x = true)
               (NtPath.norm_comps rooted [] (split [NtPath.sep] rest))).
  { intros rooted rest Hr. apply Forall_forall. intros x Hx.
    destruct (norm_comps_incl _ _ _ _ Hx) as [[]|Hin].
    apply (forallb_segment no_slash x rest); [|exact Hr].
    exact (split_go_segment _ _ _ _ Hin). }
  assert (Hout : forall pre rest,
             forallb no_slash pre = true -> forallb no_slash rest = true ->
             forallb no_slash
               (pre ++ join [NtPath.sep]
                  (let comps := NtPath.norm_comps (NtPath.last_is_sep pre) []
                                  (split [NtPath.sep] rest) in
                   if is_empty pre && match comps with [] => true | _ => false end
                   then ["." : str] else comps)) = true).
  { intros pre rest Hpre Hr. rewrite forallb_app, Hpre. cbn [andb].
    apply forallb_join; [reflexivity|]. cbv zeta.
    destruct (is_empty pre && _).
    - constructor; [reflexivity | constructor].
    - now apply Hcomps. }
  destruct (startswith [NtPath.sep] path).
  - apply Hout.
    + rewrite forallb_app, H1. reflexivity.
    + now apply forallb_lstrip_chars.
  - now apply Hout.
Qed.

(** X17.  [to_windows] gives a path without forward slashes for every path
    that is not empty. *)
Theorem to_windows_has_no_slash (w : W) (p : str) :
  p <> [] -> existsb (Ascii.eqb "/"%char) (to_windows w p) = false.
Proof.
  intros Hp. destruct p as [|c p]; [now elim Hp|].
  unfold to_windows. cbn [is_empty].
  match goal with |- context [NtPath.normpath ?x] =>
    pose proof (normpath_no_slash x) as Hn; generalize dependent (NtPath.normpath x)
  end.
  intros q Hq. clear - Hq. induction q as [|x q IH]; [reflexivity|].
  simpl in Hq. apply andb_true_iff in Hq. destruct Hq as [Hx Hq].
  cbn [existsb]. rewrite (IH Hq), orb_false_r.
  unfold no_slash in Hx. apply negb_true_iff in Hx.
  now rewrite Ascii.eqb_sym.
Qed.

End TranslationProperties.

Section DirectoryProperties.

Context {W : Type} `{Host W} `{!HostLaws W}.
Import Py PyFacts.

Lemma cd_done (args : list str) (cwd new : str) (w w1 : W) :
  FileCommands.cd args cwd w = (Return (new, []), w1) ->
  new = FileCommands.cd_target args cwd w
  /\ w1 = environ_set "OLDPWD" cwd w.
Proof.
  unfold FileCommands.cd.
  destruct (negb (path_exists _ w)); [intros E; now inversion E|].
  destruct (negb (path_isdir _ w)).
  - destruct args; intros E; now inversion E.
  - intros E. inversion E. auto.
Qed.

(** X18.  [cd -] goes back: after a [cd] that succeeded from [cwd] (its
    message is empty), [cd -] in the new directory leads to the normal form
    of [cwd] when that is still a directory, and remembers the directory it
    left, so that a second [cd -] targets that one again. *)
Theorem cd_dash_goes_back (args : list str) (cwd new : str) (w w1 : W) :
  FileCommands.cd args cwd w = (Return (new, []), w1) ->
  path_exists (NtPath.normpath cwd) w1 = true ->
  path_isdir (NtPath.normpath cwd) w1 = true ->
  FileCommands.cd ["-" : str] new w1
  = (Return (NtPath.normpath cwd, []), environ_set "OLDPWD" new w1)
  /\ FileCommands.cd_target ["-" : str] (NtPath.normpath cwd)
       (environ_set "OLDPWD" new w1)
     = NtPath.normpath new.
Proof.
  intros Hcd He Hd. destruct (cd_done args cwd new w w1 Hcd) as [_ Hw].
  assert (T : FileCommands.cd_target ["-" : str] new w1 = NtPath.normpath cwd).
  { unfold FileCommands.cd_target.
    change (str_eqb "-" "-") with true. cbv iota.
    now rewrite Hw, environ_get_set. }
  split.
  - unfold FileCommands.cd. rewrite T, He, Hd. reflexivity.
  - unfold FileCommands.cd_target.
    change (str_eqb "-" "-") with true. cbv iota.
    now rewrite environ_get_set.
Qed.

End DirectoryProperties.

(* ===================================================================== *)
(** * Redirection to a file *)
(* ===================================================================== *)

Section RedirectionProperties.

Context {W : Type} `{Host W} `{!HostLaws W}.
Import Py PyFacts SplitFacts.





End RedirectionProperties.

(* ===================================================================== *)
(** * [echo] and [_format_mode] *)
(* ===================================================================== *)

Section EchoProperties.

Import Py PyFacts SplitFacts.

Lemma contains_first_char (a : ascii) (old s : str) :
  existsb (Ascii.eqb a) s = false -> contains (a :: old) s = false.
Proof.
  intros Hs. destruct (contains (a :: old) s) eqn:C; [|reflexivity].
  apply contains_iff in C. destruct C as [x [y ->]].
  rewrite existsb_app in Hs. cbn [app existsb] in Hs.
  rewrite Ascii.eqb_refl in Hs. cbn [orb] in Hs.
  now rewrite orb_true_r in Hs.
Qed.

Lemma split_absent (sep s : str) :
  contains sep s = false -> split sep s = [s].
Proof.
  unfold split. induction s as [|c s IH]; intros Hs; [reflexivity|].
  cbn [contains] in Hs. apply orb_false_iff in Hs. destruct Hs as [H1 H2].
  cbn [split_go]. rewrite H1, (IH H2). reflexivity.
Qed.

Lemma replace_absent (old new s : str) :
  contains old s = false -> Py.replace old new s = s.
Proof.
  intros Hs. unfold Py.replace. now rewrite (split_absent old s Hs).
Qed.

Lemma expand_variables_plain (environ : dict) (text : str) :
  existsb (Ascii.eqb "$"%char) text = false ->
  SystemCommands.expand_variables environ text = text.
Proof.
  intros Ht. unfold SystemCommands.expand_variables.
  induction environ as [|[k v] environ IH]; [reflexivity|].
  cbn [fold_left fst snd].
  change (list_ascii_of_string "$" ++ k) with ("$"%char :: k).
  change (list_ascii_of_string "${" ++ k ++ list_ascii_of_string "}")
    with ("$"%char :: "{"%char :: k ++ list_ascii_of_string "}").
  rewrite (replace_absent ("$"%char :: k) v text
             (contains_first_char _ _ _ Ht)).
  rewrite (replace_absent _ v text (contains_first_char _ _ _ Ht)).
  exact IH.
Qed.

Lemma existsb_join (a : ascii) (sep : str) (l : list str) :
  existsb (Ascii.eqb a) sep = false ->
  Forall (fun x => existsb (Ascii.eqb a) x = false) l ->
  existsb (Ascii.eqb a) (join sep l) = false.
Proof.
  intros Hsep Hl. induction Hl as [|x l Hx Hl IH]; [reflexivity|].
  destruct l as [|y l]; [exact Hx|].
  rewrite join_cons, !existsb_app, Hx, Hsep, IH. reflexivity.
Qed.

(** X19.  [echo] of arguments without a backslash and without a [$] is the
    arguments joined by single spaces, the arguments [-n] left out,
    whatever the environment holds. *)
Theorem echo_joins_plain_arguments (environ : dict) (args : list str)
    (cwd : str) :
  Forall (fun a => existsb (Ascii.eqb "\"%char) a = false
                   /\ existsb (Ascii.eqb "$"%char) a = false) args ->
  SystemCommands.echo environ args cwd
  = join " " (filter (fun a => negb (str_eqb a "-n")) args).
Proof.
  intros Hargs. unfold SystemCommands.echo.
  set (kept := filter (fun a => negb (str_eqb a "-n")) args).
  assert (Hkept : forall c : ascii, (c = "\" \/ c = "$")%char ->
            existsb (Ascii.eqb c) (join " " kept) = false).
  { intros c Hc. apply existsb_join.
    - destruct Hc as [->| ->]; reflexivity.
    - apply Forall_forall. intros x Hx. apply filter_In in Hx.
      destruct Hx as [Hx _].
      destruct (proj1 (Forall_forall _ _) Hargs x Hx) as [H1 H2].
      destruct Hc as [->| ->]; assumption. }
  pose proof (Hkept "\"%char (or_introl eq_refl)) as Hb.
  pose proof (Hkept "$"%char (or_intror eq_refl)) as Hd.
  change (list_ascii_of_string "\n") with ("\"%char :: list_ascii_of_string "n").
  change (list_ascii_of_string "\t") with ("\"%char :: list_ascii_of_string "t").
  change (list_ascii_of_string "\\") with ("\"%char :: list_ascii_of_string "\").
  rewrite (replace_absent _ nl _ (contains_first_char _ _ _ Hb)).
  rewrite (replace_absent _ [ascii_of_nat 9] _ (contains_first_char _ _ _ Hb)).
  rewrite (replace_absent _ (list_ascii_of_string "\") _
             (contains_first_char _ _ _ Hb)).
  rewrite (expand_variables_plain environ _ Hd).
  destruct (existsb (str_eqb "-n") args); reflexivity.
Qed.

(** X20.  The option [-n] of [echo] changes nothing: wherever it stands
    among the arguments, the result is that of the call without it. *)
Theorem echo_ignores_dash_n (environ : dict) (before after : list str)
    (cwd : str) :
  SystemCommands.echo environ (before ++ ("-n" : str) :: after) cwd
  = SystemCommands.echo environ (before ++ after) cwd.
Proof.
  unfold SystemCommands.echo. rewrite !filter_app.
  cbn [filter]. change (negb (str_eqb "-n" "-n")) with false. cbv iota.
  destruct (existsb (str_eqb "-n") (before ++ ("-n" : str) :: after));
    destruct (existsb (str_eqb "-n") (before ++ after)); reflexivity.
Qed.

End EchoProperties.

Section ModeProperties.

Import FileCommands.

Lemma land_pow2_eqb (m : Z) (k : nat) :
  Z.eqb (Z.land m (2 ^ Z.of_nat k)) 0 = negb (Z.testbit m (Z.of_nat k)).
Proof.
  destruct (Z.testbit m (Z.of_nat k)) eqn:E; cbn [negb].
  - apply Z.eqb_neq. intros E0.
    apply (f_equal (fun x => Z.testbit x (Z.of_nat k))) in E0.
    rewrite Z.land_spec, E, Z.pow2_bits_true, Z.bits_0 in E0 by lia.
    discriminate.
  - apply Z.eqb_eq. apply Z.bits_inj'. intros n Hn.
    rewrite Z.land_spec, Z.bits_0, Z.pow2_bits_eqb by lia.
    destruct (Z.eqb_spec (Z.of_nat k) n) as [<-|_];
      [now rewrite E | now rewrite andb_false_r].
Qed.

Lemma map_eq_in {A B : Type} (f g : A -> B) (l : list A) :
  map f l = map g l -> forall x, In x l -> f x = g x.
Proof.
  induction l as [|y l IH]; intros E x Hx; [contradiction|].
  cbn [map] in E. injection E as E1 E2.
  destruct Hx as [<-|Hx]; [exact E1 | now apply IH].
Qed.

(** the nine permission bits of [mode], highest first *)
Lemma format_mode_bits (mode : Z) (is_dir : bool) :
  _format_mode mode is_dir
  = (if is_dir then "d"%char else "-"%char)
    :: map (fun p : nat * ascii =>
              if Z.testbit mode (Z.of_nat (fst p)) then snd p else "-"%char)
         [ (8, "r"%char); (7, "w"%char); (6, "x"%char);
           (5, "r"%char); (4, "w"%char); (3, "x"%char);
           (2, "r"%char); (1, "w"%char); (0, "x"%char) ].
Proof.
  unfold _format_mode, perms. cbn [map fst snd]. f_equal.
  repeat match goal with
         | |- context [Z.eqb (Z.land mode ?p) 0] =>
             match p with
             | 256%Z => change p with (2 ^ Z.of_nat 8)%Z
             | 128%Z => change p with (2 ^ Z.of_nat 7)%Z
             | 64%Z => change p with (2 ^ Z.of_nat 6)%Z
             | 32%Z => change p with (2 ^ Z.of_nat 5)%Z
             | 16%Z => change p with (2 ^ Z.of_nat 4)%Z
             | 8%Z => change p with (2 ^ Z.of_nat 3)%Z
             | 4%Z => change p with (2 ^ Z.of_nat 2)%Z
             | 2%Z => change p with (2 ^ Z.of_nat 1)%Z
             | 1%Z => change p with (2 ^ Z.of_nat 0)%Z
             end;
             rewrite land_pow2_eqb
         end.
  repeat match goal with
         | |- context [Z.testbit mode ?k] => destruct (Z.testbit mode k)
         end; reflexivity.
Qed.

(** X21.  The mode string has ten characters and shows the directory flag
    and the nine permission bits, and nothing else of the mode: two calls
    give the same string exactly when the flags are equal and the modes
    agree on their nine lowest bits. *)
Theorem format_mode_shows_permission_bits (m m' : Z) (d d' : bool) :
  length (_format_mode m d) = 10
  /\ (_format_mode m d = _format_mode m' d'
      <-> d = d' /\ Z.land m 511 = Z.land m' 511).
Proof.
  split; [reflexivity|]. rewrite !format_mode_bits. split.
  - remember [ (8, "r"%char); (7, "w"%char); (6, "x"%char);
               (5, "r"%char); (4, "w"%char); (3, "x"%char);
               (2, "r"%char); (1, "w"%char); (0, "x"%char) ] as bits eqn:Eb.
    intros E. injection E as E0 Em.
    split; [destruct d, d'; congruence|].
    assert (Hbit : forall k c,
               In (k, c) bits ->
               Z.testbit m (Z.of_nat k) = Z.testbit m' (Z.of_nat k)).
    { intros k c Hk. pose proof (map_eq_in _ _ _ Em (k, c) Hk) as Ek.
      cbn [fst snd] in Ek.
      assert (Hc : c <> "-"%char).
      { subst bits. cbn [In] in Hk.
        repeat destruct Hk as [Hk|Hk];
          try (inversion Hk; subst; discriminate); try contradiction. }
      destruct (Z.testbit m (Z.of_nat k)), (Z.testbit m' (Z.of_nat k));
        congruence. }
    subst bits.
    apply Z.bits_inj'. intros n Hn. rewrite !Z.land_spec.
    destruct (Z.ltb_spec n 9) as [Hlt|Hge].
    + assert (Hcases : n = Z.of_nat 0 \/ n = Z.of_nat 1 \/ n = Z.of_nat 2
                       \/ n = Z.of_nat 3 \/ n = Z.of_nat 4 \/ n = Z.of_nat 5
                       \/ n = Z.of_nat 6 \/ n = Z.of_nat 7 \/ n = Z.of_nat 8)
        by lia.
      assert (Hm : Z.testbit m n = Z.testbit m' n).
      { destruct Hcases as [->|[->|[->|[->|[->|[->|[->|[->| ->]]]]]]]];
          eapply Hbit; cbn [In]; eauto 12. }
      now rewrite Hm.
    + replace (Z.testbit 511 n) with false; [now rewrite !andb_false_r|].
      symmetry. change 511%Z with (Z.ones 9).
      apply Z.ones_spec_high. lia.
  - intros [-> E]. f_equal. apply map_ext_in. intros [k c] Hk. cbn [fst snd].
    assert (Hb : Z.testbit m (Z.of_nat k) = Z.testbit m' (Z.of_nat k)).
    { apply (f_equal (fun x => Z.testbit x (Z.of_nat k))) in E.
      rewrite !Z.land_spec in E.
      replace (Z.testbit 511 (Z.of_nat k)) with true in E.
      - now rewrite !andb_true_r in E.
      - symmetry. change 511%Z with (Z.ones 9). apply Z.ones_spec_low.
        cbn [In] in Hk.
        repeat destruct Hk as [Hk|Hk]; try (inversion Hk; subst; cbn; lia);
          try contradiction. }
    now rewrite Hb.
Qed.

End ModeProperties.

(* ===================================================================== *)
(** * [cd] followed by [pwd] *)
(* ===================================================================== *)

Section CdPwd.

Context {W : Type} `{Host W}.
Import Py PyFacts SplitFacts.

Lemma normal_no_sep (segs : list str) (c : ascii) :
  Forall normal_component segs ->
  NtPath.is_sep c = true ->
  Forall (fun p => existsb (Ascii.eqb c) p = false) segs.
Proof.
  intros Hsegs Hc. apply Forall_forall. intros p Hp.
  destruct (proj1 (Forall_forall _ _) Hsegs p Hp) as [_ [_ [_ Hp4]]].
  clear - Hp4 Hc. induction p as [|x p IH]; [reflexivity|].
  simpl in *. apply andb_true_iff in Hp4. destruct Hp4 as [Hx Hp4].
  rewrite (IH Hp4), orb_false_r.
  destruct (Ascii.eqb c x) eqn:E; [|reflexivity].
  apply Ascii.eqb_eq in E. subst x. now rewrite Hc in Hx.
Qed.

Lemma root_components_native (segs : list str) :
  Forall normal_component segs ->
  root_components (join ["\"%char] segs) = segs.
Proof.
  intros Hsegs. unfold root_components.
  pose proof (normal_no_sep segs "/"%char Hsegs eq_refl) as Hslash.
  pose proof (normal_no_sep segs "\"%char Hsegs eq_refl) as Hback.
  rewrite (replace_char_absent "/" "\")
    by (apply existsb_join; [reflexivity | exact Hslash]).
  destruct segs as [|s0 segs]; [reflexivity|].
  assert (Hls : NtPath.lstrip_sep (join ["\"%char] (s0 :: segs))
                = join ["\"%char] (s0 :: segs)).
  { inversion Hsegs as [|? ? [Hne [_ [_ Hs0]]] _]; subst.
    destruct s0 as [|x s0]; [congruence|].
    simpl in Hs0. apply andb_true_iff in Hs0. destruct Hs0 as [Hx _].
    unfold NtPath.is_sep in Hx. apply negb_true_iff, orb_false_iff in Hx.
    destruct Hx as [Hx _].
    assert (J : exists y, join ["\"%char] ((x :: s0) :: segs) = x :: y).
    { destruct segs; [exists s0 | eexists]; reflexivity. }
    destruct J as [y ->]. unfold NtPath.lstrip_sep.
    cbn [lstrip_chars in_chars existsb]. now rewrite Hx. }
  rewrite Hls. change [NtPath.sep] with ["\"%char].
  rewrite (split_join "\"%char (s0 :: segs) ltac:(discriminate) Hback).
  now rewrite (norm_comps_normal _ [] Hsegs).
Qed.

Lemma root_components_virtual (segs : list str) :
  Forall normal_component segs ->
  root_components (join ["/"%char] segs) = segs.
Proof.
  intros Hsegs. rewrite <- (root_components_native segs Hsegs) at 2.
  unfold root_components.
  rewrite (replace_char_join "/" "\" segs
             (normal_no_sep segs "/"%char Hsegs eq_refl)).
  rewrite (replace_char_absent "/" "\" (join ["\"%char] segs)); [reflexivity|].
  apply existsb_join; [reflexivity|].
  exact (normal_no_sep segs "/"%char Hsegs eq_refl).
Qed.

(** X22.  [cd] to a virtual drive path [/x/a/b] in its normal form
    (lower-case drive letter, plain components) that names a directory
    changes to [X:\a\b], and [pwd] there prints the path that was typed. *)
Theorem cd_then_pwd_shows_the_path (d : ascii) (segs : list str)
    (cwd : str) (w : W) :
  is_lower d = true ->
  Forall normal_component segs ->
  forallb Re.not_newline (join "/" segs) = true ->
  let typed := "/"%char :: d :: "/"%char :: join "/" segs in
  let native := upper_char d :: ":"%char :: "\"%char :: join "\" segs in
  path_exists native w = true ->
  path_isdir native w = true ->
  FileCommands.cd [typed] cwd w
  = (Return (native, []), environ_set "OLDPWD" cwd w)
  /\ FileCommands.pwd [] native (environ_set "OLDPWD" cwd w) = typed.
Proof.
  intros Hl Hsegs Hnl typed native He Hi.
  assert (Hd : is_alpha d = true)
    by (unfold is_alpha; now rewrite Hl, orb_true_r).
  destruct (letter_facts d Hd) as [_ [_ [_ [_ [_ [Hu [_ [_ Hlu]]]]]]]].
  assert (Tw : to_windows w typed = native).
  { unfold typed. rewrite (to_windows_virtual_drive w d _ Hd Hnl).
    change (list_ascii_of_string "/") with ["/"%char].
    now rewrite (root_components_virtual segs Hsegs). }
  assert (Tn : NtPath.normpath native = native).
  { unfold native. rewrite (normpath_drive_root _ _ Hu).
    change (list_ascii_of_string "\") with ["\"%char].
    now rewrite (root_components_native segs Hsegs). }
  assert (T : FileCommands.cd_target [typed] cwd w = native).
  { unfold FileCommands.cd_target.
    change (str_eqb typed "-") with false. cbv iota. rewrite Tw.
    unfold native at 1. rewrite (isabs_drive_root _ _ Hu). exact Tn. }
  split.
  - unfold FileCommands.cd. rewrite T, He, Hi. reflexivity.
  - unfold FileCommands.pwd, native.
    assert (Hnl' : forallb Re.not_newline (join "\" segs) = true).
    { apply forallb_join; [reflexivity|]. apply Forall_forall. intros x Hx.
      apply (forallb_segment Re.not_newline x (join "/" segs)); [|exact Hnl].
      clear - Hx. induction segs as [|s segs IH]; [contradiction|].
      destruct segs as [|s' segs].
      - destruct Hx as [<-|[]]. apply segment_refl.
      - rewrite join_cons. destruct Hx as [<-|Hx].
        + apply segment_prefix.
        + apply (segment_trans _ _ _ (IH Hx)).
          rewrite app_assoc. apply segment_suffix. }
    rewrite (to_linux_native_drive _ _ _ Hu Hnl'), (Hlu Hl).
    unfold typed. do 3 f_equal.
    change (list_ascii_of_string "\") with ["\"%char].
    change (list_ascii_of_string "/") with ["/"%char].
    apply (replace_char_join "\" "/").
    exact (normal_no_sep segs "\"%char Hsegs eq_refl).
Qed.

End CdPwd.

(* ===================================================================== *)
(** * The loop of [run] *)
(* ===================================================================== *)

Section LoopProperties.

Context {W : Type} `{Host W}.
Import Py PyFacts.

Variable c : console W.

Lemma say_state (text : str) (t : Terminal W) :
  exists w, snd (say c text t) = set_world w t.
Proof.
  unfold say. destruct (print c text (world t)) as [r w]. now exists w.
Qed.

Lemma rescue_state (e : exn) (t : Terminal W) :
  history (snd (rescue c e t)) = history t
  /\ (running t = false -> running (snd (rescue c e t)) = false).
Proof.
  unfold rescue, except_KeyboardInterrupt, except_EOFError, except_Exception.
  destruct e as [m|m].
  - destruct (is_eof c m).
    + destruct (say_state [] t) as [w E].
      destruct (say c [] t) as [[u|e] t']; cbn [snd] in *; subst t'; auto.
    + destruct (say_state (ColorOutput.error ("Error: " ++ m)) t) as [w ->].
      auto.
  - destruct (is_interrupt c m); [|auto].
    destruct (say_state (nl ++ "^C") t) as [w ->]. auto.
Qed.

Lemma run_loop_stopped (keys : list (key W)) (t : Terminal W) :
  running t = false -> run_loop c keys t = (Return tt, t).
Proof. intros R. destruct keys; cbn [run_loop]; now rewrite R. Qed.


Hypothesis print_succeeds : forall text w, fst (print c text w) = Return tt.






End LoopProperties.

Section LoopEnds.

Context {W : Type} `{Host W}.
Import Py PyFacts.


Lemma commands_exit (cmd : str) :
  cmd = "exit" \/ cmd = "quit" -> commands (W := W) cmd = Some _exit.
Proof. intros [->| ->]; reflexivity. Qed.

(** X24.  A line that parses to [exit] or [quit] is the last one that is
    read: the loop ends the same way whatever input follows, with the
    session stopped and the line in its history; and when the farewell can
    be printed, [run] ends normally with nothing else changed. *)
Theorem exit_stops_reading (c : console W) (line cmd : str)
    (args : list str) (k : key W) (keys : list (key W)) (t : Terminal W)
    (w0 : W) :
  running t = true ->
  k (get_prompt t) (world t) = (Return line, w0) ->
  runs line ->
  contains "|" (strip line) = false ->
  contains ">" (strip line) = false ->
  parse_command (aliases t) (strip line) = (cmd, args) ->
  cmd = "exit" \/ cmd = "quit" ->
  let t1 := set_running false (history_append (strip line) (set_world w0 t)) in
  (forall keys', run_loop c (k :: keys) t = run_loop c (k :: keys') t)
  /\ running (snd (run_loop c (k :: keys) t)) = false
  /\ history (snd (run_loop c (k :: keys) t)) = history t ++ [strip line]
  /\ (forall w1,
        print c (ColorOutput.info "Goodbye!") w0 = (Return tt, w1) ->
        run_loop c (k :: keys) t = (Return tt, set_world w1 t1)).
Proof.
  intros R Hk Hr Hp Hg Hparse Hcmd t1.
  assert (X : execute line (set_world w0 t)
              = (Return (ColorOutput.info "Goodbye!"), t1)).
  { rewrite (execute_plain line _ Hr Hp Hg). unfold dispatch.
    change (aliases (history_append (strip line) (set_world w0 t)))
      with (aliases t).
    rewrite Hparse, (commands_exit cmd Hcmd). reflexivity. }
  assert (B : try_body c k t = say c (ColorOutput.info "Goodbye!") t1).
  { unfold try_body. rewrite Hk, X. reflexivity. }
  assert (T : running (snd (turn c k t)) = false
              /\ history (snd (turn c k t)) = history t ++ [strip line]).
  { unfold turn. rewrite B.
    destruct (say_state c (ColorOutput.info "Goodbye!") t1) as [w E].
    destruct (say c (ColorOutput.info "Goodbye!") t1) as [[u|e] t'];
      cbn [snd] in *; subst t'; [split; reflexivity|].
    destruct (rescue_state c e (set_world w t1)) as [Eh Er].
    split; [exact (Er eq_refl) | rewrite Eh; reflexivity]. }
  destruct T as [Tr Th].
  assert (L : forall keys',
             run_loop c (k :: keys') t
             = (match fst (turn c k t) with
                | Return _ => Return tt
                | Raise e => Raise e
                end, snd (turn c k t))).
  { intros keys'. cbn [run_loop]. rewrite R. cbn [negb].
    destruct (turn c k t) as [[u|e] t'] eqn:E; cbn [fst snd] in *;
      [now apply run_loop_stopped | reflexivity]. }
  split; [intros keys'; now rewrite !L|].
  split; [now rewrite L|]. split; [now rewrite L|].
  intros w1 Hw. rewrite L. unfold turn. rewrite B. unfold say.
  change (world t1) with w0. rewrite Hw. reflexivity.
Qed.

End LoopEnds.

(* ===================================================================== *)
(** * Late failures, the home directory, variables of [echo] *)
(* ===================================================================== *)

Section LateFailures.

Context {W : Type} `{Host W}.
Import Py PyFacts SplitFacts.

Lemma commands_cd : commands (W := W) "cd" = Some _cd.
Proof. reflexivity. Qed.

(** X25.  [_cd] stores the directory that [FileCommands.cd] returns before
    it calls [os.chdir]: when that call raises, [execute] reports the
    exception as [cd: ...] in place of the message of [cd], and the session
    keeps the directory that was stored and the environment that [cd]
    left. *)
Theorem chdir_failure_keeps_the_new_directory (line : str) (args : list str)
    (t : Terminal W) (new out msg : str) (w1 w2 : W) :
  runs line ->
  contains "|" (strip line) = false ->
  contains ">" (strip line) = false ->
  parse_command (aliases t) (strip line) = ("cd" : str, args) ->
  FileCommands.cd args (cwd t) (world t) = (Return (new, out), w1) ->
  chdir new w1 = (Raise (Exception msg), w2) ->
  execute line t
  = (Return (ColorOutput.error ("cd: " ++ msg)),
     set_world w2 (set_cwd new (set_world w1 (history_append (strip line) t)))).
Proof.
  intros Hr Hp Hg Hparse Hcd Hch.
  rewrite (execute_plain line t Hr Hp Hg). unfold dispatch.
  change (aliases (history_append (strip line) t)) with (aliases t).
  rewrite Hparse, commands_cd. unfold _cd.
  change (cwd (history_append (strip line) t)) with (cwd t).
  change (world (history_append (strip line) t)) with (world t).
  rewrite Hcd, Hch. reflexivity.
Qed.

(** X26.  When the file of a redirection cannot be written, the command
    has run all the same: [execute] returns the message
    [Redirect failed: ...] and the session is the one the command left,
    with the world as the failed write left it. *)
Theorem redirect_failure_is_reported (t t1 : Terminal W)
    (line left right output msg : str) (w2 : W) :
  runs line ->
  contains "|" (strip line) = false ->
  contains ">" (strip line) = true ->
  redirect_parts (strip line) = [left; right] ->
  execute (strip left) (history_append (strip line) t) = (Return output, t1) ->
  write_text (contains ">>" (strip line)) (redirect_path (strip right) t1)
    (output ++ nl) (world t1) = (Raise (Exception msg), w2) ->
  execute line t
  = (Return (ColorOutput.error ("Redirect failed: " ++ msg)),
     set_world w2 t1).
Proof.
  intros Hr Hp Hg Hparts Hx Hw.
  pose proof (execute_redirect line t Hr Hp Hg) as E.
  unfold _handle_redirect in E. unfold redirect_parts in Hparts.
  rewrite Hparts in E. unfold execute_call at 1 in E.
  rewrite Hx, Hw in E. congruence.
Qed.

(** X27.  In a path, a leading [~] stands for the home directory, and for
    nothing more: [~rest] is translated as the home directory immediately
    followed by [rest], whether [rest] starts with a separator or not. *)
Theorem tilde_stands_for_home (w : W) (d : ascii) (h rest : str) :
  home w = d :: h ->
  d <> "~"%char ->
  to_windows w ("~"%char :: rest) = to_windows w (home w ++ rest).
Proof.
  intros Hh Hd. unfold to_windows. rewrite Hh.
  change (is_empty ("~"%char :: rest)) with false.
  change (is_empty ((d :: h) ++ rest)) with false. cbv iota.
  change (startswith "~" ("~"%char :: rest)) with true.
  change (startswith "~" ((d :: h) ++ rest)) with (Ascii.eqb "~" d && true).
  replace (Ascii.eqb "~" d) with false.
  - cbn [andb]. cbv iota.
    change (replace_first "~" (d :: h) ("~"%char :: rest))
      with ((d :: h) ++ rest).
    reflexivity.
  - symmetry. apply Ascii.eqb_neq. congruence.
Qed.

(** X28.  The prompt shows the home directory as [~]: in a directory
    [home\sub] below a home directory [X:\...] it shows [~/sub], with the
    separators of [sub] turned into forward slashes. *)
Theorem prompt_abbreviates_home (t : Terminal W) (d : ascii)
    (hrest sub : str) :
  is_alpha d = true ->
  forallb Re.not_newline (hrest ++ "\" ++ sub) = true ->
  home (world t) = d :: ":"%char :: "\"%char :: hrest ->
  cwd t = home (world t) ++ "\" ++ sub ->
  exists user host,
    get_prompt t
    = Fore.GREEN ++ user ++ "@" ++ host ++ Style.RESET_ALL ++ ":"
      ++ Fore.BLUE ++ ("~/" ++ replace_char "\" "/" sub)
      ++ Style.RESET_ALL ++ "$ ".
Proof.
  intros Hd Hnl Hhome Hcwd. unfold get_prompt. eexists. eexists.
  do 7 f_equal.
  assert (Hnl1 : forallb Re.not_newline hrest = true).
  { rewrite forallb_app in Hnl. now apply andb_true_iff in Hnl. }
  rewrite Hcwd, Hhome.
  change ((d :: ":"%char :: "\"%char :: hrest) ++ list_ascii_of_string "\" ++ sub)
    with (d :: ":"%char :: "\"%char :: (hrest ++ list_ascii_of_string "\" ++ sub)).
  rewrite (to_linux_native_drive _ d _ Hd Hnl).
  rewrite (to_linux_native_drive _ d _ Hd Hnl1).
  rewrite replace_char_app.
  set (hl := replace_char "\" "/" hrest).
  change (replace_char "\" "/" (list_ascii_of_string "\" ++ sub))
    with ("/"%char :: replace_char "\" "/" sub).
  set (p := "/"%char :: lower_char d :: "/"%char :: hl).
  change ("/"%char :: lower_char d :: "/"%char
          :: hl ++ "/"%char :: replace_char "\" "/" sub)
    with (p ++ "/"%char :: replace_char "\" "/" sub).
  assert (S : startswith p (p ++ "/"%char :: replace_char "\" "/" sub) = true).
  { apply startswith_iff. eexists. reflexivity. }
  rewrite S. f_equal.
  rewrite skipn_app, skipn_all, Nat.sub_diag. reflexivity.
Qed.

End LateFailures.

Section EchoVariables.

Import Py PyFacts SplitFacts.

Lemma split_go_skip (sep x post : str) :
  split_go sep (length x) (x ++ post) = split_go sep 0 post.
Proof.
  induction x as [|c x IH]; [reflexivity|]. exact IH.
Qed.

Lemma split_once (a : ascii) (sep' pre post : str) :
  existsb (Ascii.eqb a) pre = false ->
  existsb (Ascii.eqb a) post = false ->
  split (a :: sep') (pre ++ (a :: sep') ++ post) = [pre; post].
Proof.
  intros Hpre Hpost. unfold split. induction pre as [|c pre IH].
  - cbn [app split_go].
    replace (startswith (a :: sep') (a :: sep' ++ post)) with true.
    + cbv iota.
      replace (length (a :: sep') - 1) with (length sep')
        by (cbn [length]; lia).
      rewrite split_go_skip.
      fold (split (a :: sep') post).
      now rewrite (split_absent _ _ (contains_first_char a sep' post Hpost)).
    + symmetry. apply startswith_iff. exists post. reflexivity.
  - cbn [existsb] in Hpre. apply orb_false_iff in Hpre.
    destruct Hpre as [Hc Hpre].
    change ((c :: pre) ++ (a :: sep') ++ post)
      with (c :: (pre ++ (a :: sep') ++ post)).
    cbn [split_go startswith]. rewrite Hc. cbn [andb].
    now rewrite (IH Hpre).
Qed.

Lemma replace_once (a : ascii) (sep' new pre post : str) :
  existsb (Ascii.eqb a) pre = false ->
  existsb (Ascii.eqb a) post = false ->
  Py.replace (a :: sep') new (pre ++ (a :: sep') ++ post)
  = pre ++ new ++ post.
Proof.
  intros Hpre Hpost. unfold Py.replace.
  now rewrite (split_once a sep' pre post Hpre Hpost).
Qed.

(** X29.  [echo] replaces [$NAME] by the value of the first variable of
    the environment whose name follows the [$], even when a longer name
    was meant: with [K] first in the environment, [$K] followed by more
    text gives the value of [K] followed by that text, whatever other
    variables there are. *)
Theorem echo_expands_first_matching_variable (k v : str) (environ : dict)
    (pre post cwd : str) :
  existsb (Ascii.eqb "$"%char) (pre ++ v ++ post) = false ->
  existsb (Ascii.eqb "\"%char) (pre ++ k ++ post) = false ->
  SystemCommands.echo ((k, v) :: environ) [pre ++ "$" ++ k ++ post] cwd
  = pre ++ v ++ post.
Proof.
  intros Hd Hb. unfold SystemCommands.echo.
  set (arg := pre ++ "$" ++ k ++ post).
  assert (Hn : str_eqb arg "-n" = false).
  { apply str_eqb_neq. intros E.
    apply (f_equal (existsb (Ascii.eqb "$"%char))) in E. unfold arg in E.
    rewrite !existsb_app in E.
    change (existsb (Ascii.eqb "$"%char) (list_ascii_of_string "$")) with true
      in E.
    rewrite orb_true_r in E. discriminate. }
  assert (Hf : filter (fun a => negb (str_eqb a "-n")) [arg] = [arg]).
  { cbn [filter]. now rewrite Hn. }
  rewrite Hf. cbn [join].
  assert (Hbs : existsb (Ascii.eqb "\"%char) arg = false).
  { unfold arg. rewrite !existsb_app in *.
    apply orb_false_iff in Hb. destruct Hb as [H1 Hb].
    apply orb_false_iff in Hb. destruct Hb as [H2 H3].
    now rewrite H1, H2, H3. }
  change (list_ascii_of_string "\n") with ("\"%char :: list_ascii_of_string "n").
  change (list_ascii_of_string "\t") with ("\"%char :: list_ascii_of_string "t").
  change (list_ascii_of_string "\\") with ("\"%char :: list_ascii_of_string "\").
  rewrite (replace_absent _ nl _ (contains_first_char _ _ _ Hbs)).
  rewrite (replace_absent _ [ascii_of_nat 9] _ (contains_first_char _ _ _ Hbs)).
  rewrite (replace_absent _ (list_ascii_of_string "\") _
             (contains_first_char _ _ _ Hbs)).
  assert (Hx : SystemCommands.expand_variables ((k, v) :: environ) arg
               = pre ++ v ++ post).
  { unfold SystemCommands.expand_variables. cbn [fold_left fst snd].
    fold (SystemCommands.expand_variables environ).
    rewrite !existsb_app in Hd.
    apply orb_false_iff in Hd. destruct Hd as [H1 Hd].
    apply orb_false_iff in Hd. destruct Hd as [H2 H3].
    unfold arg.
    change (list_ascii_of_string "$" ++ k) with ("$"%char :: k).
    change (pre ++ list_ascii_of_string "$" ++ k ++ post)
      with (pre ++ ("$"%char :: k) ++ post).
    rewrite (replace_once "$"%char k v pre post H1 H3).
    assert (Hall : existsb (Ascii.eqb "$"%char) (pre ++ v ++ post) = false)
      by (rewrite !existsb_app; now rewrite H1, H2, H3).
    change (list_ascii_of_string "${" ++ k ++ list_ascii_of_string "}")
      with ("$"%char :: "{"%char :: k ++ list_ascii_of_string "}").
    rewrite (replace_absent _ v _ (contains_first_char _ _ _ Hall)).
    now apply expand_variables_plain. }
  rewrite Hx. destruct (existsb (str_eqb "-n") [arg]); reflexivity.
Qed.

End EchoVariables.

(* ===================================================================== *)
(** * The properties on the concrete host *)
(* ===================================================================== *)

Module DemoRuns.
Import Py PyFacts Demo.

#[export] Instance demo_laws : HostLaws machine.
Proof.
  constructor.
  - intros k v w. apply dict_get_set_eq.
  - intros path text w w'. simpl. unfold demo_write.
    destruct (is_dir path w); [discriminate|].
    intros E; inversion E; subst. simpl. apply dict_get_set_eq.
  - intros path text w w'. simpl. unfold demo_write.
    destruct (is_dir path w); [discriminate|].
    intros E; inversion E; subst. simpl. apply dict_get_set_eq.
Qed.

(** ** The tokeniser on the lines of the specification *)

Example tokenize_quoted :
  tokenize ("echo " ++ [dquote] ++ "a b" ++ [dquote] ++ " c")
  = ("echo" : str, ["a b" : str; "c" : str]).
Proof. vm_compute. reflexivity. Qed.

Example tokenize_unterminated_quote :
  Shlex.split ("echo " ++ [dquote] ++ "a b") = None
  /\ tokenize ("echo " ++ [dquote] ++ "a b")
     = ("echo" : str, [dquote :: "a" : str; "b" : str]).
Proof. vm_compute. split; reflexivity. Qed.

Example parse_command_default_aliases :
  parse_command default_aliases "  ll  /tmp  "
  = ("ls" : str, ["-la" : str; "/tmp" : str])
  /\ parse_command default_aliases ".." = ("cd" : str, [".." : str])
  /\ parse_command default_aliases "#note" = ("#note" : str, []).
Proof. vm_compute. repeat split. Qed.

(** ** C1 *)

Lemma cd_without_argument_raises_witness :
  FileCommands.cd [] "C:\Users\me" pc_home_is_file
  = (Raise (Exception "list index out of range"), pc_home_is_file).
Proof.
  apply (cd_without_argument_raises (W := machine));
    vm_compute; reflexivity.
Defined.

(** In a session the dispatch catches it: the directory stays, the message
    is the one of the exception. *)
Example cd_without_argument_in_session :
  execute "cd" (init pc_home_is_file)
  = (Return (ColorOutput.error "cd: list index out of range"),
     history_append "cd" (init pc_home_is_file)).
Proof. vm_compute. reflexivity. Qed.

(** ** C2 *)

Lemma lowercase_drive_not_restored :
  to_windows pc (to_linux pc "c:\foo") = ("C:\foo" : str)
  /\ NtPath.normpath "c:\foo" = ("c:\foo" : str)
  /\ to_windows pc (to_linux pc "c:\foo") <> NtPath.normpath "c:\foo".
Proof. vm_compute. repeat split. discriminate. Qed.

Lemma drive_path_roundtrip_witness :
  to_windows pc (to_linux pc "C:\Users\me\..\x") = ("C:\Users\x" : str)
  /\ NtPath.normpath "C:\Users\me\..\x" = ("C:\Users\x" : str)
  /\ to_linux pc (to_windows pc "/c/Users/./me//work/..") = ("/c/Users/me" : str)
  /\ to_linux pc (to_windows pc "/c/Users/me") = ("/c/Users/me" : str).
Proof.
  destruct (drive_path_roundtrip pc "C"%char "Users\me\..\x" eq_refl)
    as [Native _].
  destruct (drive_path_roundtrip pc "c"%char "Users/./me//work/.." eq_refl)
    as [_ [Virtual _]].
  destruct (drive_path_roundtrip pc "c"%char "Users/me" eq_refl)
    as [_ [_ Normal]].
  split; [|split; [|split]].
  - refine (eq_trans (Native eq_refl) _). vm_compute. reflexivity.
  - vm_compute. reflexivity.
  - exact (Virtual eq_refl).
  - apply (Normal eq_refl ["Users" : str; "me" : str]); [|reflexivity].
    repeat constructor; discriminate.
Defined.

(** ** C3 *)

Lemma alias_rescanned_after_removal :
  dict_get "a" chained = Some ("b x" : str)
  /\ parse_command chained "a y" = ("b" : str, ["x" : str; "y" : str])
  /\ parse_command (dict_del "a" chained) "b x y"
     = ("c" : str, ["x" : str; "y" : str])
  /\ parse_command chained "a y"
     <> parse_command (dict_del "a" chained) "b x y".
Proof. vm_compute. repeat split. discriminate. Qed.

Lemma alias_expands_once_witness :
  parse_command default_aliases "ll /tmp"
  = ("ls" : str, ["-la" : str; "/tmp" : str])
  /\ parse_command default_aliases "ll /tmp"
     = parse_command (dict_del "ll" default_aliases) "ls -la /tmp".
Proof.
  assert (Hw : word "ll") by (split; [discriminate | reflexivity]).
  destruct (alias_expands_once default_aliases "ll" "ls -la" "/tmp" Hw eq_refl)
    as [Once Same].
  split.
  - exact Once.
  - apply Same; [discriminate|].
    intros first rest E. vm_compute in E. inversion E. reflexivity.
Defined.

(** ** C4 *)



(** ** C5 *)

Lemma alias_with_redirect_is_dispatched :
  contains ">" (expand_alias (aliases with_save) "save") = true
  /\ execute "save" with_save
     = (Return ("hi > out.txt" : str), history_append "save" with_save)
  /\ read_text "C:\Users\me\out.txt" (world (snd (execute "save" with_save)))
     = None
  /\ read_text "C:\Users\me\out.txt"
       (world (snd (execute "echo hi > out.txt" with_save)))
     = Some ("hi" ++ nl)
  /\ fst (execute "save" with_save)
     <> fst (execute "echo hi > out.txt" with_save).
Proof. vm_compute. repeat split. discriminate. Qed.

Lemma routing_precedes_alias_expansion_witness :
  execute "save" with_save
  = dispatch "save" (history_append "save" with_save)
  /\ parse_command (aliases with_save) "save"
     = ("echo" : str, ["hi" : str; ">" : str; "out.txt" : str]).
Proof.
  destruct (routing_precedes_alias_expansion with_save "save"
              eq_refl eq_refl eq_refl) as [E P].
  split; [exact E|]. rewrite (P : parse_command _ "save" = _).
  vm_compute. reflexivity.
Defined.

(** ** C6 *)

Lemma pipe_returns_last_segment_witness :
  execute "cd /c/Users | echo a | pwd" (init pc)
  = run_last execute ["cd /c/Users" : str; "echo a" : str; "pwd" : str]
      (history_append "cd /c/Users | echo a | pwd" (init pc))
  /\ fst (execute "cd /c/Users | echo a | pwd" (init pc))
     = Return ("C:\Users" : str).
Proof.
  split.
  - exact (pipe_returns_last_segment (init pc) "cd /c/Users | echo a | pwd"
             eq_refl eq_refl).
  - vm_compute. reflexivity.
Defined.

(** ** C7 *)

Lemma history_lists_its_own_line :
  history (init pc) = []
  /\ execute "history 5" (init pc)
     = (Return ("    1  history 5" : str),
        history_append "history 5" (init pc))
  /\ fst (execute "history 5" (init pc)) <> Return (numbered_from 1 [])
  /\ fst (execute "history 5" (snd (execute "echo a | echo b" (init pc))))
     = Return (numbered_from 1 ["echo a | echo b" : str; "echo a" : str;
                                "echo b" : str; "history 5" : str]).
Proof. vm_compute. repeat split. discriminate. Qed.

Lemma history_lists_recent_entries_witness :
  let t := set_history ["a" : str; "b" : str; "c" : str] (init pc) in
  fst (execute "history 2" t)
  = Return (numbered_from 3 ["c" : str; "history 2" : str]).
Proof.
  intros t.
  destruct (history_lists_recent_entries t "history 2" ["2" : str] 2
              eq_refl eq_refl eq_refl eq_refl eq_refl) as [E _].
  rewrite E. reflexivity.
Defined.

(** ** C8 *)

Lemma redirect_with_empty_part_runs :
  redirect_parts "> f" = [[]; " f" : str]
  /\ execute "> f" (init pc)
     = (Return [],
        set_world (snd (write_text false "C:\Users\me\f" nl pc))
          (history_append "> f" (init pc)))
  /\ read_text "C:\Users\me\f" (world (snd (execute "> f" (init pc))))
     = Some nl
  /\ redirect_parts "echo x >" = ["echo x " : str; []]
  /\ history (snd (execute "echo x >" (init pc)))
     = ["echo x >" : str; "echo x" : str]
  /\ fst (execute "> f" (init pc))
     <> Return (ColorOutput.error "Invalid redirection syntax")
  /\ fst (execute "echo x >" (init pc))
     <> Return (ColorOutput.error "Invalid redirection syntax").
Proof. vm_compute. repeat split; discriminate. Qed.

Lemma redirect_needs_two_parts_witness :
  execute "echo a > b > c" (init pc)
  = (Return (ColorOutput.error "Invalid redirection syntax"),
     history_append "echo a > b > c" (init pc)).
Proof.
  apply (redirect_needs_two_parts (init pc) "echo a > b > c");
    vm_compute; try reflexivity. discriminate.
Defined.

(** ** C9 *)


(** ** C10 *)

Lemma redirect_line_adds_three_entries :
  redirect_parts "echo a > b >> c" = ["echo a > b " : str; " c" : str]
  /\ history (snd (execute "echo a > b >> c" (init pc)))
     = ["echo a > b >> c" : str; "echo a > b" : str; "echo a" : str]
  /\ history (snd (execute "echo a | | echo b" (init pc)))
     = ["echo a | | echo b" : str; "echo a" : str; "echo b" : str]
  /\ length (history (snd (execute "echo a > b >> c" (init pc)))) <> 2.
Proof. vm_compute. repeat split. discriminate. Qed.

Lemma history_entries_of_routed_line_witness :
  history (snd (execute "echo hi > out.txt" (init pc)))
  = ["echo hi > out.txt" : str; "echo hi" : str]
  /\ history (snd (execute "echo a | pwd" (init pc)))
     = ["echo a | pwd" : str; "echo a" : str; "pwd" : str].
Proof.
  destruct (history_entries_of_routed_line (init pc) "echo hi > out.txt"
              eq_refl) as [Redirect _].
  destruct (history_entries_of_routed_line (init pc) "echo a | pwd"
              eq_refl) as [_ Pipe].
  split.
  - exact (Redirect eq_refl eq_refl "echo hi " " out.txt"
             eq_refl eq_refl eq_refl).
  - apply Pipe; [reflexivity | | eexists; vm_compute; reflexivity].
    repeat constructor.
Defined.

End DemoRuns.

(* ===================================================================== *)
(** * The further properties on the concrete host *)
(* ===================================================================== *)

Module MoreRuns.
Import Py PyFacts Demo.

Lemma execute_nesting_is_bounded_witness :
  depth (strip "echo a > f | echo b") <= 3
  /\ execute_fuel 4 "echo a > f | echo b" (init pc)
     = Some (execute "echo a > f | echo b" (init pc)).
Proof.
  pose (t0 := init pc).
  destruct (execute_nesting_is_bounded "echo a > f | echo b" t0 4) as [B E].
  split; [exact B | apply E; vm_compute; lia].
Defined.

Lemma history_is_append_only_witness :
  exists more,
    history (snd (execute " echo a | pwd " (init pc)))
    = history (init pc) ++ strip " echo a | pwd " :: more.
Proof.
  pose (t0 := init pc).
  exact (proj1 (proj2 (history_is_append_only " echo a | pwd " t0))
           ltac:(vm_compute; reflexivity)).
Defined.

Lemma plain_command_footprint_witness :
  let t' := snd (execute "ll" (init pc)) in
  history t' = ["ll" : str]
  /\ cwd t' = cwd (init pc)
  /\ aliases t' = aliases (init pc)
  /\ running t' = true.
Proof.
  pose (t0 := init pc).
  destruct (plain_command_footprint "ll" "ls" ["-la" : str] t0
              ltac:(vm_compute; reflexivity) ltac:(vm_compute; reflexivity)
              ltac:(vm_compute; reflexivity) ltac:(vm_compute; reflexivity))
    as [A [B [C D]]].
  intros t'. split; [exact A|]. split; [apply B; discriminate|].
  split; [apply C; discriminate | apply D; discriminate].
Defined.

Lemma unregistered_command_runs_typed_line_witness :
  let t := set_aliases [("gs" : str, "git status" : str)] (init pc) in
  parse_command (aliases t) "gs" = ("git" : str, ["status" : str])
  /\ execute "gs" t = (Return [], set_world pc (history_append "gs" t)).
Proof.
  pose (t := set_aliases [("gs" : str, "git status" : str)] (init pc)).
  split; [reflexivity|].
  exact (proj1 (unregistered_command_runs_typed_line "gs" "git"
                  ["status" : str] t
                  ltac:(vm_compute; reflexivity) ltac:(vm_compute; reflexivity)
                  ltac:(vm_compute; reflexivity) ltac:(vm_compute; reflexivity)
                  ltac:(vm_compute; reflexivity))
           [] [] pc ltac:(vm_compute; reflexivity)).
Defined.

Lemma stopped_session_stays_stopped_witness :
  running (snd (execute "echo hi" (set_running false (init pc)))) = false.
Proof.
  pose (t := set_running false (init pc)).
  exact (stopped_session_stays_stopped "echo hi" t eq_refl).
Defined.

Lemma unquoted_line_splits_into_words_witness :
  Shlex.split "  ls -la   /tmp " = Some (split_ws "  ls -la   /tmp ")
  /\ tokenize "  ls -la   /tmp "
     = (hd [] (split_ws "  ls -la   /tmp "), tl (split_ws "  ls -la   /tmp ")).
Proof.
  exact (unquoted_line_splits_into_words "  ls -la   /tmp "
           ltac:(vm_compute; reflexivity)).
Defined.

Lemma unclosed_quote_falls_back_to_words_witness :
  Shlex.split ("echo it" ++ "'"%char :: "s here") = None
  /\ tokenize ("echo it" ++ "'"%char :: "s here")
     = (hd [] (split_ws ("echo it" ++ "'"%char :: "s here")),
        tl (split_ws ("echo it" ++ "'"%char :: "s here"))).
Proof.
  exact (unclosed_quote_falls_back_to_words "echo it" "s here" "'"%char
           ltac:(vm_compute; reflexivity) ltac:(vm_compute; reflexivity)
           ltac:(vm_compute; reflexivity)).
Defined.

Lemma quotes_keep_text_witness :
  tokenize ("echo" ++ " "%char :: "x=" ++ "'"%char :: "a  b\c" ++ ["'"%char])
  = ("echo" : str, ["x=" ++ "a  b\c"])
  /\ tokenize ("echo" ++ " "%char :: [] ++ dquote :: "it's" ++ [dquote])
     = ("echo" : str, [[] ++ "it's"]).
Proof.
  split.
  - exact (quotes_keep_text "echo" "x=" "a  b\c" "'"%char
             ltac:(discriminate) ltac:(vm_compute; reflexivity)
             ltac:(vm_compute; reflexivity) ltac:(vm_compute; reflexivity)
             ltac:(vm_compute; reflexivity) ltac:(discriminate)).
  - exact (quotes_keep_text "echo" [] "it's" dquote
             ltac:(discriminate) ltac:(vm_compute; reflexivity)
             ltac:(vm_compute; reflexivity) ltac:(vm_compute; reflexivity)
             ltac:(vm_compute; reflexivity)
             (fun _ => ltac:(vm_compute; reflexivity))).
Defined.

Lemma alias_definition_is_stored_witness :
  let r := SystemCommands.alias ["gs" ++ "=" ++ "'git status'"] "C:\"
             default_aliases in
  fst r = []
  /\ dict_get "gs" (snd r) = Some (strip_chars alias_quotes "'git status'")
  /\ (forall k : str,
        k <> "gs" -> dict_get k (snd r) = dict_get k default_aliases).
Proof.
  exact (alias_definition_is_stored "gs" "'git status'" "C:\" default_aliases
           ltac:(vm_compute; reflexivity)).
Defined.

Lemma alias_query_stops_at_first_known_witness :
  SystemCommands.alias (["nope" : str] ++ ("ll" : str) :: ["x=y" : str]) "C:\"
    default_aliases
  = ("alias " ++ "ll" ++ "='" ++ "ls -la" ++ "'", default_aliases)
  /\ SystemCommands.alias ["nope" : str] "C:\" default_aliases
     = ([], default_aliases).
Proof.
  assert (Hpre : Forall (fun p => contains "=" p = false
                                  /\ dict_get p default_aliases = None)
                   ["nope" : str]).
  { constructor; [split; vm_compute; reflexivity | constructor]. }
  destruct (alias_query_stops_at_first_known ["nope" : str] "C:\"
              default_aliases Hpre) as [Q U].
  split.
  - exact (Q "ll" "ls -la" ["x=y" : str] ltac:(vm_compute; reflexivity)
             ltac:(vm_compute; reflexivity)).
  - apply U. discriminate.
Defined.

Lemma default_aliases_distinct : NoDup (map fst default_aliases).
Proof.
  repeat (constructor;
          [cbn; intuition (try discriminate)|]).
  constructor.
Defined.

Lemma unalias_removes_the_names_witness :
  let d := snd (SystemCommands.unalias ["ll" : str; "nope" : str] "C:\"
                  default_aliases) in
  dict_get "ll" d = None /\ dict_get "la" d = Some ("ls -a" : str).
Proof.
  destruct (unalias_removes_the_names ["ll" : str; "nope" : str] "C:\"
              default_aliases default_aliases_distinct) as [_ L].
  split; [exact (L "ll") | exact (L "la")].
Defined.

Lemma history_count_edges_witness :
  SystemCommands.history ["many" : str] "C:\" ["a" : str; "b" : str]
  = SystemCommands.history [] "C:\" ["a" : str; "b" : str]
  /\ SystemCommands.history ["-3" : str] "C:\" ["a" : str; "b" : str] = []
  /\ SystemCommands.history ["2" : str] "C:\" ["a" : str; "b" : str]
     = numbered_from 1 ["a" : str; "b" : str].
Proof.
  split; [|split].
  - exact (proj1 (history_count_edges "many" [] "C:\" ["a" : str; "b" : str])
             ltac:(vm_compute; reflexivity)).
  - exact (proj1 (proj2 (history_count_edges "-3" [] "C:\"
                           ["a" : str; "b" : str]))
             (-3)%Z ltac:(vm_compute; reflexivity) ltac:(lia)).
  - exact (proj2 (proj2 (history_count_edges "2" [] "C:\"
                           ["a" : str; "b" : str]))
             2%Z ltac:(vm_compute; reflexivity) ltac:(simpl; lia)).
Defined.

Lemma alias_line_defines_alias_witness :
  execute ("alias " ++ "gs" ++ "='" ++ "git status" ++ "'") (init pc)
  = (Return [],
     set_aliases (dict_set "gs" (strip_chars alias_quotes "git status")
                    (aliases (init pc)))
       (history_append ("alias " ++ "gs" ++ "='" ++ "git status" ++ "'")
          (init pc))).
Proof.
  pose (t0 := init pc).
  exact (alias_line_defines_alias "gs" "git status" t0
           ltac:(vm_compute; reflexivity) ltac:(vm_compute; reflexivity)
           ltac:(vm_compute; reflexivity)).
Defined.

Lemma mnt_prefix_is_optional_witness :
  to_windows pc ("/mnt/" ++ "c"%char :: "/Users") 
  = to_windows pc ("/"%char :: "c"%char :: "/Users").
Proof.
  refine (mnt_prefix_is_optional pc "c"%char "/Users" eq_refl _).
  right. exists ("Users" : str). split; reflexivity.
Defined.

Lemma native_path_passes_through_witness :
  to_windows pc ("D"%char :: ":"%char :: "/"%char :: "a/../b")
  = NtPath.normpath ("D"%char :: ":"%char :: "/"%char :: "a/../b").
Proof.
  exact (native_path_passes_through pc "D"%char "/"%char "a/../b"
           eq_refl eq_refl).
Defined.

Lemma to_windows_has_no_slash_witness :
  existsb (Ascii.eqb "/"%char) (to_windows pc "~/work/./x") = false.
Proof.
  exact (to_windows_has_no_slash pc "~/work/./x" ltac:(discriminate)).
Defined.

Lemma cd_dash_goes_back_witness :
  let w1 := environ_set "OLDPWD" "C:\Users\me" pc in
  FileCommands.cd ["-" : str] "C:\Users" w1
  = (Return (NtPath.normpath "C:\Users\me", []),
     environ_set "OLDPWD" "C:\Users" w1)
  /\ FileCommands.cd_target ["-" : str] (NtPath.normpath "C:\Users\me")
       (environ_set "OLDPWD" "C:\Users" w1)
     = NtPath.normpath "C:\Users".
Proof.
  pose (w1 := environ_set "OLDPWD" "C:\Users\me" pc).
  exact (@cd_dash_goes_back machine demo_host DemoRuns.demo_laws
           ["/c/Users" : str] "C:\Users\me" "C:\Users" pc w1
           ltac:(vm_compute; reflexivity) ltac:(vm_compute; reflexivity)
           ltac:(vm_compute; reflexivity)).
Defined.

Lemma echo_joins_plain_arguments_witness :
  SystemCommands.echo [("HOME" : str, "C:\Users\me" : str)]
    ["-n" : str; "hello" : str; "world" : str] "C:\"
  = join " " (filter (fun a => negb (str_eqb a "-n"))
                ["-n" : str; "hello" : str; "world" : str]).
Proof.
  apply echo_joins_plain_arguments.
  repeat (constructor; [split; vm_compute; reflexivity|]). constructor.
Defined.

Lemma cd_then_pwd_shows_the_path_witness :
  FileCommands.cd ["/"%char :: "c"%char :: "/"%char
                   :: join "/" ["Users" : str; "me" : str; "work" : str]]
    "C:\" pc
  = (Return (upper_char "c" :: ":"%char :: "\"%char
             :: join "\" ["Users" : str; "me" : str; "work" : str], []),
     environ_set "OLDPWD" "C:\" pc)
  /\ FileCommands.pwd []
       (upper_char "c" :: ":"%char :: "\"%char
        :: join "\" ["Users" : str; "me" : str; "work" : str])
       (environ_set "OLDPWD" "C:\" pc)
     = "/"%char :: "c"%char :: "/"%char
       :: join "/" ["Users" : str; "me" : str; "work" : str].
Proof.
  assert (Hsegs : Forall normal_component
                    ["Users" : str; "me" : str; "work" : str]).
  { repeat (constructor;
            [repeat split; try discriminate; vm_compute; reflexivity|]).
    constructor. }
  exact (cd_then_pwd_shows_the_path "c"%char
           ["Users" : str; "me" : str; "work" : str] "C:\" pc
           eq_refl Hsegs ltac:(vm_compute; reflexivity)
           ltac:(vm_compute; reflexivity) ltac:(vm_compute; reflexivity)).
Defined.


Example run_on_a_console_that_cannot_encode :
  run ascii_console [typed "exit"] (init pc)
  = (Raise (Exception "'charmap' codec can't encode characters"), init pc)
  /\ run_loop ascii_console [typed "help"; typed "exit"] (init pc)
     = (Raise (Exception "'charmap' codec can't encode characters"),
        history_append "help" (init pc)).
Proof. split; vm_compute; reflexivity. Qed.

Lemma exit_stops_reading_witness :
  run_loop utf8_console [typed " quit now"; typed "echo x"; ctrl_c] (init pc)
  = (Return tt,
     set_world pc
       (set_running false
          (history_append (strip " quit now") (set_world pc (init pc)))))
  /\ run_loop ascii_console [typed " quit now"; typed "echo x"] (init pc)
     = run_loop ascii_console [typed " quit now"] (init pc)
  /\ running (snd (run_loop ascii_console [typed " quit now"] (init pc)))
     = false.
Proof.
  pose (t0 := init pc).
  destruct (@exit_stops_reading machine demo_host utf8_console " quit now" "quit"
              ["now" : str] (typed " quit now") [typed "echo x"; ctrl_c]
              t0 pc
              eq_refl ltac:(vm_compute; reflexivity)
              ltac:(vm_compute; reflexivity) ltac:(vm_compute; reflexivity)
              ltac:(vm_compute; reflexivity) ltac:(vm_compute; reflexivity)
              (or_intror eq_refl)) as [_ [_ [_ Bye]]].
  destruct (@exit_stops_reading machine demo_host ascii_console " quit now" "quit"
              ["now" : str] (typed " quit now") [typed "echo x"]
              t0 pc
              eq_refl ltac:(vm_compute; reflexivity)
              ltac:(vm_compute; reflexivity) ltac:(vm_compute; reflexivity)
              ltac:(vm_compute; reflexivity) ltac:(vm_compute; reflexivity)
              (or_intror eq_refl)) as [Same [Stopped _]].
  split; [exact (Bye pc ltac:(vm_compute; reflexivity))|].
  split; [exact (Same []) | exact Stopped].
Defined.

Lemma chdir_failure_keeps_the_new_directory_witness :
  fst (execute "cd /nowhere" (set_cwd "C:\gone" (init pc)))
  = Return (ColorOutput.error
              ("cd: " ++ "[WinError 2] The system cannot find the file specified")).
Proof.
  pose (t := set_cwd "C:\gone" (init pc)).
  exact (f_equal fst
           (chdir_failure_keeps_the_new_directory "cd /nowhere"
              ["/nowhere" : str] t "C:\gone"
              (ColorOutput.error
                 ("cd: " ++ "/nowhere" ++ ": No such file or directory"))
              "[WinError 2] The system cannot find the file specified" pc pc
              ltac:(vm_compute; reflexivity) ltac:(vm_compute; reflexivity)
              ltac:(vm_compute; reflexivity) ltac:(vm_compute; reflexivity)
              ltac:(vm_compute; reflexivity) ltac:(vm_compute; reflexivity))).
Defined.

Lemma redirect_failure_is_reported_witness :
  execute "echo hi > work" (init pc)
  = (Return (ColorOutput.error
               ("Redirect failed: " ++ "[Errno 13] Permission denied")),
     set_world pc
       (snd (execute "echo hi" (history_append "echo hi > work" (init pc))))).
Proof.
  pose (t0 := init pc).
  pose (t1 := snd (execute "echo hi" (history_append "echo hi > work" t0))).
  exact (redirect_failure_is_reported t0 t1 "echo hi > work" "echo hi "
           " work" "hi" "[Errno 13] Permission denied" pc
           ltac:(vm_compute; reflexivity) ltac:(vm_compute; reflexivity)
           ltac:(vm_compute; reflexivity) ltac:(vm_compute; reflexivity)
           ltac:(vm_compute; reflexivity) ltac:(vm_compute; reflexivity)).
Defined.

Lemma tilde_stands_for_home_witness :
  to_windows pc ("~"%char :: "/work") = to_windows pc (home pc ++ "/work")
  /\ to_windows pc ("~"%char :: "2") = to_windows pc (home pc ++ "2").
Proof.
  split.
  - exact (@tilde_stands_for_home machine demo_host pc "C"%char ":\Users\me" "/work"
             ltac:(vm_compute; reflexivity) ltac:(discriminate)).
  - exact (@tilde_stands_for_home machine demo_host pc "C"%char ":\Users\me" "2"
             ltac:(vm_compute; reflexivity) ltac:(discriminate)).
Defined.

Lemma prompt_abbreviates_home_witness :
  exists user host,
    get_prompt (set_cwd "C:\Users\me\work\src" (init pc))
    = Fore.GREEN ++ user ++ "@" ++ host ++ Style.RESET_ALL ++ ":"
      ++ Fore.BLUE ++ ("~/" ++ replace_char "\" "/" "work\src")
      ++ Style.RESET_ALL ++ "$ ".
Proof.
  pose (t := set_cwd "C:\Users\me\work\src" (init pc)).
  exact (prompt_abbreviates_home t "C"%char "Users\me" "work\src"
           ltac:(vm_compute; reflexivity) ltac:(vm_compute; reflexivity)
           ltac:(vm_compute; reflexivity) ltac:(vm_compute; reflexivity)).
Defined.

Lemma echo_expands_first_matching_variable_witness :
  SystemCommands.echo
    [("HOME" : str, "/h" : str); ("HOMEDRIVE" : str, "C:" : str)]
    [[] ++ "$" ++ "HOME" ++ "DRIVE"] "C:\"
  = [] ++ "/h" ++ "DRIVE".
Proof.
  exact (echo_expands_first_matching_variable "HOME" "/h"
           [("HOMEDRIVE" : str, "C:" : str)] [] "DRIVE" "C:\"
           ltac:(vm_compute; reflexivity) ltac:(vm_compute; reflexivity)).
Defined.

End MoreRuns.
